(** * A URL-shortener front end: validator, submit orchestration, history store

    Shallow embedding of [frontend/src/App.js].  The component's own logic
    ([isValidHttpUrl], [parseValidityOrDefault], [handleSubmit], the history
    initialiser and the persisting effect) is translated function by
    function.  What the code calls on the JavaScript platform ([trim],
    [Number], [URL], [JSON], [localStorage], [fetch], [Date.now]) is modelled
    in the modules that come first. *)

From Stdlib Require Import ZArith NArith List Bool Lia String Ascii.
Import ListNotations.

Local Open Scope Z_scope.

(* ================================================================== *)
(** ** JavaScript strings *)

Module JsString.

(** A string is its sequence of UTF-16 code units. *)
Definition jsstring := list N.

Definition ch (a : ascii) : N := N_of_ascii a.

(** [js "text"] is the string with the code units of an ASCII literal. *)
Definition js (s : string) : jsstring := List.map ch (list_ascii_of_string s).

Fixpoint str_eqb (a b : jsstring) : bool :=
  match a, b with
  | [], [] => true
  | x :: a', y :: b' => N.eqb x y && str_eqb a' b'
  | _, _ => false
  end.

(** WhiteSpace and LineTerminator of ECMAScript: what [trim] removes and
    what [Number] skips around a numeric literal. *)
Definition is_ws (c : N) : bool :=
  ((9 <=? c) && (c <=? 13) || (c =? 32) || (c =? 160) || (c =? 5760)
   || (8192 <=? c) && (c <=? 8202) || (c =? 8232) || (c =? 8233)
   || (c =? 8239) || (c =? 8287) || (c =? 12288) || (c =? 65279))%N.

Fixpoint trimStart (s : jsstring) : jsstring :=
  match s with
  | c :: s' => if is_ws c then trimStart s' else s
  | [] => []
  end.

Definition trimEnd (s : jsstring) : jsstring := rev (trimStart (rev s)).

(** [String.prototype.trim] *)
Definition trim (s : jsstring) : jsstring := trimEnd (trimStart s).

(** No white space in front. *)
Definition starts_clean (s : jsstring) : Prop :=
  match s with
  | [] => True
  | c :: _ => is_ws c = false
  end.

(** A string is falsy exactly when it is empty. *)
Definition nonempty (s : jsstring) : bool :=
  match s with [] => false | _ => true end.

Definition is_digit (c : N) : bool := ((48 <=? c) && (c <=? 57))%N.
Definition is_upper (c : N) : bool := ((65 <=? c) && (c <=? 90))%N.
Definition is_lower (c : N) : bool := ((97 <=? c) && (c <=? 122))%N.
Definition is_alpha (c : N) : bool := is_upper c || is_lower c.
Definition to_lower (c : N) : N := if is_upper c then (c + 32)%N else c.

(** The longest prefix satisfying [p], and what follows it. *)
Fixpoint span (p : N -> bool) (s : jsstring) : jsstring * jsstring :=
  match s with
  | c :: s' => if p c then let (a, b) := span p s' in (c :: a, b) else ([], s)
  | [] => ([], [])
  end.

End JsString.
Export JsString.

(* ================================================================== *)
(** ** JavaScript numbers *)

Module JsNumber.

(** A Number is an IEEE-754 binary64 value.  A finite one is the dyadic
    rational [n / 2^k], kept in lowest terms ([k = 0] or [n] odd), so that
    equal values are equal terms.  The two zeros are one value here: the
    program never divides and never calls [Object.is], the only places
    where JavaScript tells them apart. *)
Inductive number : Type :=
| NaN
| Inf (negative : bool)
| Fin (n : Z) (k : N).

Definition of_int (n : Z) : number := Fin n 0.

Fixpoint reduce (p : positive) (k : N) : positive * N :=
  match p, k with
  | xO p', Npos _ => reduce p' (N.pred k)
  | _, _ => (p, k)
  end.

(** [m / 2^k] in lowest terms *)
Definition dyadic (m : Z) (k : N) : number :=
  match m with
  | Z0 => Fin 0 0
  | Zpos p => let (p', k') := reduce p k in Fin (Zpos p') k'
  | Zneg p => let (p', k') := reduce p k in Fin (Zneg p') k'
  end.

(** [m * 2^u] *)
Definition scaled (m u : Z) : number :=
  if 0 <=? u then Fin (m * 2 ^ u) 0 else dyadic m (Z.to_N (- u)).

(** [a / b] rounded to the nearest integer, ties to the even one. *)
Definition rne_div (a b : Z) : Z :=
  let q := a / b in
  match (2 * (a mod b)) ?= b with
  | Lt => q
  | Gt => q + 1
  | Eq => if Z.even q then q else q + 1
  end.

(** floor (log2 (a / b)) for positive [a], [b]: the quotient is taken after
    scaling [a] up until it is at least 1. *)
Definition ilog2 (a b : Z) : Z :=
  let s := Z.max 0 (Z.log2 b + 1 - Z.log2 a) in
  Z.log2 (a * 2 ^ s / b) - s.

(** The binary64 value nearest to the positive rational [a / b]: 53
    significant bits, least exponent -1074, ties to even, overflow to
    infinity. *)
Definition round64 (a b : Z) : number :=
  let e := ilog2 a b in
  let u := Z.max (e - 52) (-1074) in
  let m := rne_div (a * 2 ^ Z.max 0 (- u)) (b * 2 ^ Z.max 0 u) in
  if 2 ^ (1024 - u) <=? m then Inf false else scaled m u.

Definition neg (x : number) : number :=
  match x with
  | NaN => NaN
  | Inf s => Inf (negb s)
  | Fin n k => Fin (- n) k
  end.

(** The Number value of the rational [p / q], [q > 0]. *)
Definition of_Q (p q : Z) : number :=
  match p with
  | Z0 => Fin 0 0
  | Zpos _ => round64 p q
  | Zneg _ => neg (round64 (- p) q)
  end.

(** [x + y] *)
Definition fadd (x y : number) : number :=
  match x, y with
  | NaN, _ | _, NaN => NaN
  | Inf a, Inf b => if Bool.eqb a b then Inf a else NaN
  | Inf a, Fin _ _ => Inf a
  | Fin _ _, Inf b => Inf b
  | Fin n1 k1, Fin n2 k2 =>
      of_Q (n1 * 2 ^ Z.of_N k2 + n2 * 2 ^ Z.of_N k1) (2 ^ Z.of_N (k1 + k2))
  end.

Definition is_neg (x : number) : bool :=
  match x with
  | NaN => false
  | Inf s => s
  | Fin n _ => n <? 0
  end.

(** [x * y] *)
Definition fmul (x y : number) : number :=
  match x, y with
  | NaN, _ | _, NaN => NaN
  | Inf a, Inf b => Inf (xorb a b)
  | Inf a, Fin n _ => if n =? 0 then NaN else Inf (xorb a (n <? 0))
  | Fin n _, Inf b => if n =? 0 then NaN else Inf (xorb (n <? 0) b)
  | Fin n1 k1, Fin n2 k2 => of_Q (n1 * n2) (2 ^ Z.of_N (k1 + k2))
  end.

(** [Number.isInteger] *)
Definition isInteger (x : number) : bool :=
  match x with
  | Fin n k => n mod 2 ^ Z.of_N k =? 0
  | _ => false
  end.

(** [x <= 0] *)
Definition le_zero (x : number) : bool :=
  match x with
  | NaN => false
  | Inf s => s
  | Fin n _ => n <=? 0
  end.

(** A number is falsy when it is zero or NaN. *)
Definition num_truthy (x : number) : bool :=
  match x with
  | NaN => false
  | Inf _ => true
  | Fin n _ => negb (n =? 0)
  end.

(** Lowest terms. *)
Definition canonical (n : Z) (k : N) : bool := (k =? 0)%N || Z.odd n.

(** The terms that stand for a binary64 value: zero is [Fin 0 0]; any
    other finite value is in lowest terms, no finer than [2^-1074], below
    [2^1024], and has at most 53 significant bits. *)
Definition is_double (x : number) : bool :=
  match x with
  | NaN | Inf _ => true
  | Fin n k =>
      if n =? 0 then (k =? 0)%N
      else
        let a := Z.abs n in
        canonical n k && (k <=? 1074)%N && (a <? 2 ^ (1024 + Z.of_N k))
        && (a mod 2 ^ Z.max 0 (Z.log2 a - 52) =? 0)
  end.

(** *** [Number(string)]: StringToNumber of ECMAScript *)

Definition digit_val (c : N) : Z := Z.of_N (c - 48).

Definition digits_value (ds : jsstring) : Z :=
  fold_left (fun acc c => 10 * acc + digit_val c) ds 0.

Definition is_hex (c : N) : bool :=
  (is_digit c || (65 <=? c) && (c <=? 70) || (97 <=? c) && (c <=? 102))%N.

Definition hex_val (c : N) : Z :=
  if is_digit c then Z.of_N (c - 48)
  else if is_upper c then Z.of_N (c - 55) else Z.of_N (c - 87).

Definition is_octal (c : N) : bool := ((48 <=? c) && (c <=? 55))%N.
Definition is_binary (c : N) : bool := ((c =? 48) || (c =? 49))%N.

Definition radix_value (r : Z) (ds : jsstring) : Z :=
  fold_left (fun acc c => r * acc + hex_val c) ds 0.

(** NonDecimalIntegerLiteral: [0x], [0o], [0b] and digits, no sign. *)
Definition parse_non_decimal (t : jsstring) : option Z :=
  match t with
  | 48%N :: x :: (_ :: _) as ds =>
      if ((x =? 120) || (x =? 88))%N then
        if forallb is_hex ds then Some (radix_value 16 ds) else None
      else if ((x =? 111) || (x =? 79))%N then
        if forallb is_octal ds then Some (radix_value 8 ds) else None
      else if ((x =? 98) || (x =? 66))%N then
        if forallb is_binary ds then Some (radix_value 2 ds) else None
      else None
  | _ => None
  end.

(** ExponentPart, which must reach the end of the literal. *)
Definition parse_exponent (r : jsstring) : option Z :=
  match r with
  | [] => Some 0
  | e :: r' =>
      if ((e =? 101) || (e =? 69))%N then
        let '(sgn, r'') :=
          match r' with
          | 43%N :: x => (1, x)
          | 45%N :: x => (-1, x)
          | _ => (1, r')
          end in
        match r'' with
        | [] => None
        | _ => if forallb is_digit r'' then Some (sgn * digits_value r'') else None
        end
      else None
  end.

(** StrUnsignedDecimalLiteral, as the rational [p / q] it denotes. *)
Definition parse_unsigned_decimal (t : jsstring) : option (Z * Z) :=
  let (ip, r1) := span is_digit t in
  let '(fp, r2) :=
    match r1 with
    | 46%N :: r => span is_digit r
    | _ => ([], r1)
    end in
  match ip, fp with
  | [], [] => None
  | _, _ =>
      match parse_exponent r2 with
      | None => None
      | Some ex =>
          let d := digits_value (ip ++ fp) in
          let s := ex - Z.of_nat (List.length fp) in
          Some (d * 10 ^ Z.max 0 s, 10 ^ Z.max 0 (- s))
      end
  end.

Definition str_Infinity : jsstring := js "Infinity".

(** StrDecimalLiteral: an optional sign, then [Infinity] or a decimal. *)
Definition parse_str_decimal (t : jsstring) : option number :=
  let '(negative, u) :=
    match t with
    | 43%N :: x => (false, x)
    | 45%N :: x => (true, x)
    | _ => (false, t)
    end in
  if str_eqb u str_Infinity then Some (Inf negative)
  else
    match parse_unsigned_decimal u with
    | Some (p, q) => Some (if negative then neg (of_Q p q) else of_Q p q)
    | None => None
    end.

(** [Number(s)] for a string [s]. *)
Definition StringToNumber (s : jsstring) : number :=
  match trim s with
  | [] => Fin 0 0
  | t =>
      match parse_non_decimal t with
      | Some n => of_Q n 1
      | None =>
          match parse_str_decimal t with
          | Some v => v
          | None => NaN
          end
      end
  end.

End JsNumber.
Export JsNumber.

(* ================================================================== *)
(** ** What the model takes from the platform as given *)

(** The parts of the browser that the program reaches but whose behaviour
    is fixed by tables or by the engine, not by a short algorithm. *)
Class platform : Type := {
  (** UTS #46 ToASCII as the URL standard calls it, applied to a host that
      is not plain ASCII, or holds a percent sign or a label starting with
      [xn--]; [None] is failure. *)
  idna_to_ascii : jsstring -> option jsstring;
  (** Whether the URL standard's IPv6 parser accepts the text between the
      brackets of a host. *)
  ipv6_parses : jsstring -> bool;
  (** Whether the URL standard's parser accepts what follows the colon of
      a scheme other than [http], [https], [ws], [wss] and [ftp]. *)
  other_scheme_parses : jsstring -> jsstring -> bool;
  (** The message of the SyntaxError that [JSON.parse] throws on a text. *)
  msg_json_syntax : jsstring -> jsstring;
  (** The message of the TypeError thrown on reading a property of
      [null]. *)
  msg_null_property : jsstring -> jsstring;
  (** The message of the TypeError thrown when an object cannot be
      converted to a primitive value. *)
  msg_not_primitive : jsstring
}.

(** A platform to run examples on: it knows no host beyond ASCII and no
    IPv6 address, and accepts every other scheme. *)
Definition sample_platform : platform := {|
  idna_to_ascii := fun _ => None;
  ipv6_parses := fun _ => false;
  other_scheme_parses := fun _ _ => true;
  msg_json_syntax := fun _ => js "Unexpected token in JSON";
  msg_null_property := fun _ => js "Cannot read properties of null";
  msg_not_primitive := js "Cannot convert object to primitive value"
|}.

(* ================================================================== *)
(** ** [new URL(input)] *)

Module Url.

Section WithPlatform.
Context {P : platform}.

Definition is_c0_or_space (c : N) : bool := (c <=? 32)%N.
Definition is_tab_or_newline (c : N) : bool := ((c =? 9) || (c =? 10) || (c =? 13))%N.

Fixpoint strip_leading (s : jsstring) : jsstring :=
  match s with
  | c :: s' => if is_c0_or_space c then strip_leading s' else s
  | [] => []
  end.

(** Leading and trailing C0 controls and spaces are removed, then every
    tab and newline. *)
Definition preprocess (input : jsstring) : jsstring :=
  filter (fun c => negb (is_tab_or_newline c))
         (rev (strip_leading (rev (strip_leading input)))).

Definition is_scheme_char (c : N) : bool :=
  (is_alpha c || is_digit c || (c =? 43) || (c =? 45) || (c =? 46))%N.

(** Scheme start state and scheme state: a letter, then letters, digits,
    [+], [-], [.], then a colon.  Without a base URL anything else is a
    failure.  The result is the lower-cased scheme and what follows the
    colon. *)
Definition parse_scheme (s : jsstring) : option (jsstring * jsstring) :=
  match s with
  | c :: _ =>
      if is_alpha c then
        let (sch, rest) := span is_scheme_char s in
        match rest with
        | 58%N :: r => Some (List.map to_lower sch, r)
        | _ => None
        end
      else None
  | [] => None
  end.

Definition is_special_not_file (sch : jsstring) : bool :=
  str_eqb sch (js "http") || str_eqb sch (js "https") || str_eqb sch (js "ws")
  || str_eqb sch (js "wss") || str_eqb sch (js "ftp").

Definition is_slash (c : N) : bool := ((c =? 47) || (c =? 92))%N.

Fixpoint skip_slashes (s : jsstring) : jsstring :=
  match s with
  | c :: s' => if is_slash c then skip_slashes s' else s
  | [] => []
  end.

(** What ends the authority of a special URL: [/], [\], [?], [#]. *)
Definition ends_authority (c : N) : bool :=
  (is_slash c || (c =? 63) || (c =? 35))%N.

(** The text after the last [@] of the authority, when there is one. *)
Fixpoint after_last_at (s : jsstring) : option jsstring :=
  match s with
  | [] => None
  | c :: s' =>
      match after_last_at s' with
      | Some r => Some r
      | None => if (c =? 64)%N then Some s' else None
      end
  end.

(** Host state: the host runs to the first colon outside brackets; what
    follows that colon is the port. *)
Fixpoint split_host (inside : bool) (s : jsstring) : jsstring * option jsstring :=
  match s with
  | [] => ([], None)
  | c :: r =>
      if (c =? 58)%N && negb inside then ([], Some r)
      else
        let inside' :=
          if (c =? 91)%N then true else if (c =? 93)%N then false else inside in
        let (h, p) := split_host inside' r in (c :: h, p)
  end.

(** Strict splitting on a code unit. *)
Fixpoint split_on (d : N) (s : jsstring) : list jsstring :=
  match s with
  | [] => [[]]
  | c :: s' =>
      if (c =? d)%N then [] :: split_on d s'
      else
        match split_on d s' with
        | x :: l => (c :: x) :: l
        | [] => [[c]]
        end
  end.

(** The IPv4 number parser; [None] is failure. *)
Definition ipv4_number (s : jsstring) : option Z :=
  match s with
  | [] => None
  | _ =>
      let '(r, ds) :=
        match s with
        | 48%N :: x :: rest =>
            if ((x =? 120) || (x =? 88))%N then (16, rest) else (8, x :: rest)
        | _ => (10, s)
        end in
      let ok :=
        if r =? 16 then forallb is_hex ds
        else if r =? 8 then forallb is_octal ds
        else forallb is_digit ds in
      if ok then Some (radix_value r ds) else None
  end.

(** The parts of a host, without the empty last part that a trailing dot
    leaves. *)
Definition host_parts (d : jsstring) : list jsstring :=
  let parts := split_on 46 d in
  match rev parts with
  | [] :: (_ :: _) as others => rev others
  | _ => parts
  end.

(** The ends-in-a-number checker. *)
Definition ends_in_number (d : jsstring) : bool :=
  match rev (split_on 46 d) with
  | [[]] => false
  | rparts =>
      let rparts' := match rparts with [] :: others => others | _ => rparts end in
      match rparts' with
      | [] => false
      | last :: _ =>
          nonempty last && forallb is_digit last
          || match ipv4_number last with Some _ => true | None => false end
      end
  end.

Fixpoint all_but_last_le_255 (l : list Z) : bool :=
  match l with
  | [] | [_] => true
  | x :: l' => (x <=? 255) && all_but_last_le_255 l'
  end.

Fixpoint sequence {A : Type} (l : list (option A)) : option (list A) :=
  match l with
  | [] => Some []
  | None :: _ => None
  | Some x :: l' =>
      match sequence l' with
      | Some r => Some (x :: r)
      | None => None
      end
  end.

(** Whether the IPv4 parser accepts. *)
Definition ipv4_parses (d : jsstring) : bool :=
  let parts := host_parts d in
  if (4 <? List.length parts)%nat then false
  else
    match sequence (List.map ipv4_number parts) with
    | None => false
    | Some numbers =>
        all_but_last_le_255 numbers
        && (last numbers 0 <? 256 ^ (5 - Z.of_nat (List.length numbers)))
    end.

Definition forbidden_host_cp (c : N) : bool :=
  ((c =? 0) || (c =? 9) || (c =? 10) || (c =? 13) || (c =? 32) || (c =? 35)
   || (c =? 47) || (c =? 58) || (c =? 60) || (c =? 62) || (c =? 63)
   || (c =? 64) || (c =? 91) || (c =? 92) || (c =? 93) || (c =? 94)
   || (c =? 124))%N.

Definition forbidden_domain_cp (c : N) : bool :=
  (forbidden_host_cp c || (c <=? 31) || (c =? 37) || (c =? 127))%N.

Definition starts_with_xn (label : jsstring) : bool :=
  match label with
  | a :: b :: 45%N :: 45%N :: _ =>
      ((to_lower a =? 120) && (to_lower b =? 110))%N
  | _ => false
  end.

(** Percent-decoding, UTF-8 decoding and domain-to-ASCII of a host.  On an
    ASCII host with no percent sign and no [xn--] label this is ASCII
    lower-casing, as the URL standard notes; the rest is the platform's. *)
Definition domain_to_ascii (h : jsstring) : option jsstring :=
  if forallb (fun c => (c <? 128)%N && negb (c =? 37)%N) h
     && negb (existsb starts_with_xn (split_on 46 h))
  then Some (List.map to_lower h)
  else idna_to_ascii h.

(** The host parser for a special scheme accepts. *)
Definition host_parses (h : jsstring) : bool :=
  match h with
  | 91%N :: r =>
      match rev r with
      | 93%N :: inner => ipv6_parses (rev inner)
      | _ => false
      end
  | _ =>
      match domain_to_ascii h with
      | None => false
      | Some d =>
          nonempty d && negb (existsb forbidden_domain_cp d)
          && (if ends_in_number d then ipv4_parses d else true)
      end
  end.

(** Port state: digits to the end of the authority, at most 65535. *)
Definition port_parses (p : jsstring) : bool :=
  forallb is_digit p && (digits_value p <=? 65535).

(** From the special authority slashes state on: slashes and backslashes
    are skipped, credentials run to the last [@], host and port must
    parse.  Path, query and fragment never fail. *)
Definition special_authority_parses (rest : jsstring) : bool :=
  let (authority, _) := span (fun c => negb (ends_authority c)) (skip_slashes rest) in
  let hostport :=
    match after_last_at authority with
    | Some r => r
    | None => authority
    end in
  let (h, port) := split_host false hostport in
  nonempty h && host_parses h
  && match port with
     | Some p => port_parses p
     | None => true
     end.

(** What the program reads of a URL object. *)
Record URL : Type := { scheme : jsstring }.

(** The [protocol] getter: the scheme followed by a colon. *)
Definition protocol (u : URL) : jsstring := scheme u ++ [58%N].

(** [new URL(input)]; [None] stands for the TypeError it throws. *)
Definition new_URL (input : jsstring) : option URL :=
  match parse_scheme (preprocess input) with
  | None => None
  | Some (sch, rest) =>
      if (if is_special_not_file sch then special_authority_parses rest
          else other_scheme_parses sch rest)
      then Some {| scheme := sch |}
      else None
  end.

End WithPlatform.

End Url.
Export Url.

(* ================================================================== *)
(** ** The validator *)

Module Validator.

Section WithPlatform.
Context {P : platform}.

(** [isValidHttpUrl]: the [catch] turns a failed parse into [false]. *)
Definition isValidHttpUrl (value : jsstring) : bool :=
  match new_URL value with
  | Some u => str_eqb (protocol u) (js "http:") || str_eqb (protocol u) (js "https:")
  | None => false
  end.

End WithPlatform.

(** [parseValidityOrDefault]; [None] is the [null] it returns. *)
Definition parseValidityOrDefault (value : jsstring) : option number :=
  if negb (nonempty value) || str_eqb (trim value) [] then Some (of_int 30)
  else
    let parsed := StringToNumber (trim value) in
    if negb (isInteger parsed) || le_zero parsed then None
    else Some parsed.

(** The validity field as the specification words it: a base-10 integer
    literal, an optional sign and digits. *)
Definition base10_integer (t : jsstring) : option Z :=
  let '(negative, ds) :=
    match t with
    | 45%N :: x => (true, x)
    | 43%N :: x => (false, x)
    | _ => (false, t)
    end in
  match ds with
  | [] => None
  | _ =>
      if forallb is_digit ds
      then Some (if negative then - digits_value ds else digits_value ds)
      else None
  end.

(** [resolveValidity] as the specification words it. *)
Definition spec_resolveValidity (raw : jsstring) : option number :=
  if str_eqb (trim raw) [] then Some (of_int 30)
  else
    match base10_integer (trim raw) with
    | Some n => if 0 <? n then Some (of_int n) else None
    | None => None
    end.

End Validator.
Export Validator.

(* ================================================================== *)
(** ** JavaScript values and [JSON] *)

Module Json.

(** The values the program handles: what [JSON.parse] builds, and
    [undefined] for a property that is not there.  An object is the list
    of its own properties, each key once. *)
#[warnings="-register-all"]
Inductive jsval : Type :=
| VUndefined
| VNull
| VBool (b : bool)
| VNum (n : number)
| VStr (s : jsstring)
| VArr (items : list jsval)
| VObj (props : list (jsstring * jsval)).

(** ToBoolean *)
Definition truthy (v : jsval) : bool :=
  match v with
  | VUndefined | VNull => false
  | VBool b => b
  | VNum n => num_truthy n
  | VStr s => nonempty s
  | VArr _ | VObj _ => true
  end.

(** [a || b] *)
Definition js_or (a b : jsval) : jsval := if truthy a then a else b.

Fixpoint lookup (key : jsstring) (props : list (jsstring * jsval)) : option jsval :=
  match props with
  | [] => None
  | (k, v) :: props' => if str_eqb k key then Some v else lookup key props'
  end.

(** [v.key] for a key that no built-in prototype defines, which holds of
    the five keys the program reads: the own property of an object,
    [undefined] on any other value but [null] and [undefined], where the
    read throws ([None]). *)
Definition get_prop (v : jsval) (key : jsstring) : option jsval :=
  match v with
  | VUndefined | VNull => None
  | VObj props =>
      match lookup key props with
      | Some x => Some x
      | None => Some VUndefined
      end
  | _ => Some VUndefined
  end.

(** *** [JSON.parse] *)

Definition is_json_ws (c : N) : bool :=
  ((c =? 9) || (c =? 10) || (c =? 13) || (c =? 32))%N.

Fixpoint skip_ws (s : jsstring) : jsstring :=
  match s with
  | c :: s' => if is_json_ws c then skip_ws s' else s
  | [] => []
  end.

Definition hex4 (a b c d : N) : N :=
  Z.to_N (((hex_val a * 16 + hex_val b) * 16 + hex_val c) * 16 + hex_val d).

(** The character an escape letter stands for. *)
Definition unescape (e : N) : option N :=
  match e with
  | 34%N => Some 34%N
  | 92%N => Some 92%N
  | 47%N => Some 47%N
  | 98%N => Some 8%N
  | 102%N => Some 12%N
  | 110%N => Some 10%N
  | 114%N => Some 13%N
  | 116%N => Some 9%N
  | _ => None
  end.

Definition cons_fst {A : Type} (c : N) (r : option (jsstring * A)) : option (jsstring * A) :=
  match r with
  | Some (s, x) => Some (c :: s, x)
  | None => None
  end.

(** The characters of a string literal after its opening quote, up to
    the closing one.  A backslash starts an escape; a control character
    may not stand for itself. *)
Fixpoint parse_string_chars (s : jsstring) : option (jsstring * jsstring) :=
  match s with
  | [] => None
  | c :: r =>
      if (c =? 34)%N then Some ([], r)
      else if (c =? 92)%N then
        match r with
        | [] => None
        | e :: r1 =>
            if (e =? 117)%N then
              match r1 with
              | a :: b :: c' :: d :: r2 =>
                  if is_hex a && is_hex b && is_hex c' && is_hex d
                  then cons_fst (hex4 a b c' d) (parse_string_chars r2)
                  else None
              | _ => None
              end
            else
              match unescape e with
              | Some x => cons_fst x (parse_string_chars r1)
              | None => None
              end
        end
      else if (c <? 32)%N then None
      else cons_fst c (parse_string_chars r)
  end.

(** The Number value of [s * 10^e]. *)
Definition decimal_value (s e : Z) : number :=
  of_Q (s * 10 ^ Z.max 0 e) (10 ^ Z.max 0 (- e)).

(** The fraction of a JSON number: nothing, or a point and at least one
    digit. *)
Definition parse_json_fraction (s : jsstring) : option (jsstring * jsstring) :=
  match s with
  | [] => Some ([], s)
  | c :: x =>
      if (c =? 46)%N then
        let (fp, r) := span is_digit x in
        match fp with
        | [] => None
        | _ => Some (fp, r)
        end
      else Some ([], s)
  end.

(** The exponent of a JSON number: nothing, or [e] or [E], an optional
    sign and at least one digit. *)
Definition parse_json_exponent (s : jsstring) : option (Z * jsstring) :=
  match s with
  | [] => Some (0, s)
  | e :: x =>
      if ((e =? 101) || (e =? 69))%N then
        let '(sgn, y) :=
          match x with
          | [] => (1, x)
          | c :: y =>
              if (c =? 43)%N then (1, y)
              else if (c =? 45)%N then (-1, y)
              else (1, x)
          end in
        let (ed, r) := span is_digit y in
        match ed with
        | [] => None
        | _ => Some (sgn * digits_value ed, r)
        end
      else Some (0, s)
  end.

(** A JSON number without its sign: an integer part, which is a single
    zero or starts with a non-zero digit, then fraction and exponent.  It
    is read as the nearest binary64 value. *)
Definition parse_json_unsigned (s : jsstring) : option (number * jsstring) :=
  let (ip, s2) := span is_digit s in
  match ip with
  | [] => None
  | c :: ip' =>
      if (c =? 48)%N && nonempty ip' then None
      else
        match parse_json_fraction s2 with
        | None => None
        | Some (fp, s3) =>
            match parse_json_exponent s3 with
            | None => None
            | Some (ex, s4) =>
                Some (decimal_value (digits_value (ip ++ fp))
                        (ex - Z.of_nat (List.length fp)), s4)
            end
        end
  end.

(** A JSON number: an optional minus sign and the rest. *)
Definition parse_json_number (s : jsstring) : option (number * jsstring) :=
  match s with
  | [] => None
  | c :: x =>
      if (c =? 45)%N then
        match parse_json_unsigned x with
        | Some (v, r) => Some (neg v, r)
        | None => None
        end
      else parse_json_unsigned s
  end.

(** Defining a property: an existing key keeps its place and takes the
    new value, a new key goes last. *)
Fixpoint obj_set (props : list (jsstring * jsval)) (key : jsstring) (v : jsval)
  : list (jsstring * jsval) :=
  match props with
  | [] => [(key, v)]
  | (k, x) :: props' =>
      if str_eqb k key then (k, v) :: props' else (k, x) :: obj_set props' key v
  end.

(** The rest of a text that starts with the given word. *)
Fixpoint after_word (word s : jsstring) : option jsstring :=
  match word, s with
  | [], _ => Some s
  | c :: word', d :: s' => if (c =? d)%N then after_word word' s' else None
  | _ :: _, [] => None
  end.

Definition literal (word : string) (v : jsval) (s : jsstring) : option (jsval * jsstring) :=
  match after_word (js word) s with
  | Some r => Some (v, r)
  | None => None
  end.

(** Recursive descent; every call uses one unit of fuel.  The first
    character after white space decides what is read. *)
Fixpoint parse_value (fuel : nat) (s : jsstring) : option (jsval * jsstring) :=
  match fuel with
  | O => None
  | S f =>
      match skip_ws s with
      | [] => None
      | c :: r =>
          if (c =? 34)%N then
            match parse_string_chars r with
            | Some (str, r') => Some (VStr str, r')
            | None => None
            end
          else if (c =? 91)%N then
            match skip_ws r with
            | [] => None
            | c' :: r' =>
                if (c' =? 93)%N then Some (VArr [], r')
                else
                  match parse_elements f r with
                  | Some (l, r'') => Some (VArr l, r'')
                  | None => None
                  end
            end
          else if (c =? 123)%N then
            match skip_ws r with
            | [] => None
            | c' :: r' =>
                if (c' =? 125)%N then Some (VObj [], r')
                else
                  match parse_members f [] r with
                  | Some (props, r'') => Some (VObj props, r'')
                  | None => None
                  end
            end
          else if (c =? 110)%N then literal "null" VNull (c :: r)
          else if (c =? 116)%N then literal "true" (VBool true) (c :: r)
          else if (c =? 102)%N then literal "false" (VBool false) (c :: r)
          else
            match parse_json_number (c :: r) with
            | Some (n, r') => Some (VNum n, r')
            | None => None
            end
      end
  end

with parse_elements (fuel : nat) (s : jsstring) : option (list jsval * jsstring) :=
  match fuel with
  | O => None
  | S f =>
      match parse_value f s with
      | None => None
      | Some (v, r) =>
          match skip_ws r with
          | [] => None
          | c :: r' =>
              if (c =? 93)%N then Some ([v], r')
              else if (c =? 44)%N then
                match parse_elements f r' with
                | Some (l, r'') => Some (v :: l, r'')
                | None => None
                end
              else None
          end
      end
  end

with parse_members (fuel : nat) (acc : list (jsstring * jsval)) (s : jsstring)
  : option (list (jsstring * jsval) * jsstring) :=
  match fuel with
  | O => None
  | S f =>
      match skip_ws s with
      | [] => None
      | q :: r =>
          if (q =? 34)%N then
            match parse_string_chars r with
            | None => None
            | Some (key, r1) =>
                match skip_ws r1 with
                | [] => None
                | colon :: r2 =>
                    if (colon =? 58)%N then
                      match parse_value f r2 with
                      | None => None
                      | Some (v, r3) =>
                          let acc' := obj_set acc key v in
                          match skip_ws r3 with
                          | [] => None
                          | c :: r4 =>
                              if (c =? 125)%N then Some (acc', r4)
                              else if (c =? 44)%N then parse_members f acc' r4
                              else None
                          end
                      end
                    else None
                end
            end
          else None
      end
  end.

(** [JSON.parse(text)]; [None] stands for the SyntaxError it throws.  No
    call needs more fuel than the text has characters. *)
Definition JSON_parse (text : jsstring) : option jsval :=
  match parse_value (S (List.length text)) text with
  | Some (v, r) =>
      match skip_ws r with
      | [] => Some v
      | _ => None
      end
  | None => None
  end.

(** *** [JSON.stringify] *)

Definition number_eqb (x y : number) : bool :=
  match x, y with
  | NaN, NaN => true
  | Inf a, Inf b => Bool.eqb a b
  | Fin n k, Fin m j => (n =? m) && (k =? j)%N
  | _, _ => false
  end.

Definition digit_char (d : Z) : N := Z.to_N (48 + d).

Fixpoint digits_fuel (fuel : nat) (z : Z) (acc : jsstring) : jsstring :=
  match fuel with
  | O => acc
  | S f =>
      if z <? 10 then digit_char z :: acc
      else digits_fuel f (z / 10) (digit_char (z mod 10) :: acc)
  end.

(** The decimal digits of a natural number. *)
Definition to_digits (z : Z) : jsstring :=
  digits_fuel (S (Z.to_nat (Z.log2 z))) z [].

Fixpoint strip_zeros_rev (r : jsstring) : jsstring :=
  match r with
  | 48%N :: r' => strip_zeros_rev r'
  | _ => r
  end.

(** The digits without their trailing zeros. *)
Definition strip_trailing_zeros (ds : jsstring) : jsstring :=
  rev (strip_zeros_rev (rev ds)).

(** The least [j >= i] with [q <= p * 10^(j - i + 1)], for [0 < p < q]. *)
Fixpoint scale_up (fuel : nat) (p q j : Z) : Z :=
  match fuel with
  | O => j
  | S f => if q <=? p * 10 then j else scale_up f (p * 10) q (j + 1)
  end.

(** The [n] with [10^(n-1) <= p / q < 10^n], for positive [p], [q]. *)
Definition decimal_exponent (p q : Z) : Z :=
  if q <=? p then Z.of_nat (List.length (to_digits (p / q)))
  else 1 - scale_up (S (Z.to_nat (Z.log2 q))) p q 1.

(** The digits of [s], with the decimal point after the [n]-th of them,
    read back as [x]. *)
Definition reads_back (x : number) (s n : Z) : bool :=
  (0 <? s)
  && number_eqb (decimal_value s (n - Z.of_nat (List.length (to_digits s)))) x.

(** Among the integers [s] of [kk] digits for which [s * 10^(n - kk)]
    reads back as [x = p / q], the one nearest to [x]; an even one on a
    tie.  Rounding up to [10^kk] gives the single digit 1, one place
    higher. *)
Definition candidate (x : number) (p q n kk : Z) : option (Z * Z) :=
  let e := n - kk in
  let num := p * 10 ^ Z.max 0 (- e) in
  let den := q * 10 ^ Z.max 0 e in
  let lo := num / den in
  let r := num mod den in
  let hi := if lo + 1 =? 10 ^ kk then (1, n + 1) else (lo + 1, n) in
  let ok_lo := (10 ^ (kk - 1) <=? lo) && (lo <? 10 ^ kk) && reads_back x lo n in
  let ok_hi := negb (r =? 0) && (lo <? 10 ^ kk) && reads_back x (fst hi) (snd hi) in
  match ok_lo, ok_hi with
  | true, true =>
      match 2 * r ?= den with
      | Lt => Some (lo, n)
      | Gt => Some hi
      | Eq => if Z.even lo then Some (lo, n) else Some hi
      end
  | true, false => Some (lo, n)
  | false, true => Some hi
  | false, false => None
  end.

(** The shortest digits that read back as [x], tried from one digit up;
    past seventeen, the digits of the exact decimal expansion. *)
Fixpoint shortest (fuel : nat) (x : number) (p q n kk : Z) (k : N) : Z * Z :=
  match fuel with
  | O =>
      let s := p * 5 ^ Z.of_N k in
      (s, Z.of_nat (List.length (to_digits s)) - Z.of_N k)
  | S f =>
      match candidate x p q n kk with
      | Some c => c
      | None => shortest f x p q n (kk + 1) k
      end
  end.

Definition zeros (n : Z) : jsstring := repeat 48%N (Z.to_nat n).

(** Number::toString of a positive finite number, from its digits [ds]
    and the position [n] of the decimal point. *)
Definition format_decimal (ds : jsstring) (n : Z) : jsstring :=
  let k := Z.of_nat (List.length ds) in
  if (k <=? n) && (n <=? 21) then ds ++ zeros (n - k)
  else if (0 <? n) && (n <=? 21) then
    firstn (Z.to_nat n) ds ++ 46%N :: skipn (Z.to_nat n) ds
  else if (-6 <? n) && (n <=? 0) then
    48%N :: 46%N :: zeros (- n) ++ ds
  else
    let e := n - 1 in
    let sign := if e <? 0 then 45%N else 43%N in
    let mant :=
      match ds with
      | d :: (_ :: _) as r => d :: 46%N :: r
      | _ => ds
      end in
    mant ++ 101%N :: sign :: to_digits (Z.abs e).

(** Number::toString of the positive finite number [a / 2^k]. *)
Definition positive_to_string (a : Z) (k : N) : jsstring :=
  let q := 2 ^ Z.of_N k in
  let '(s, e) := shortest 17 (Fin a k) a q (decimal_exponent a q) 1 k in
  format_decimal (strip_trailing_zeros (to_digits s)) e.

(** Number::toString, radix 10. *)
Definition number_to_string (x : number) : jsstring :=
  match x with
  | NaN => js "NaN"
  | Inf s => if s then js "-Infinity" else js "Infinity"
  | Fin n k =>
      if n =? 0 then js "0"
      else if n <? 0 then 45%N :: positive_to_string (- n) k
      else positive_to_string n k
  end.

Definition hex_char (d : N) : N := if (d <? 10)%N then (48 + d)%N else (87 + d)%N.

(** [\uXXXX] with lower-case digits *)
Definition escape_u (c : N) : jsstring :=
  [92; 117; hex_char (c / 4096 mod 16); hex_char (c / 256 mod 16);
   hex_char (c / 16 mod 16); hex_char (c mod 16)]%N.

Definition is_high_surrogate (c : N) : bool := ((55296 <=? c) && (c <=? 56319))%N.
Definition is_low_surrogate (c : N) : bool := ((56320 <=? c) && (c <=? 57343))%N.

(** A code unit that is not a surrogate, as QuoteJSONString writes it. *)
Definition quote_unit (c : N) : jsstring :=
  if (c =? 8)%N then [92; 98]%N
  else if (c =? 9)%N then [92; 116]%N
  else if (c =? 10)%N then [92; 110]%N
  else if (c =? 12)%N then [92; 102]%N
  else if (c =? 13)%N then [92; 114]%N
  else if (c =? 34)%N then [92; 34]%N
  else if (c =? 92)%N then [92; 92]%N
  else if (c <? 32)%N then escape_u c
  else [c].

(** A surrogate pair is written as it is, a lone surrogate escaped. *)
Fixpoint quote_units (s : jsstring) : jsstring :=
  match s with
  | [] => []
  | c :: r =>
      if is_high_surrogate c then
        match r with
        | d :: r' =>
            if is_low_surrogate d then c :: d :: quote_units r'
            else escape_u c ++ quote_units r
        | [] => escape_u c
        end
      else if is_low_surrogate c then escape_u c ++ quote_units r
      else quote_unit c ++ quote_units r
  end.

(** QuoteJSONString *)
Definition quote (s : jsstring) : jsstring := 34%N :: quote_units s ++ [34%N].

Fixpoint join (sep : N) (l : list jsstring) : jsstring :=
  match l with
  | [] => []
  | [x] => x
  | x :: l' => x ++ sep :: join sep l'
  end.

(** ToString of a value of the program, as [Array.prototype.join] and
    the conversions to a primitive value reach it; [None] is the
    TypeError they throw.  What [JSON.parse] builds has no callable
    property: an object with an own [toString] has no usable method left
    ([valueOf] gives back the object), any other object reads
    ["[object Object]"]; an array is its elements joined by commas,
    [null] and [undefined] reading as the empty string. *)
Fixpoint ToString (v : jsval) : option jsstring :=
  match v with
  | VUndefined => Some (js "undefined")
  | VNull => Some (js "null")
  | VBool b => Some (if b then js "true" else js "false")
  | VNum n => Some (number_to_string n)
  | VStr s => Some s
  | VArr items =>
      option_map (join 44)
        (sequence (List.map (fun x =>
                     match x with
                     | VUndefined | VNull => Some []
                     | _ => ToString x
                     end) items))
  | VObj props =>
      match lookup (js "toString") props with
      | Some _ => None
      | None => Some (js "[object Object]")
      end
  end.

(** ToPrimitive: an object or an array is converted through
    [valueOf], which gives back the object, and then [toString]. *)
Definition ToPrimitive (v : jsval) : option jsval :=
  match v with
  | VArr _ | VObj _ => option_map VStr (ToString v)
  | _ => Some v
  end.

(** [Number(v)]; [None] is the TypeError of the conversion to a
    primitive value. *)
Definition ToNumber (v : jsval) : option number :=
  match ToPrimitive v with
  | Some VUndefined => Some NaN
  | Some VNull => Some (Fin 0 0)
  | Some (VBool b) => Some (if b then Fin 1 0 else Fin 0 0)
  | Some (VNum n) => Some n
  | Some (VStr s) => Some (StringToNumber s)
  | _ => None
  end.

Fixpoint omit_none {A : Type} (l : list (option A)) : list A :=
  match l with
  | [] => []
  | Some x :: l' => x :: omit_none l'
  | None :: l' => omit_none l'
  end.

Definition or_null (t : option jsstring) : jsstring :=
  match t with
  | Some x => x
  | None => js "null"
  end.

(** [JSON.stringify(v)] without indentation; [None] is the [undefined]
    it returns for [undefined].  NaN and the infinities are written
    [null]; in an array [undefined] is written [null]; a property whose
    value is [undefined] is left out. *)
Fixpoint JSON_stringify (v : jsval) : option jsstring :=
  match v with
  | VUndefined => None
  | VNull => Some (js "null")
  | VBool b => Some (if b then js "true" else js "false")
  | VNum n =>
      Some (match n with
            | Fin _ _ => number_to_string n
            | _ => js "null"
            end)
  | VStr s => Some (quote s)
  | VArr items =>
      Some (91%N :: join 44 (List.map (fun x => or_null (JSON_stringify x)) items)
              ++ [93%N])
  | VObj props =>
      Some (123%N ::
            join 44 (omit_none (List.map (fun kv =>
              match JSON_stringify (snd kv) with
              | Some t => Some (quote (fst kv) ++ 58%N :: t)
              | None => None
              end) props))
            ++ [125%N])
  end.


(** *** Vocabulary for the round trip *)

Fixpoint unique_keys (keys : list jsstring) : bool :=
  match keys with
  | [] => true
  | k :: keys' => negb (existsb (str_eqb k) keys') && unique_keys keys'
  end.

(** The values the program can hold in its history: no [undefined]
    inside, every number a binary64 value, every object with each key
    once. *)
Fixpoint wf (v : jsval) : bool :=
  match v with
  | VUndefined => false
  | VNull | VBool _ | VStr _ => true
  | VNum n => is_double n
  | VArr items => forallb wf items
  | VObj props =>
      unique_keys (List.map fst props) && forallb (fun kv => wf (snd kv)) props
  end.

(** What [JSON.parse] makes of the text that [JSON.stringify] writes for
    a value: NaN and the infinities have become [null]. *)
Fixpoint revive (v : jsval) : jsval :=
  match v with
  | VNum (Fin n k) => VNum (Fin n k)
  | VNum _ => VNull
  | VArr items => VArr (List.map revive items)
  | VObj props => VObj (List.map (fun kv => (fst kv, revive (snd kv))) props)
  | _ => v
  end.

(** Every number in the value is finite. *)
Fixpoint finite_numbers (v : jsval) : bool :=
  match v with
  | VNum (Fin _ _) => true
  | VNum _ => false
  | VArr items => forallb finite_numbers items
  | VObj props => forallb (fun kv => finite_numbers (snd kv)) props
  | _ => true
  end.

(** The JSON text of a value. *)
Definition text_of (v : jsval) : jsstring := or_null (JSON_stringify v).

(** The JSON text of a property. *)
Definition member_text (kv : jsstring * jsval) : jsstring :=
  quote (fst kv) ++ 58%N :: text_of (snd kv).


(** What makes a list of characters the decimal numeral of [z]. *)
Definition numeral (z : Z) (ds : jsstring) : Prop :=
  digits_value ds = z /\ forallb is_digit ds = true /\ ds <> [] /\
  (0 < z -> hd 48%N ds <> 48%N).

(** What may follow a value inside a JSON text written by
    [JSON_stringify]: nothing, a comma, or a closing bracket or brace. *)
Definition terminated (rest : jsstring) : Prop :=
  match rest with
  | [] => True
  | c :: _ => c = 44%N \/ c = 93%N \/ c = 125%N
  end.

(** The text of an exponent. *)
Definition exponent_text (ex : option (N * jsstring)) : jsstring :=
  match ex with
  | Some (sg, ed) => 101%N :: sg :: ed
  | None => []
  end.

Definition exponent_of (ex : option (N * jsstring)) : Z :=
  match ex with
  | Some (sg, ed) => (if (sg =? 45)%N then -1 else 1) * digits_value ed
  | None => 0
  end.

Definition exponent_ok (ex : option (N * jsstring)) : Prop :=
  match ex with
  | Some (sg, ed) => (sg = 43%N \/ sg = 45%N) /\ ed <> [] /\ forallb is_digit ed = true
  | None => True
  end.

Definition fraction_text (fp : jsstring) : jsstring :=
  match fp with
  | [] => []
  | _ => 46%N :: fp
  end.

(** A text starts with a character that opens a value. *)
Definition opens_value (t : jsstring) : Prop :=
  exists c r, t = c :: r /\ is_json_ws c = false /\ c <> 93%N /\ c <> 125%N.

(** The round trip of one value, given that of its parts. *)
Definition reads (v : jsval) : Prop :=
  wf v = true ->
  forall (fuel : nat) (rest : jsstring),
    (List.length (text_of v) <= fuel)%nat -> terminated rest ->
    parse_value fuel (text_of v ++ rest) = Some (revive v, rest).

(** No key of [later] is among [earlier]. *)
Definition fresh_keys (earlier later : list jsstring) : Prop :=
  forall k, In k later -> existsb (str_eqb k) earlier = false.

(** The properties of an object are well formed. *)
Definition wf_props (props : list (jsstring * jsval)) : bool :=
  unique_keys (List.map fst props) && forallb (fun kv => wf (snd kv)) props.

End Json.
Export Json.

(* ================================================================== *)
(** ** [localStorage] and the history store *)

Module HistoryStore.

(** What a call that may throw gives: a value, or an Error with its
    message. *)
Inductive result (A : Type) : Type :=
| Ok (a : A)
| Throw (message : jsstring).
Arguments Ok {A} a.
Arguments Throw {A} message.

Definition bind {A B : Type} (r : result A) (k : A -> result B) : result B :=
  match r with
  | Ok a => k a
  | Throw m => Throw m
  end.

(** The storage area as the program sees it: the item under the key
    [url_history], and whether reading or writing throws (storage denied,
    quota exceeded). *)
Record storage : Type := {
  url_history : option jsstring;
  read_fault : option jsstring;
  write_fault : option jsstring
}.

(** [localStorage.getItem('url_history')]: the item, or [null]. *)
Definition getItem (st : storage) : result (option jsstring) :=
  match read_fault st with
  | Some m => Throw m
  | None => Ok (url_history st)
  end.

(** [localStorage.setItem('url_history', text)] *)
Definition setItem (st : storage) (text : jsstring) : result storage :=
  match write_fault st with
  | Some m => Throw m
  | None =>
      Ok {| url_history := Some text;
            read_fault := read_fault st;
            write_fault := write_fault st |}
  end.

(** The initialiser of the [history] state:
    [stored ? JSON.parse(stored) : []], and [[]] when anything throws. *)
Definition load (st : storage) : jsval :=
  match getItem st with
  | Throw _ => VArr []
  | Ok None => VArr []
  | Ok (Some stored) =>
      if nonempty stored then
        match JSON_parse stored with
        | Some v => v
        | None => VArr []
        end
      else VArr []
  end.

(** The text handed to [setItem]: [undefined] is converted to a
    string. *)
Definition blob_of (history : jsval) : jsstring :=
  match JSON_stringify history with
  | Some t => t
  | None => js "undefined"
  end.

(** The effect that runs when [history] has changed: the collection is
    written, a storage error is ignored. *)
Definition persist (st : storage) (history : jsval) : storage :=
  match setItem st (blob_of history) with
  | Ok st' => st'
  | Throw _ => st
  end.

(** The strings a string iterates over: its code points. *)
Fixpoint code_points (s : jsstring) : list jsstring :=
  match s with
  | [] => []
  | c :: r =>
      match r with
      | d :: r' =>
          if is_high_surrogate c && is_low_surrogate d then [c; d] :: code_points r'
          else [c] :: code_points r
      | [] => [[c]]
      end
  end.

(** [...prev] inside an array literal: the elements of an array, the code
    points of a string, and a TypeError ([None]) on a value that is not
    iterable. *)
Definition spread (prev : jsval) : option (list jsval) :=
  match prev with
  | VArr items => Some items
  | VStr s => Some (List.map VStr (code_points s))
  | _ => None
  end.

(** The updater of line 101: [[entry, ...prev].slice(0, 20)]. *)
Definition record (entry prev : jsval) : option jsval :=
  match spread prev with
  | Some items => Some (VArr (firstn 20 (entry :: items)))
  | None => None
  end.

(** [handleClearHistory] *)
Definition clear : jsval := VArr [].

End HistoryStore.
Export HistoryStore.

(* ================================================================== *)
(** ** The component: state and [handleSubmit] *)

Module App.

Notation "x <- e ;; k" := (bind e (fun x => k))
  (at level 61, e at next level, right associativity).

(** The request handed to [fetch]. *)
Record request : Type := {
  req_url : jsstring;
  req_method : jsstring;
  req_content_type : jsstring;
  req_body : jsstring
}.

(** A response: its [ok] flag (a 2xx status) and what reading its body
    gives. *)
Record response : Type := {
  ok : bool;
  body : result jsstring
}.

(** What surrounds one submission: the network, which answers a request
    or fails, and the clock, read once for the expiry and once for
    [createdAt]. *)
Record world : Type := {
  fetch : request -> result response;
  now_expiry : Z;
  now_created : Z
}.

(** The state variables of the component. *)
Record state : Type := {
  longUrl : jsstring;
  alias : jsstring;
  validityMinutes : jsstring;
  isLoading : bool;
  errorMessage : jsstring;
  shortUrl : jsval;
  expiresAt : jsval;
  history : jsval
}.

Definition msg_missing_url : jsstring := js "Please enter a URL to shorten.".
Definition msg_invalid_url : jsstring := js "Please enter a valid http(s) URL.".
Definition msg_invalid_validity : jsstring :=
  js "Validity must be a positive integer (minutes).".
Definition msg_failed : jsstring := js "Failed to shorten URL".
Definition msg_unexpected : jsstring := js "Unexpected response from server.".
Definition msg_generic : jsstring := js "Something went wrong".

(** [Date.now()]: a time value is an integral Number. *)
Definition clock_number (t : Z) : number := of_Q t 1.

Section WithPlatform.
Context {P : platform}.

(** The payload of lines 76-77 and its JSON text. *)
Definition payload (url : jsstring) (minutes : number) (alias_field : jsstring) : jsval :=
  VObj ([(js "url", VStr url); (js "validity", VNum minutes)]
        ++ (if nonempty (trim alias_field) then [(js "alias", VStr (trim alias_field))]
            else [])).

Definition make_request (apiBaseUrl url : jsstring) (minutes : number)
    (alias_field : jsstring) : request :=
  {| req_url := apiBaseUrl ++ js "/shorten";
     req_method := js "POST";
     req_content_type := js "application/json";
     req_body := blob_of (payload url minutes alias_field) |}.

(** [data.key], the read throwing on [null]. *)
Definition read (data : jsval) (key : string) : result jsval :=
  match get_prop data (js key) with
  | Some v => Ok v
  | None => Throw (msg_null_property (js key))
  end.

(** [response.json()] *)
Definition json_of (r : response) : result jsval :=
  text <- body r ;;
  match JSON_parse text with
  | Some v => Ok v
  | None => Throw (msg_json_syntax text)
  end.

(** Lines 85-97: from the response to the short URL and the expiry. *)
Definition interpret (w : world) (minutes : number) (r : response)
  : result (jsval * number) :=
  if negb (ok r) then
    text <- body r ;;
    Throw (if nonempty text then text else msg_failed)
  else
    data <- json_of r ;;
    a <- read data "shortUrl" ;;
    b <- read data "short_url" ;;
    c <- read data "short" ;;
    let generatedShortUrl := js_or (js_or (js_or a b) c) (VStr []) in
    d <- read data "expiresAt" ;;
    e <- read data "expires_at" ;;
    let serverExpiresAt := js_or (js_or d e) VNull in
    if negb (truthy generatedShortUrl) then Throw msg_unexpected
    else
      computedExpiry <-
        (if truthy serverExpiresAt then
           match ToNumber serverExpiresAt with
           | Some n => Ok n
           | None => Throw msg_not_primitive
           end
         else Ok (fadd (clock_number (now_expiry w))
                       (fmul (fmul minutes (of_int 60)) (of_int 1000)))) ;;
      Ok (generatedShortUrl, computedExpiry).

(** The entry of line 102. *)
Definition make_entry (w : world) (url : jsstring) (short : jsval)
    (expiry minutes : number) : jsval :=
  VObj [(js "longUrl", VStr url);
        (js "shortUrl", short);
        (js "createdAt", VNum (clock_number (now_created w)));
        (js "expiresAt", VNum expiry);
        (js "validityMinutes", VNum minutes)].

(** The state after the three resets of lines 55-57 and a message. *)
Definition failed (st : state) (loading : bool) (message : jsstring) : state :=
  {| longUrl := longUrl st;
     alias := alias st;
     validityMinutes := validityMinutes st;
     isLoading := loading;
     errorMessage := message;
     shortUrl := VStr [];
     expiresAt := VNull;
     history := history st |}.

(** The state after lines 99-105 of a successful submission. *)
Definition succeeded (st : state) (generatedShortUrl : jsval) (computedExpiry : number)
    (h : jsval) : state :=
  {| longUrl := longUrl st;
     alias := [];
     validityMinutes := validityMinutes st;
     isLoading := false;
     errorMessage := [];
     shortUrl := generatedShortUrl;
     expiresAt := VNum computedExpiry;
     history := h |}.

(** What one call of [handleSubmit] leaves: the requests it issued, and
    the state once it has settled; [None] when the updater of [history]
    throws while the component renders. *)
Record submitted : Type := {
  requests : list request;
  settled : option state
}.

(** [handleSubmit] *)
Definition handleSubmit (apiBaseUrl : jsstring) (w : world) (st : state) : submitted :=
  if negb (nonempty (trim (longUrl st))) then
    {| requests := []; settled := Some (failed st (isLoading st) msg_missing_url) |}
  else if negb (isValidHttpUrl (trim (longUrl st))) then
    {| requests := []; settled := Some (failed st (isLoading st) msg_invalid_url) |}
  else
    match parseValidityOrDefault (validityMinutes st) with
    | None =>
        {| requests := [];
           settled := Some (failed st (isLoading st) msg_invalid_validity) |}
    | Some minutes =>
        let req := make_request apiBaseUrl (trim (longUrl st)) minutes (alias st) in
        match (r <- fetch w req ;; interpret w minutes r) with
        | Throw m =>
            {| requests := [req];
               settled := Some (failed st false (if nonempty m then m else msg_generic)) |}
        | Ok (generatedShortUrl, computedExpiry) =>
            {| requests := [req];
               settled :=
                 match record (make_entry w (trim (longUrl st)) generatedShortUrl
                                 computedExpiry minutes) (history st) with
                 | None => None
                 | Some h => Some (succeeded st generatedShortUrl computedExpiry h)
                 end |}
        end
    end.

(** *** Vocabulary for the statements below *)

(** The three checks before the request pass, and give these minutes. *)
Definition validated (st : state) (minutes : number) : Prop :=
  nonempty (trim (longUrl st)) = true /\
  isValidHttpUrl (trim (longUrl st)) = true /\
  parseValidityOrDefault (validityMinutes st) = Some minutes.

(** The request of a validated submission. *)
Definition request_of (apiBaseUrl : jsstring) (st : state) (minutes : number) : request :=
  make_request apiBaseUrl (trim (longUrl st)) minutes (alias st).

(** A successful response: a 2xx status and a body that is the JSON text
    of [data]. *)
Definition answers (w : world) (req : request) (data : jsval) : Prop :=
  exists r text,
    fetch w req = Ok r /\ ok r = true /\ body r = Ok text /\ JSON_parse text = Some data.

(** [data.key], [undefined] when the key is not there. *)
Definition field (data : jsval) (key : string) : jsval :=
  match get_prop data (js key) with
  | Some v => v
  | None => VUndefined
  end.

(** The first truthy value of a list, if there is one. *)
Fixpoint first_truthy (l : list jsval) : option jsval :=
  match l with
  | [] => None
  | v :: l' => if truthy v then Some v else first_truthy l'
  end.

(** The expiry of lines 92 and 97; [None] when [Number] throws. *)
Definition expiry_of (w : world) (data : jsval) (minutes : number) : option number :=
  match first_truthy [field data "expiresAt"; field data "expires_at"] with
  | Some x => ToNumber x
  | None =>
      Some (fadd (clock_number (now_expiry w))
                 (fmul (fmul minutes (of_int 60)) (of_int 1000)))
  end.

(** What the catch of line 107 shows when [Number] has thrown. *)
Definition msg_conversion : jsstring :=
  if nonempty msg_not_primitive then msg_not_primitive else msg_generic.

(** The property is there, whatever its value. *)
Definition present (data : jsval) (key : string) : Prop :=
  match data with
  | VObj props => lookup (js key) props <> None
  | _ => False
  end.

(** The property holds a string that is not empty. *)
Definition holds_nonempty_string (data : jsval) (key : string) : Prop :=
  exists s, field data key = VStr s /\ s <> [].

(** The ways a submission fails, after the error taxonomy of the
    specification. *)
Inductive failure (apiBaseUrl : jsstring) (w : world) (st : state) : Prop :=
| MissingInput :
    trim (longUrl st) = [] -> failure apiBaseUrl w st
| InvalidUrl :
    isValidHttpUrl (trim (longUrl st)) = false -> failure apiBaseUrl w st
| InvalidValidity :
    parseValidityOrDefault (validityMinutes st) = None -> failure apiBaseUrl w st
| TransportError (minutes : number) (m : jsstring) :
    validated st minutes ->
    fetch w (request_of apiBaseUrl st minutes) = Throw m ->
    failure apiBaseUrl w st
| BodyError (minutes : number) (r : response) (m : jsstring) :
    validated st minutes ->
    fetch w (request_of apiBaseUrl st minutes) = Ok r -> body r = Throw m ->
    failure apiBaseUrl w st
| HttpError (minutes : number) (r : response) :
    validated st minutes ->
    fetch w (request_of apiBaseUrl st minutes) = Ok r -> ok r = false ->
    failure apiBaseUrl w st
| NotJson (minutes : number) (r : response) (text : jsstring) :
    validated st minutes ->
    fetch w (request_of apiBaseUrl st minutes) = Ok r -> ok r = true ->
    body r = Ok text -> JSON_parse text = None ->
    failure apiBaseUrl w st
| UnexpectedResponse (minutes : number) (data : jsval) :
    validated st minutes ->
    answers w (request_of apiBaseUrl st minutes) data ->
    first_truthy [field data "shortUrl"; field data "short_url"; field data "short"] = None ->
    failure apiBaseUrl w st.

End WithPlatform.

(** *** Concrete submissions, to run the definitions on *)

(** A text written with ['] where JSON has its double quote. *)
Definition json_text (s : string) : jsstring :=
  List.map (fun c => if (c =? 39)%N then 34%N else c) (js s).

(** A fresh component with the URL and validity fields filled in. *)
Definition sample_state (url validity : string) : state :=
  {| longUrl := js url;
     alias := [];
     validityMinutes := js validity;
     isLoading := false;
     errorMessage := [];
     shortUrl := VStr [];
     expiresAt := VNull;
     history := VArr [] |}.

(** A world whose server gives one answer, with the two clock readings. *)
Definition sample_world (answer : result response) (t1 t2 : Z) : world :=
  {| fetch := fun _ => answer; now_expiry := t1; now_created := t2 |}.

Definition responds (status_ok : bool) (text : jsstring) : result response :=
  Ok {| ok := status_ok; body := Ok text |}.

End App.
Export App.

(* ================================================================== *)
(** ** What the component returns and shows *)

Module View.

(** [process.env.REACT_APP_API_BASE_URL || ''] of line 22; the variable
    is a string or is not defined. *)
Definition apiBaseUrl_of (env : option jsstring) : jsstring :=
  match env with
  | Some s => if nonempty s then s else []
  | None => []
  end.

(** The value of [x && element]: [x] itself when it is falsy. *)
Inductive child (A : Type) : Type :=
| Falsy (v : jsval)
| Element (a : A).
Arguments Falsy {A} v.
Arguments Element {A} a.

Definition guarded {A : Type} (x : jsval) (a : A) : child A :=
  if truthy x then Element a else Falsy x.

(** The result block of lines 175-185: the value that is the link's
    target and text and that Copy and Open are given, and the line of the
    expiry with the argument of [new Date]. *)
Record result_card : Type := {
  short_link : jsval;
  expires_line : child jsval
}.

(** One [<li>] of lines 201-214: its key, and the four properties of the
    item that it reads. *)
Record history_row : Type := {
  row_key : nat;
  row_short : jsval;
  row_created : jsval;
  row_long : jsval;
  row_expires : jsval
}.

(** Lines 196-217: the note that there is nothing yet, or the list. *)
Inductive recent_card : Type :=
| NoneYet
| Listed (rows : list history_row).

(** What [App] returns, as far as it depends on the state. *)
Record view : Type := {
  long_url_value : jsstring;
  alias_value : jsstring;
  validity_value : jsstring;
  alert : child jsstring;
  submit_disabled : bool;
  submit_label : jsstring;
  result : child result_card;
  clear_button : bool;
  recent : recent_card;
  api_base : jsstring
}.

Definition label_loading : jsstring := js "Shortening" ++ [8230%N].
Definition label_idle : jsstring := js "Shorten URL".
Definition same_origin : jsstring := js "(same origin)".

(** [history.length]: the read throws ([None]) on [null] and
    [undefined]; an array and a string have their length, an object its
    own property of that name, any other value none. *)
Definition length_of (h : jsval) : option jsval :=
  match h with
  | VUndefined | VNull => None
  | VArr items => Some (VNum (of_int (Z.of_nat (List.length items))))
  | VStr s => Some (VNum (of_int (Z.of_nat (List.length s))))
  | VObj props =>
      match lookup (js "length") props with
      | Some x => Some x
      | None => Some VUndefined
      end
  | _ => Some VUndefined
  end.

(** [x > 0]: the comparison of the numbers; with NaN it is false.  The
    conversion of an object can throw: [App_rendered] below sees to
    that. *)
Definition gt_zero (x : jsval) : bool :=
  match ToNumber x with
  | Some (Inf s) => negb s
  | Some (Fin n _) => 0 <? n
  | _ => false
  end.

(** [x === 0] *)
Definition is_zero (x : jsval) : bool :=
  match x with
  | VNum (Fin n _) => n =? 0
  | _ => false
  end.

(** The callback of [history.map] on one item, as far as the reads go:
    a read on [null] or [undefined] throws.  The row keeps the four
    values read; whether the two handed to [new Date] convert and the
    two placed as children are accepted by React is [row_shown]
    below. *)
Definition row_of (idx : nat) (item : jsval) : option history_row :=
  match get_prop item (js "shortUrl"), get_prop item (js "createdAt"),
        get_prop item (js "longUrl"), get_prop item (js "expiresAt") with
  | Some s, Some c, Some l, Some x =>
      Some {| row_key := idx; row_short := s; row_created := c;
              row_long := l; row_expires := x |}
  | _, _, _, _ => None
  end.

Fixpoint rows_from (idx : nat) (items : list jsval) : option (list history_row) :=
  match items with
  | [] => Some []
  | item :: items' =>
      match row_of idx item, rows_from (S idx) items' with
      | Some r, Some rs => Some (r :: rs)
      | _, _ => None
      end
  end.

(** [history.map(...)]: only an array has the method; on any other value
    that the history can be, [history.map] is not a function and the
    call throws. *)
Definition map_rows (h : jsval) : option (list history_row) :=
  match h with
  | VArr items => rows_from 0 items
  | _ => None
  end.

(** The element of lines 129-225 as the state variables decide it;
    [None] when reading the history throws.  Each date is left as the
    value handed to [new Date]; whether that conversion, the comparison
    of line 192 and React's rendering of the children go through is
    [App_rendered] below. *)
Definition App_view (apiBaseUrl : jsstring) (st : state) : option view :=
  match length_of (history st) with
  | None => None
  | Some len =>
      match (if is_zero len then Some NoneYet
             else option_map Listed (map_rows (history st))) with
      | None => None
      | Some card =>
          Some {| long_url_value := longUrl st;
                  alias_value := alias st;
                  validity_value := validityMinutes st;
                  alert := guarded (VStr (errorMessage st)) (errorMessage st);
                  submit_disabled := isLoading st;
                  submit_label := if isLoading st then label_loading else label_idle;
                  result :=
                    guarded (shortUrl st)
                      {| short_link := shortUrl st;
                         expires_line := guarded (expiresAt st) (expiresAt st) |};
                  clear_button := gt_zero len;
                  recent := card;
                  api_base := if nonempty apiBaseUrl then apiBaseUrl else same_origin |}
      end
  end.

Section WithPlatform.
Context {P : platform}.

(** The state while [fetch] is awaited: lines 55-57 and 74 have run;
    [None] when [handleSubmit] has returned before line 74. *)
Definition handleSubmit_pending (st : state) : option state :=
  if negb (nonempty (trim (longUrl st))) then None
  else if negb (isValidHttpUrl (trim (longUrl st))) then None
  else
    match parseValidityOrDefault (validityMinutes st) with
    | None => None
    | Some _ => Some (failed st true [])
    end.

End WithPlatform.

(** The state with which the component starts, lines 5-19. *)
Definition initial_state (st : storage) : state :=
  {| longUrl := [];
     alias := [];
     validityMinutes := [];
     isLoading := false;
     errorMessage := [];
     shortUrl := VStr [];
     expiresAt := VNull;
     history := load st |}.

(** [handleClearHistory] on the state. *)
Definition handleClearHistory (st : state) : state :=
  {| longUrl := longUrl st;
     alias := alias st;
     validityMinutes := validityMinutes st;
     isLoading := isLoading st;
     errorMessage := errorMessage st;
     shortUrl := shortUrl st;
     expiresAt := expiresAt st;
     history := clear |}.

(** *** Rendering *)

(** What React takes as a child: text, a number, and [true], [false],
    [null] and [undefined], which show nothing; an array is rendered item
    by item; on an object that is no element React throws. *)
Fixpoint valid_child (v : jsval) : bool :=
  match v with
  | VObj _ => false
  | VArr items => forallb valid_child items
  | _ => true
  end.

(** [new Date(v)] converts [v] to a primitive value first; [false] when
    that throws.  [toLocaleString] never throws. *)
Definition date_converts (v : jsval) : bool :=
  match ToPrimitive v with
  | Some _ => true
  | None => false
  end.

(** [x > 0] is evaluated without a TypeError. *)
Definition compares (x : jsval) : bool :=
  match ToNumber x with
  | Some _ => true
  | None => false
  end.

(** One [<li>] can be drawn: the two dates of lines 204 and 209, the
    children [{item.shortUrl}] and [{item.longUrl}] of lines 203 and
    207. *)
Definition row_shown (item : jsval) : bool :=
  date_converts (field item "createdAt") && date_converts (field item "expiresAt")
  && valid_child (field item "shortUrl") && valid_child (field item "longUrl").

(** The result block of lines 174-186 can be drawn: the child
    [{shortUrl}] of line 177 and the date of line 179. *)
Definition result_shown (st : state) : bool :=
  if truthy (shortUrl st) then
    valid_child (shortUrl st)
    && (if truthy (expiresAt st) then date_converts (expiresAt st) else true)
  else true.

(** The list of lines 196-217 can be drawn. *)
Definition recent_shown (h : jsval) (len : jsval) : bool :=
  if is_zero len then true
  else
    match h with
    | VArr items => forallb row_shown items
    | _ => true
    end.

(** What the component shows for a state; [None] when evaluating lines
    129-225 or rendering what they return throws, which takes the
    component off the page. *)
Definition App_rendered (apiBaseUrl : jsstring) (st : state) : option view :=
  match App_view apiBaseUrl st, length_of (history st) with
  | Some v, Some len =>
      if compares len && result_shown st && recent_shown (history st) len
      then Some v
      else None
  | _, _ => None
  end.

(** *** Vocabulary for the statements below *)

(** Neither [null] nor [undefined]: a value whose properties can be
    read. *)
Definition has_properties (item : jsval) : Prop := item <> VNull /\ item <> VUndefined.

(** The row that [history.map] makes of an item at an index. *)
Definition row_at (idx : nat) (item : jsval) : history_row :=
  {| row_key := idx;
     row_short := field item "shortUrl";
     row_created := field item "createdAt";
     row_long := field item "longUrl";
     row_expires := field item "expiresAt" |}.

(** No C0 control or space in front. *)
Definition url_clean (s : jsstring) : Prop :=
  match s with
  | [] => True
  | c :: _ => is_c0_or_space c = false
  end.

(** A character of a plain host: a lower-case letter or a dot. *)
Definition host_char (c : N) : bool := is_lower c || (c =? 46)%N.

(** A character that [preprocess] leaves where it is. *)
Definition visible (c : N) : bool := (32 <? c)%N.

(** What follows the host: nothing, or a path. *)
Definition path_or_end (tail : jsstring) : Prop :=
  tail = [] \/ exists path, tail = 47%N :: path.

End View.
Export View.

(* ================================================================== *)
(** ** Sessions: the component's history and the storage behind it *)

Module Session.

Record session : Type := {
  store : storage;
  hist : jsval
}.

(** The storage of a first visit: no item yet. *)
Definition fresh (rf wf : option jsstring) : storage :=
  {| url_history := None; read_fault := rf; write_fault := wf |}.

(** Mounting the component: the initialiser loads the history, then the
    effect writes it. *)
Definition mount (st : storage) : session :=
  {| store := persist st (load st); hist := load st |}.

(** The storage starts or stops failing. *)
Definition with_faults (st : storage) (rf wf : option jsstring) : storage :=
  {| url_history := url_history st; read_fault := rf; write_fault := wf |}.

Section WithPlatform.
Context {P : platform}.

(** A submission on the current history.  [handleSubmit] sets the
    history on line 101 only, on the path that leaves no error message;
    the effect of lines 25-31 depends on [history], so it runs after
    that path alone, and only once the component has rendered the new
    state.  A submission that fails leaves the session as it was. *)
Inductive submits (s : session) : session -> Prop :=
| submits_failed (apiBaseUrl : jsstring) (w : world) (st st' : state) :
    history st = hist s ->
    settled (handleSubmit apiBaseUrl w st) = Some st' ->
    errorMessage st' <> [] ->
    submits s s
| submits_recorded (apiBaseUrl : jsstring) (w : world) (st st' : state) :
    history st = hist s ->
    settled (handleSubmit apiBaseUrl w st) = Some st' ->
    errorMessage st' = [] ->
    App_rendered apiBaseUrl st' <> None ->
    submits s {| store := persist (store s) (history st'); hist := history st' |}.

(** What can happen to a session. *)
Inductive step (s : session) : session -> Prop :=
| step_submit (s' : session) : submits s s' -> step s s'
| step_clear : step s {| store := persist (store s) clear; hist := clear |}
| step_reload : step s (mount (store s))
| step_faults (rf wf : option jsstring) :
    step s {| store := with_faults (store s) rf wf; hist := hist s |}.

(** The sessions of a browser that first visits, and goes on. *)
Inductive reachable : session -> Prop :=
| reach_mount (rf wf : option jsstring) : reachable (mount (fresh rf wf))
| reach_step (s s' : session) : reachable s -> step s s' -> reachable s'.

End WithPlatform.

(** A history within its capacity: an array of at most 20 well-formed
    values. *)
Definition bounded (h : jsval) : Prop :=
  exists l, h = VArr l /\ (List.length l <= 20)%nat /\ forallb wf l = true.

(** The item in storage, when there is one, is the text of such a
    history. *)
Definition stored_ok (st : storage) : Prop :=
  url_history st = None \/
  exists h, bounded h /\ url_history st = Some (text_of h).

(** What every session keeps true. *)
Definition invariant (s : session) : Prop := bounded (hist s) /\ stored_ok (store s).


End Session.
Export Session.

(* ================================================================== *)
(** ** What the history holds *)

Module Entries.

Section WithPlatform.
Context {P : platform}.

(** A number, or the [null] that a reload makes of NaN and the
    infinities. *)
Definition number_or_null (v : jsval) : Prop :=
  match v with
  | VNum _ | VNull => True
  | _ => False
  end.

(** An entry as line 102 builds it, also after a reload: the five
    properties in this order, the long URL a trimmed text that the
    validator accepts, the validity a positive whole number. *)
Definition entry_ok (e : jsval) : Prop :=
  exists (u : jsstring) (s c x : jsval) (m : Z),
    e = VObj [(js "longUrl", VStr u);
              (js "shortUrl", s);
              (js "createdAt", c);
              (js "expiresAt", x);
              (js "validityMinutes", VNum (Fin m 0))] /\
    u <> [] /\ trim u = u /\ isValidHttpUrl u = true /\
    s <> VUndefined /\ number_or_null c /\ number_or_null x /\ 0 < m.

(** A history of such entries, within its capacity. *)
Definition shaped (h : jsval) : Prop :=
  bounded h /\ exists l, h = VArr l /\ Forall entry_ok l.

(** The item in storage, when there is one, is the text of such a
    history. *)
Definition stored_shaped (st : storage) : Prop :=
  url_history st = None \/
  exists h, shaped h /\ url_history st = Some (text_of h).

(** A history of such entries whose rows can all be drawn. *)
Definition drawn (h : jsval) : Prop :=
  shaped h /\ exists l, h = VArr l /\ forallb row_shown l = true.

(** The item in storage, when there is one, is the text of such a
    history. *)
Definition stored_drawn (st : storage) : Prop :=
  url_history st = None \/
  exists h, drawn h /\ url_history st = Some (text_of h).

End WithPlatform.

End Entries.
Export Entries.

(* ================================================================== *)
(** ** A session to run the definitions on *)

Module Samples.

Definition sample_entry : jsval :=
  VObj [(js "longUrl", VStr (js "https://example.com/a"));
        (js "shortUrl", VStr (js "https://s/x"));
        (js "createdAt", VNum (of_int 1700000000000));
        (js "expiresAt", VNum (of_int 1700001800000));
        (js "validityMinutes", VNum (of_int 30))].

(** A server that answers with a short URL and no expiry. *)
Definition sample_server : world :=
  sample_world (responds true (json_text "{'shortUrl':'https://s/x'}"))
               1700000000000 1700000000000.

(** The session after one submission on a first visit. *)
Definition sample_session : session :=
  {| store := persist (store (mount (fresh None None))) (VArr [sample_entry]);
     hist := VArr [sample_entry] |}.

(** A form with its three fields filled in, over a history. *)
Definition sample_form (url alias_text validity : string) (h : jsval) : state :=
  {| longUrl := js url;
     alias := js alias_text;
     validityMinutes := js validity;
     isLoading := false;
     errorMessage := [];
     shortUrl := VStr [];
     expiresAt := VNull;
     history := h |}.

End Samples.
Export Samples.


(* ================================================================== *)
(** * Properties *)

(* ------------------------------------------------------------------ *)
(** ** Strings *)

Section StringFacts.

Lemma str_eqb_eq (a b : jsstring) : str_eqb a b = true <-> a = b.
Proof.
  revert b; induction a as [|x a IH]; intros [|y b]; simpl; try (split; congruence).
  rewrite andb_true_iff, N.eqb_eq, IH. split.
  - intros [-> ->]; reflexivity.
  - intros H; injection H; auto.
Qed.

Lemma str_eqb_refl (a : jsstring) : str_eqb a a = true.
Proof. apply str_eqb_eq; reflexivity. Qed.

Lemma str_eqb_neq (a b : jsstring) : str_eqb a b = false <-> a <> b.
Proof.
  split.
  - intros H E. apply str_eqb_eq in E. congruence.
  - intros H. destruct (str_eqb a b) eqn:E; [|reflexivity].
    apply str_eqb_eq in E. contradiction.
Qed.

End StringFacts.

(* ------------------------------------------------------------------ *)
(** ** Rounding to binary64 is exact on binary64 values *)

Section NumberFacts.
Lemma pow2_pos (e : Z) : 0 <= e -> 0 < 2 ^ e.
Proof. intros; apply Z.pow_pos_nonneg; lia. Qed.

Lemma rne_div_exact (q b : Z) : 0 < b -> rne_div (q * b) b = q.
Proof.
  intros Hb. unfold rne_div.
  rewrite Z.mod_mul; [|lia]. rewrite Z.div_mul; [|lia].
  assert (C : (2 * 0 ?= b) = Lt) by (apply Z.compare_lt_iff; lia).
  rewrite C. reflexivity.
Qed.

Lemma ilog2_exact (A B a k : Z) :
  0 < A -> 0 < B -> 0 < a -> 0 <= k -> A * 2 ^ k = a * B ->
  ilog2 A B = Z.log2 a - k.
Proof.
  intros HA HB Ha Hk E. unfold ilog2.
  set (s := Z.max 0 (Z.log2 B + 1 - Z.log2 A)).
  assert (Hs : 0 <= s) by (unfold s; lia).
  pose proof (pow2_pos k Hk) as Pk. pose proof (pow2_pos s Hs) as Ps.
  assert (Q : A * 2 ^ s / B = a * 2 ^ s / 2 ^ k).
  { rewrite <- (Z.div_mul_cancel_r (A * 2 ^ s) B (2 ^ k)) by lia.
    replace (A * 2 ^ s * 2 ^ k) with (a * 2 ^ s * B) by nia.
    replace (B * 2 ^ k) with (2 ^ k * B) by lia.
    apply Z.div_mul_cancel_r; lia. }
  rewrite Q.
  rewrite <- Z.shiftl_mul_pow2, <- Z.shiftr_div_pow2 by lia.
  rewrite Z.log2_shiftr by (rewrite Z.shiftl_mul_pow2 by lia; nia).
  rewrite Z.log2_shiftl by lia.
  (* the scaled quotient is at least 1 *)
  assert (G : B < A * 2 ^ s).
  { pose proof (Z.log2_spec A HA) as [LA _]. pose proof (Z.log2_spec B HB) as [_ LB].
    pose proof (Z.log2_nonneg A). pose proof (Z.log2_nonneg B).
    assert (2 ^ Z.succ (Z.log2 B) <= 2 ^ (Z.log2 A + s)).
    { apply Z.pow_le_mono_r; unfold s; lia. }
    rewrite Z.pow_add_r in H1 by lia. nia. }
  assert (G2 : 2 ^ k < a * 2 ^ s) by nia.
  pose proof (Z.log2_spec a Ha) as [_ La]. pose proof (Z.log2_nonneg a).
  assert (k < Z.succ (Z.log2 a) + s).
  { apply (Z.pow_lt_mono_r_iff 2); try lia.
    rewrite Z.pow_add_r by lia. nia. }
  lia.
Qed.

Lemma reduce_spec (p : positive) : forall k : N,
  let (p', k') := reduce p k in
  canonical (Zpos p') k' = true /\
  Zpos p' * 2 ^ Z.of_N k = Zpos p * 2 ^ Z.of_N k'.
Proof.
  induction p as [p IH|p IH|]; intros k; cbn [reduce].
  - split; [unfold canonical; simpl; apply orb_true_r | reflexivity].
  - destruct k as [|q].
    + split; reflexivity.
    + specialize (IH (N.pred (N.pos q))).
      destruct (reduce p (N.pred (N.pos q))) as [p' k'].
      destruct IH as [C E]. split; [exact C|].
      assert (Hq : Z.of_N (N.pos q) = Z.of_N (N.pred (N.pos q)) + 1) by lia.
      rewrite Hq, Z.pow_add_r by lia.
      change (Z.pos p~0) with (2 * Z.pos p). change (2 ^ 1) with 2.
      rewrite Z.mul_assoc, E. ring.
  - split; [unfold canonical; simpl; apply orb_true_r | reflexivity].
Qed.

Lemma canonical_even (n : Z) (k : N) :
  canonical n k = true -> Z.even n = true -> k = 0%N.
Proof.
  unfold canonical. intros C E. rewrite <- Z.negb_odd in E.
  destruct (Z.odd n); [discriminate|]. rewrite orb_false_r in C.
  apply N.eqb_eq in C. exact C.
Qed.

Lemma canonical_unique (n n' : Z) (k k' : N) :
  canonical n k = true -> canonical n' k' = true ->
  n * 2 ^ Z.of_N k' = n' * 2 ^ Z.of_N k -> n = n' /\ k = k'.
Proof.
  intros C C' E.
  destruct (N.lt_trichotomy k k') as [L|[L|L]].
  - exfalso.
    assert (E' : n' = 2 * (n * 2 ^ (Z.of_N k' - Z.of_N k - 1))).
    { replace (Z.of_N k') with (Z.of_N k + (1 + (Z.of_N k' - Z.of_N k - 1))) in E by lia.
      rewrite !Z.pow_add_r in E by lia.
      pose proof (pow2_pos (Z.of_N k) ltac:(lia)). change (2 ^ 1) with 2 in E. nia. }
    assert (k' = 0%N) by (apply (canonical_even n'); [exact C'|rewrite E'; apply Z.even_mul]).
    lia.
  - subst k'. split; [|reflexivity].
    pose proof (pow2_pos (Z.of_N k) ltac:(lia)). nia.
  - exfalso.
    assert (E' : n = 2 * (n' * 2 ^ (Z.of_N k - Z.of_N k' - 1))).
    { replace (Z.of_N k) with (Z.of_N k' + (1 + (Z.of_N k - Z.of_N k' - 1))) in E by lia.
      rewrite !Z.pow_add_r in E by lia.
      pose proof (pow2_pos (Z.of_N k') ltac:(lia)). change (2 ^ 1) with 2 in E. nia. }
    assert (k = 0%N) by (apply (canonical_even n); [exact C|rewrite E'; apply Z.even_mul]).
    lia.
Qed.

Lemma dyadic_eq (m n : Z) (j k : N) :
  m <> 0 -> canonical n k = true -> n * 2 ^ Z.of_N j = m * 2 ^ Z.of_N k ->
  dyadic m j = Fin n k.
Proof.
  intros Hm C E.
  pose proof (pow2_pos (Z.of_N j) ltac:(lia)) as Pj.
  pose proof (pow2_pos (Z.of_N k) ltac:(lia)) as Pk.
  destruct m as [|p|p]; [congruence| |]; simpl;
    pose proof (reduce_spec p j) as R; destruct (reduce p j) as [p' k'];
    destruct R as [C' E'];
    pose proof (pow2_pos (Z.of_N k') ltac:(lia)) as Pk'.
  - destruct (canonical_unique (Z.pos p') n k' k C' C) as [-> ->]; [|reflexivity].
    apply (Z.mul_reg_r _ _ (2 ^ Z.of_N j)); [lia|]. nia.
  - assert (C'' : canonical (Z.neg p') k' = true) by exact C'.
    destruct (canonical_unique (Z.neg p') n k' k C'' C) as [-> ->]; [|reflexivity].
    apply (Z.mul_reg_r _ _ (2 ^ Z.of_N j)); [lia|].
    change (Z.neg p') with (- Z.pos p'). change (Z.neg p) with (- Z.pos p) in E. nia.
Qed.

Lemma scaled_eq (m u n : Z) (k : N) :
  m <> 0 -> canonical n k = true ->
  n * 2 ^ Z.max 0 (- u) = m * 2 ^ Z.max 0 u * 2 ^ Z.of_N k ->
  scaled m u = Fin n k.
Proof.
  intros Hm C E. unfold scaled.
  destruct (Z.leb_spec 0 u) as [Hu|Hu].
  - replace (Z.max 0 (- u)) with 0 in E by lia.
    replace (Z.max 0 u) with u in E by lia.
    rewrite Z.pow_0_r, Z.mul_1_r in E.
    assert (k = 0%N).
    { destruct k as [|q]; [reflexivity|].
      apply (canonical_even n); [exact C|].
      replace (Z.of_N (N.pos q)) with (1 + (Z.of_N (N.pos q) - 1)) in E by lia.
      rewrite Z.pow_add_r in E by lia. change (2 ^ 1) with 2 in E.
      replace n with (2 * (m * 2 ^ u * 2 ^ (Z.of_N (N.pos q) - 1))) by lia.
      apply Z.even_mul. }
    subst k. simpl in E. f_equal. lia.
  - replace (Z.max 0 (- u)) with (- u) in E by lia.
    replace (Z.max 0 u) with 0 in E by lia.
    rewrite Z.pow_0_r, Z.mul_1_r in E.
    apply dyadic_eq; [exact Hm|exact C|].
    rewrite Z2N.id by lia. exact E.
Qed.

Lemma odd_mod_pow2 (a j : Z) :
  Z.odd a = true -> 0 <= j -> a mod 2 ^ j = 0 -> j = 0.
Proof.
  intros Ho Hj Hm.
  destruct (Z.eq_dec j 0) as [|Hne]; [assumption|exfalso].
  apply Z.mod_divide in Hm; [|pose proof (pow2_pos j Hj); lia].
  destruct Hm as [c Hc].
  replace j with (1 + (j - 1)) in Hc by lia.
  rewrite Z.pow_add_r in Hc by lia. change (2 ^ 1) with 2 in Hc.
  assert (Z.odd a = false).
  { replace a with (2 * (c * 2 ^ (j - 1))) by lia. apply Z.odd_even. }
  congruence.
Qed.

Lemma round64_exact (A B a : Z) (k : N) :
  0 < A -> 0 < B -> 0 < a -> A * 2 ^ Z.of_N k = a * B ->
  is_double (Fin a k) = true -> round64 A B = Fin a k.
Proof.
  intros HA HB Ha E D. unfold round64.
  rewrite (ilog2_exact A B a (Z.of_N k)) by lia.
  unfold is_double in D.
  destruct (Z.eqb_spec a 0) as [|_]; [lia|].
  rewrite Z.abs_eq in D by lia.
  rewrite !andb_true_iff in D. destruct D as [[[C K] V] M].
  apply N.leb_le in K. apply Z.ltb_lt in V. apply Z.eqb_eq in M.
  pose proof (Z.log2_nonneg a) as HL.
  pose proof (Z.log2_spec a Ha) as [L1 L2].
  set (L := Z.log2 a) in *.
  set (u := Z.max (L - Z.of_N k - 52) (-1074)).
  pose proof (pow2_pos (Z.of_N k) ltac:(lia)) as Pk.
  destruct (Z.le_gt_cases (u + Z.of_N k) 0) as [T|T].
  - (* the unit in the last place is at most 2^-k *)
    assert (Hu : u <= 0) by lia.
    set (m := a * 2 ^ (- (u + Z.of_N k))).
    pose proof (pow2_pos (- (u + Z.of_N k)) ltac:(lia)) as Pt.
    replace (Z.max 0 (- u)) with (Z.of_N k + - (u + Z.of_N k)) by lia.
    replace (Z.max 0 u) with 0 by lia.
    rewrite Z.pow_0_r, Z.mul_1_r, Z.pow_add_r by lia.
    replace (A * (2 ^ Z.of_N k * 2 ^ (- (u + Z.of_N k)))) with (m * B)
      by (unfold m; nia).
    rewrite rne_div_exact by lia.
    assert (Hm : m < 2 ^ (1024 - u)).
    { replace (1024 - u) with (1024 + Z.of_N k + (- (u + Z.of_N k))) by lia.
      rewrite Z.pow_add_r by lia. unfold m. nia. }
    destruct (Z.leb_spec (2 ^ (1024 - u)) m) as [|_]; [lia|].
    apply scaled_eq; [unfold m; nia|exact C|].
    replace (Z.max 0 (- u)) with (Z.of_N k + - (u + Z.of_N k)) by lia.
    replace (Z.max 0 u) with 0 by lia.
    rewrite Z.pow_0_r, Z.mul_1_r, Z.pow_add_r by lia. unfold m. ring.
  - (* an integer of more than 53 bits *)
    assert (Hk : k = 0%N).
    { destruct k as [|q]; [reflexivity|exfalso].
      assert (Ho : Z.odd a = true).
      { unfold canonical in C. simpl in C. exact C. }
      pose proof (odd_mod_pow2 a (Z.max 0 (L - 52)) Ho ltac:(lia) M). lia. }
    subst k. simpl Z.of_N in *. rewrite Z.pow_0_r, Z.mul_1_r in E.
    assert (Hu : u = L - 52) by lia.
    assert (Hup : 0 < u) by lia.
    replace (Z.max 0 (L - 52)) with u in M by lia.
    pose proof (pow2_pos u ltac:(lia)) as Pu.
    apply Z.mod_divide in M; [|lia]. destruct M as [m Hm].
    replace (Z.max 0 (- u)) with 0 by lia.
    replace (Z.max 0 u) with u by lia.
    rewrite Z.pow_0_r, Z.mul_1_r.
    replace A with (m * (B * 2 ^ u)) by nia.
    rewrite rne_div_exact by nia.
    assert (Hlt : m < 2 ^ (1024 - u)).
    { assert (L < 1024).
      { apply (Z.pow_lt_mono_r_iff 2); lia. }
      apply (Z.mul_lt_mono_pos_r (2 ^ u)); [lia|].
      rewrite <- Z.pow_add_r by lia. replace (1024 - u + u) with 1024 by lia.
      simpl Z.add in V. lia. }
    destruct (Z.leb_spec (2 ^ (1024 - u)) m) as [|_]; [lia|].
    apply scaled_eq; [nia|exact C|].
    replace (Z.max 0 (- u)) with 0 by lia.
    replace (Z.max 0 u) with u by lia.
    simpl Z.of_N. rewrite !Z.pow_0_r. lia.
Qed.

Lemma of_Q_exact (A B n : Z) (k : N) :
  0 < B -> A * 2 ^ Z.of_N k = n * B ->
  is_double (Fin n k) = true -> of_Q A B = Fin n k.
Proof.
  intros HB E D.
  pose proof (pow2_pos (Z.of_N k) ltac:(lia)) as Pk.
  destruct A as [|p|p]; unfold of_Q.
  - assert (n = 0) by nia. subst n. simpl in D. apply N.eqb_eq in D. subst k. reflexivity.
  - assert (Hp : 0 < n * B) by (rewrite <- E; apply Z.mul_pos_pos; lia).
    assert (Hn : 0 < n) by nia.
    apply round64_exact; try lia. exact D.
  - assert (Hp : 0 < (- n) * B).
    { replace (- n * B) with (Z.pos p * 2 ^ Z.of_N k) by (rewrite Z.mul_opp_l, <- E; lia).
      apply Z.mul_pos_pos; lia. }
    assert (Hn : 0 < - n) by nia.
    rewrite (round64_exact (- Z.neg p) B (- n) k); try lia.
    + simpl. f_equal. lia.
    + unfold is_double in *. destruct (Z.eqb_spec n 0); [lia|].
      destruct (Z.eqb_spec (- n) 0); [lia|].
      rewrite Z.abs_opp. unfold canonical in *. rewrite Z.odd_opp. exact D.
Qed.

Lemma of_Q_int (n : Z) : Z.abs n < 2 ^ 53 -> of_Q n 1 = Fin n 0.
Proof.
  intros H. apply of_Q_exact; [lia|simpl; lia|].
  unfold is_double. destruct (Z.eqb_spec n 0); [reflexivity|].
  assert (L : Z.log2 (Z.abs n) < 53) by (apply Z.log2_lt_pow2; lia).
  replace (Z.max 0 (Z.log2 (Z.abs n) - 52)) with 0 by lia.
  rewrite Z.pow_0_r, Z.mod_1_r. simpl.
  rewrite andb_true_r. apply Z.ltb_lt.
  assert (2 ^ 53 < 2 ^ 1024) by (apply Z.pow_lt_mono_r; lia). lia.
Qed.

(** Comparisons between [A * 2^x] and [B * 2^y] only depend on [x - y]. *)
Lemma shift_lt (A B x y x' y' : Z) :
  0 <= x -> 0 <= y -> 0 <= x' -> 0 <= y' -> x - y = x' - y' ->
  A * 2 ^ x < B * 2 ^ y -> A * 2 ^ x' < B * 2 ^ y'.
Proof.
  intros Hx Hy Hx' Hy' E H.
  destruct (Z.le_gt_cases x x') as [L|L].
  - replace x' with (x + (x' - x)) by lia. replace y' with (y + (x' - x)) by lia.
    rewrite !Z.pow_add_r by lia.
    pose proof (pow2_pos (x' - x) ltac:(lia)). nia.
  - replace x with (x' + (x - x')) in H by lia. replace y with (y' + (x - x')) in H by lia.
    rewrite !Z.pow_add_r in H by lia.
    pose proof (pow2_pos (x - x') ltac:(lia)). nia.
Qed.

Lemma shift_le (A B x y x' y' : Z) :
  0 <= x -> 0 <= y -> 0 <= x' -> 0 <= y' -> x - y = x' - y' ->
  A * 2 ^ x <= B * 2 ^ y -> A * 2 ^ x' <= B * 2 ^ y'.
Proof.
  intros Hx Hy Hx' Hy' E H.
  destruct (Z.le_gt_cases x x') as [L|L].
  - replace x' with (x + (x' - x)) by lia. replace y' with (y + (x' - x)) by lia.
    rewrite !Z.pow_add_r by lia.
    pose proof (pow2_pos (x' - x) ltac:(lia)). nia.
  - replace x with (x' + (x - x')) in H by lia. replace y with (y' + (x - x')) in H by lia.
    rewrite !Z.pow_add_r in H by lia.
    pose proof (pow2_pos (x - x') ltac:(lia)). nia.
Qed.

Lemma shift_lt_mono (A B x y x' y' : Z) :
  0 <= A -> 0 <= x -> 0 <= y -> 0 <= x' -> 0 <= y' -> x' - y' <= x - y ->
  A * 2 ^ x < B * 2 ^ y -> A * 2 ^ x' < B * 2 ^ y'.
Proof.
  intros HA Hx Hy Hx' Hy' E H.
  assert (G : A * 2 ^ (x' + ((x - y) - (x' - y'))) < B * 2 ^ y').
  { apply (shift_lt A B x y); lia. }
  rewrite Z.pow_add_r in G by lia.
  pose proof (pow2_pos ((x - y) - (x' - y')) ltac:(lia)).
  pose proof (pow2_pos x' ltac:(lia)). nia.
Qed.

Lemma ilog2_upper (A B : Z) :
  0 < A -> 0 < B ->
  A * 2 ^ Z.max 0 (- (ilog2 A B + 1)) < B * 2 ^ Z.max 0 (ilog2 A B + 1).
Proof.
  intros HA HB. unfold ilog2.
  set (s := Z.max 0 (Z.log2 B + 1 - Z.log2 A)).
  assert (Hs : 0 <= s) by (unfold s; lia).
  pose proof (pow2_pos s Hs) as Ps.
  set (Qt := A * 2 ^ s / B).
  assert (G : B < A * 2 ^ s).
  { pose proof (Z.log2_spec A HA) as [LA _]. pose proof (Z.log2_spec B HB) as [_ LB].
    pose proof (Z.log2_nonneg A). pose proof (Z.log2_nonneg B).
    assert (2 ^ Z.succ (Z.log2 B) <= 2 ^ (Z.log2 A + s)).
    { apply Z.pow_le_mono_r; unfold s; lia. }
    rewrite Z.pow_add_r in H1 by lia. nia. }
  assert (HQ : 0 < Qt).
  { unfold Qt. apply Z.div_str_pos. lia. }
  pose proof (Z.log2_spec Qt HQ) as [_ LQ]. pose proof (Z.log2_nonneg Qt) as NQ.
  set (l := Z.log2 Qt) in *.
  assert (U : A * 2 ^ s < B * 2 ^ (l + 1)).
  { pose proof (Z.mod_pos_bound (A * 2 ^ s) B HB).
    pose proof (Z.div_mod (A * 2 ^ s) B ltac:(lia)).
    fold Qt in H0. unfold Z.succ in LQ. nia. }
  apply (shift_lt A B s (l + 1)); lia.
Qed.

Lemma rne_div_bounds (a b : Z) :
  0 <= a -> 0 < b -> a / b <= rne_div a b <= a / b + 1.
Proof.
  intros Ha Hb. unfold rne_div.
  destruct (2 * (a mod b) ?= b); [destruct (Z.even (a / b))| |]; lia.
Qed.

Lemma scaled_spec (m u : Z) :
  0 < m ->
  exists a k, scaled m u = Fin a k /\ 0 < a /\ canonical a k = true /\
              a * 2 ^ Z.max 0 (- u) = m * 2 ^ Z.max 0 u * 2 ^ Z.of_N k.
Proof.
  intros Hm. unfold scaled.
  destruct (Z.leb_spec 0 u) as [Hu|Hu].
  - exists (m * 2 ^ u), 0%N. pose proof (pow2_pos u Hu).
    split; [reflexivity|split; [nia|split; [reflexivity|]]].
    replace (Z.max 0 (- u)) with 0 by lia. replace (Z.max 0 u) with u by lia.
    simpl. lia.
  - destruct m as [|p|p]; try lia. unfold dyadic.
    pose proof (reduce_spec p (Z.to_N (- u))) as R.
    destruct (reduce p (Z.to_N (- u))) as [p' k'].
    destruct R as [C E]. exists (Z.pos p'), k'.
    split; [reflexivity|split; [lia|split; [exact C|]]].
    replace (Z.max 0 (- u)) with (- u) by lia. replace (Z.max 0 u) with 0 by lia.
    rewrite Z2N.id in E by lia. rewrite Z.pow_0_r. lia.
Qed.

Lemma log2_le_52 (a : Z) : 0 < a -> a < 2 ^ 53 -> Z.log2 a - 52 <= 0.
Proof.
  intros Ha H. assert (Z.log2 a < 53) by (apply Z.log2_lt_pow2; lia). lia.
Qed.

Lemma mod_pow2_mul (c i j : Z) : 0 <= i <= j -> (c * 2 ^ j) mod 2 ^ i = 0.
Proof.
  intros H. replace j with ((j - i) + i) by lia.
  rewrite Z.pow_add_r by lia. rewrite Z.mul_assoc. apply Z_mod_mult.
Qed.

Lemma round64_double (A B : Z) :
  0 < A -> 0 < B -> is_double (round64 A B) = true.
Proof.
  intros HA HB. unfold round64.
  pose proof (ilog2_upper A B HA HB) as U.
  set (e := ilog2 A B) in *.
  set (u := Z.max (e - 52) (-1074)).
  set (A' := A * 2 ^ Z.max 0 (- u)). set (B' := B * 2 ^ Z.max 0 u).
  pose proof (pow2_pos (Z.max 0 (- u)) ltac:(lia)) as P1.
  pose proof (pow2_pos (Z.max 0 u) ltac:(lia)) as P2.
  assert (HA' : 0 < A') by (unfold A'; nia).
  assert (HB' : 0 < B') by (unfold B'; nia).
  assert (Hlt : A' < B' * 2 ^ 53).
  { assert (S1 : A * 2 ^ Z.max 0 (- u) < B * 2 ^ (Z.max 0 u + 53)).
    { apply (shift_lt_mono A B (Z.max 0 (- (e + 1))) (Z.max 0 (e + 1))); lia. }
    rewrite Z.pow_add_r in S1 by lia.
    unfold A', B'. lia. }
  pose proof (rne_div_bounds A' B' ltac:(lia) HB') as [M1 M2].
  assert (Hq : A' / B' < 2 ^ 53) by (apply Z.div_lt_upper_bound; lia).
  assert (Hq0 : 0 <= A' / B') by (apply Z.div_pos; lia).
  set (m := rne_div A' B') in *.
  destruct (Z.leb_spec (2 ^ (1024 - u)) m) as [|NoOv]; [reflexivity|].
  destruct (Z.eq_dec m 0) as [Z0|NZ].
  - rewrite Z0. unfold scaled. destruct (0 <=? u); reflexivity.
  - destruct (scaled_spec m u ltac:(lia)) as (a & k & -> & Ha & C & V).
    unfold is_double. destruct (Z.eqb_spec a 0); [lia|].
    rewrite Z.abs_eq by lia. rewrite C. cbn [andb].
    pose proof (pow2_pos (Z.of_N k) ltac:(lia)) as Pk.
    assert (Hu : -1074 <= u <= 1024).
    { split; [unfold u; lia|].
      destruct (Z.le_gt_cases u 1024); [assumption|].
      rewrite Z.pow_neg_r in NoOv by lia. lia. }
    (* the scale is at most 1074 *)
    assert (Kz : Z.of_N k <= Z.max 0 (- u)).
    { destruct (Z.leb_spec 0 u) as [Hu0|Hu0].
      - replace (Z.max 0 (- u)) with 0 in * by lia.
        rewrite Z.pow_0_r, Z.mul_1_r in V.
        destruct k as [|q]; [lia|exfalso].
        assert (k0 : N.pos q = 0%N); [|discriminate].
        apply (canonical_even a); [exact C|].
        replace (Z.of_N (N.pos q)) with (1 + (Z.of_N (N.pos q) - 1)) in V by lia.
        rewrite Z.pow_add_r in V by lia. change (2 ^ 1) with 2 in V.
        replace a with (2 * (m * 2 ^ Z.max 0 u * 2 ^ (Z.of_N (N.pos q) - 1))) by lia.
        apply Z.even_mul.
      - replace (Z.max 0 (- u)) with (- u) in * by lia.
        replace (Z.max 0 u) with 0 in V by lia.
        rewrite Z.pow_0_r, Z.mul_1_r in V.
        destruct (Z.le_gt_cases (Z.of_N k) (- u)) as [|G]; [lia|exfalso].
        assert (k0 : k = 0%N); [|lia].
        apply (canonical_even a); [exact C|].
        replace (Z.of_N k) with (- u + (1 + (Z.of_N k - (- u) - 1))) in V by lia.
        rewrite !Z.pow_add_r in V by lia. change (2 ^ 1) with 2 in V.
        pose proof (pow2_pos (- u) ltac:(lia)).
        replace a with (2 * (m * 2 ^ (Z.of_N k - - u - 1))) by nia.
        apply Z.even_mul. }
    assert (K : (k <= 1074)%N) by lia.
    apply N.leb_le in K as Kb. rewrite Kb. cbn [andb].
    (* the value is below 2^1024 *)
    assert (Vlt : a < 2 ^ (1024 + Z.of_N k)).
    { assert (S : a * 2 ^ Z.max 0 (- u) < 2 ^ (1024 - u) * (2 ^ Z.max 0 u * 2 ^ Z.of_N k)) by nia.
      rewrite <- !Z.pow_add_r in S by lia.
      replace (1024 - u + (Z.max 0 u + Z.of_N k)) with (1024 + Z.of_N k + Z.max 0 (- u)) in S by lia.
      rewrite Z.pow_add_r in S by lia. nia. }
    apply Z.ltb_lt in Vlt as Vb. rewrite Vb. cbn [andb].
    apply Z.eqb_eq.
    (* at most 53 significant bits *)
    assert (M53 : m <= 2 ^ 53) by lia.
    destruct k as [|q].
    + simpl Z.of_N in *. rewrite Z.pow_0_r, Z.mul_1_r in V.
      destruct (Z.leb_spec 0 u) as [Hu0|Hu0].
      * replace (Z.max 0 (- u)) with 0 in * by lia.
        replace (Z.max 0 u) with u in * by lia.
        rewrite !Z.pow_0_r, !Z.mul_1_r in V. subst a.
        rewrite <- Z.shiftl_mul_pow2 by lia.
        rewrite Z.log2_shiftl by lia.
        rewrite Z.shiftl_mul_pow2 by lia.
        destruct (Z.eq_dec m (2 ^ 53)) as [Mtop|Mlow].
        -- rewrite Mtop. rewrite Z.log2_pow2 by lia.
           rewrite <- Z.pow_add_r by lia.
           replace (2 ^ (53 + u)) with (1 * 2 ^ (53 + u)) by lia.
           apply mod_pow2_mul. lia.
        -- pose proof (log2_le_52 m ltac:(lia) ltac:(lia)). pose proof (Z.log2_nonneg m).
           apply mod_pow2_mul. lia.
      * replace (Z.max 0 (- u)) with (- u) in * by lia.
        replace (Z.max 0 u) with 0 in * by lia.
        rewrite Z.pow_0_r, Z.mul_1_r in V.
        assert (a < 2 ^ 53).
        { replace (- u) with (1 + (- u - 1)) in V by lia.
          rewrite Z.pow_add_r in V by lia. change (2 ^ 1) with 2 in V.
          pose proof (pow2_pos (- u - 1) ltac:(lia)). nia. }
        pose proof (log2_le_52 a Ha ltac:(lia)).
        replace (Z.max 0 (Z.log2 a - 52)) with 0 by lia.
        rewrite Z.pow_0_r. apply Z.mod_1_r.
    + assert (Ho : Z.odd a = true) by (unfold canonical in C; simpl in C; exact C).
      assert (Hneg : u < 0) by lia.
      replace (Z.max 0 (- u)) with (Z.of_N (N.pos q) + (- u - Z.of_N (N.pos q))) in V by lia.
      replace (Z.max 0 u) with 0 in V by lia.
      rewrite Z.pow_add_r, Z.pow_0_r, Z.mul_1_r in V by lia.
      pose proof (pow2_pos (- u - Z.of_N (N.pos q)) ltac:(lia)).
      assert (Em : a * 2 ^ (- u - Z.of_N (N.pos q)) = m).
      { apply (Z.mul_reg_l _ _ (2 ^ Z.of_N (N.pos q))); lia. }
      assert (a <= m) by nia.
      assert (a <> 2 ^ 53).
      { intros Ea. rewrite Ea in Ho. discriminate. }
      pose proof (log2_le_52 a Ha ltac:(lia)).
      replace (Z.max 0 (Z.log2 a - 52)) with 0 by lia.
      rewrite Z.pow_0_r. apply Z.mod_1_r.
Qed.

Lemma neg_double (x : number) : is_double x = true -> is_double (neg x) = true.
Proof.
  destruct x as [| |n k]; simpl; auto.
  destruct (Z.eqb_spec n 0), (Z.eqb_spec (- n) 0); try lia; auto.
  unfold canonical. rewrite Z.abs_opp, Z.odd_opp. auto.
Qed.

Lemma of_Q_double (A B : Z) : 0 < B -> is_double (of_Q A B) = true.
Proof.
  intros HB. destruct A as [|p|p]; unfold of_Q.
  - reflexivity.
  - apply round64_double; lia.
  - apply neg_double, round64_double; lia.
Qed.

Lemma ilog2_lower (A B : Z) :
  0 < A -> 0 < B ->
  B * 2 ^ Z.max 0 (ilog2 A B) <= A * 2 ^ Z.max 0 (- ilog2 A B).
Proof.
  intros HA HB. unfold ilog2.
  set (s := Z.max 0 (Z.log2 B + 1 - Z.log2 A)).
  assert (Hs : 0 <= s) by (unfold s; lia).
  pose proof (pow2_pos s Hs) as Ps.
  set (Qt := A * 2 ^ s / B).
  assert (G : B < A * 2 ^ s).
  { pose proof (Z.log2_spec A HA) as [LA _]. pose proof (Z.log2_spec B HB) as [_ LB].
    pose proof (Z.log2_nonneg A). pose proof (Z.log2_nonneg B).
    assert (2 ^ Z.succ (Z.log2 B) <= 2 ^ (Z.log2 A + s)).
    { apply Z.pow_le_mono_r; unfold s; lia. }
    rewrite Z.pow_add_r in H1 by lia. nia. }
  assert (HQ : 0 < Qt).
  { unfold Qt. apply Z.div_str_pos. lia. }
  pose proof (Z.log2_spec Qt HQ) as [LQ _]. pose proof (Z.log2_nonneg Qt) as NQ.
  set (l := Z.log2 Qt) in *.
  assert (U : B * 2 ^ l <= A * 2 ^ s).
  { pose proof (Z.mod_pos_bound (A * 2 ^ s) B HB).
    pose proof (Z.div_mod (A * 2 ^ s) B ltac:(lia)).
    fold Qt in H0. nia. }
  apply (shift_le B A l s); lia.
Qed.

Lemma shift_le_mono (A B x y x' y' : Z) :
  0 <= B -> 0 <= x -> 0 <= y -> 0 <= x' -> 0 <= y' -> x - y <= x' - y' ->
  A * 2 ^ x <= B * 2 ^ y -> A * 2 ^ x' <= B * 2 ^ (y' + ((x' - y') - (x - y))).
Proof.
  intros HB Hx Hy Hx' Hy' E H.
  apply (shift_le A B x y); lia.
Qed.

Lemma ilog2_unique (A B e : Z) :
  0 < A -> 0 < B ->
  B * 2 ^ Z.max 0 e <= A * 2 ^ Z.max 0 (- e) ->
  A * 2 ^ Z.max 0 (- (e + 1)) < B * 2 ^ Z.max 0 (e + 1) ->
  ilog2 A B = e.
Proof.
  intros HA HB L U.
  pose proof (ilog2_lower A B HA HB) as L0.
  pose proof (ilog2_upper A B HA HB) as U0.
  set (e0 := ilog2 A B) in *.
  destruct (Z.lt_trichotomy e e0) as [C|[C|C]]; [exfalso| symmetry; exact C |exfalso].
  - assert (A * 2 ^ Z.max 0 (- e0) < B * 2 ^ Z.max 0 e0).
    { apply (shift_lt_mono A B (Z.max 0 (- (e + 1))) (Z.max 0 (e + 1))); lia. }
    lia.
  - assert (A * 2 ^ Z.max 0 (- e) < B * 2 ^ Z.max 0 e).
    { apply (shift_lt_mono A B (Z.max 0 (- (e0 + 1))) (Z.max 0 (e0 + 1))); lia. }
    lia.
Qed.

Lemma ilog2_scale (A B c : Z) :
  0 < A -> 0 < B -> 0 < c -> ilog2 (A * c) (B * c) = ilog2 A B.
Proof.
  intros HA HB Hc. apply ilog2_unique; try nia.
  - pose proof (ilog2_lower A B HA HB). nia.
  - pose proof (ilog2_upper A B HA HB). nia.
Qed.

Lemma rne_div_scale (a b c : Z) :
  0 < b -> 0 < c -> rne_div (a * c) (b * c) = rne_div a b.
Proof.
  intros Hb Hc. unfold rne_div.
  rewrite Z.div_mul_cancel_r by lia.
  rewrite Z.mul_mod_distr_r by lia.
  destruct c as [|c|c]; try lia.
  replace (2 * (a mod b * Z.pos c)) with (Z.pos c * (2 * (a mod b))) by ring.
  rewrite (Z.mul_comm b), Zcompare_mult_compat. reflexivity.
Qed.

Lemma round64_scale (A B c : Z) :
  0 < A -> 0 < B -> 0 < c -> round64 (A * c) (B * c) = round64 A B.
Proof.
  intros HA HB Hc. unfold round64. rewrite ilog2_scale by assumption.
  set (u := Z.max (ilog2 A B - 52) (-1074)).
  replace (A * c * 2 ^ Z.max 0 (- u)) with (A * 2 ^ Z.max 0 (- u) * c) by ring.
  replace (B * c * 2 ^ Z.max 0 u) with (B * 2 ^ Z.max 0 u * c) by ring.
  rewrite rne_div_scale; [reflexivity| |exact Hc].
  pose proof (pow2_pos (Z.max 0 u) ltac:(lia)). nia.
Qed.

Lemma of_Q_scale (p q c : Z) : 0 < q -> 0 < c -> of_Q (p * c) (q * c) = of_Q p q.
Proof.
  intros Hq Hc. destruct p as [|p|p].
  - reflexivity.
  - assert (E : exists r, Z.pos p * c = Z.pos r).
    { destruct (Z.pos p * c) eqn:E; try lia. eexists; reflexivity. }
    destruct E as [r E]. unfold of_Q at 1. rewrite E, <- E.
    apply round64_scale; lia.
  - assert (E : exists r, Z.neg p * c = Z.neg r).
    { destruct (Z.neg p * c) eqn:E; try lia. eexists; reflexivity. }
    destruct E as [r E]. unfold of_Q at 1. rewrite E, <- E.
    replace (- (Z.neg p * c)) with (Z.pos p * c) by lia.
    rewrite round64_scale by lia. reflexivity.
Qed.

(** The Number value of a rational does not depend on how the rational is
    written. *)
Lemma of_Q_ratio (p q p' q' : Z) :
  0 < q -> 0 < q' -> p * q' = p' * q -> of_Q p q = of_Q p' q'.
Proof.
  intros Hq Hq' E.
  rewrite <- (of_Q_scale p q q' Hq Hq'), <- (of_Q_scale p' q' q Hq' Hq).
  rewrite E, (Z.mul_comm q q'). reflexivity.
Qed.

End NumberFacts.

(* ------------------------------------------------------------------ *)
(** ** The validator *)

Section TrimFacts.

Lemma trimStart_clean (s : jsstring) : starts_clean (trimStart s).
Proof.
  induction s as [|c s IH]; simpl; [exact I|].
  destruct (is_ws c) eqn:E; [exact IH|exact E].
Qed.

Lemma trimStart_id (s : jsstring) : starts_clean s -> trimStart s = s.
Proof. destruct s as [|c s]; simpl; [reflexivity|intros ->; reflexivity]. Qed.

Lemma trimStart_suffix (s : jsstring) : exists p, s = p ++ trimStart s.
Proof.
  induction s as [|c s [p IH]]; simpl.
  - exists []; reflexivity.
  - destruct (is_ws c).
    + exists (c :: p). simpl. f_equal. exact IH.
    + exists []. reflexivity.
Qed.

Lemma starts_clean_app (u p : jsstring) :
  starts_clean (u ++ p) -> u <> [] -> starts_clean u.
Proof. destruct u; simpl; [congruence|auto]. Qed.

Lemma trim_clean (s : jsstring) :
  starts_clean (trim s) /\ starts_clean (rev (trim s)).
Proof.
  unfold trim, trimEnd. set (t := trimStart s).
  assert (Ht : starts_clean t) by apply trimStart_clean.
  destruct (trimStart_suffix (rev t)) as [p Hp].
  set (u := trimStart (rev t)) in *.
  assert (Hu : starts_clean u) by apply trimStart_clean.
  rewrite rev_involutive. split; [|exact Hu].
  destruct u as [|c u'] eqn:Eu; [exact I|].
  assert (E : t = rev (c :: u') ++ rev p).
  { rewrite <- rev_app_distr, <- Hp, rev_involutive. reflexivity. }
  rewrite E in Ht. apply starts_clean_app in Ht; [exact Ht|].
  simpl. destruct (rev u'); discriminate.
Qed.

Lemma trim_id (s : jsstring) :
  starts_clean s -> starts_clean (rev s) -> trim s = s.
Proof.
  intros H1 H2. unfold trim, trimEnd.
  rewrite (trimStart_id s H1), (trimStart_id _ H2). apply rev_involutive.
Qed.

Lemma trim_idem (s : jsstring) : trim (trim s) = trim s.
Proof. apply trim_id; apply trim_clean. Qed.

Lemma trim_nil_of_empty (s : jsstring) : nonempty s = false -> trim s = [].
Proof. destruct s; [reflexivity|discriminate]. Qed.

End TrimFacts.

Section ValidatorFacts.

Lemma parseValidityOrDefault_blank (raw : jsstring) :
  trim raw = [] -> parseValidityOrDefault raw = Some (of_int 30).
Proof.
  intros H. unfold parseValidityOrDefault. rewrite H. simpl.
  rewrite orb_true_r. reflexivity.
Qed.

Lemma parseValidityOrDefault_nonblank (raw : jsstring) :
  trim raw <> [] ->
  parseValidityOrDefault raw =
    (let parsed := StringToNumber (trim raw) in
     if isInteger parsed && negb (le_zero parsed) then Some parsed else None).
Proof.
  intros H. unfold parseValidityOrDefault.
  destruct (nonempty raw) eqn:E.
  - simpl. destruct (str_eqb (trim raw) []) eqn:E2.
    + apply str_eqb_eq in E2. contradiction.
    + cbv zeta. destruct (isInteger _), (le_zero _); reflexivity.
  - apply trim_nil_of_empty in E. contradiction.
Qed.

Lemma is_digit_not_ws (c : N) : is_digit c = true -> is_ws c = false.
Proof.
  unfold is_digit, is_ws. intros H.
  apply andb_true_iff in H. destruct H as [H1 H2].
  apply N.leb_le in H1. apply N.leb_le in H2.
  repeat match goal with
  | |- context [(?a <=? ?b)%N] => destruct (N.leb_spec a b); try lia
  | |- context [(?a =? ?b)%N] => destruct (N.eqb_spec a b); try lia
  end; reflexivity.
Qed.

Lemma span_all (p : N -> bool) (s : jsstring) :
  forallb p s = true -> span p s = (s, []).
Proof.
  induction s as [|c s IH]; simpl; [reflexivity|].
  intros H. apply andb_true_iff in H. destruct H as [-> H].
  rewrite (IH H). reflexivity.
Qed.

Lemma digits_not_Infinity (ds : jsstring) :
  forallb is_digit ds = true -> str_eqb ds str_Infinity = false.
Proof.
  destruct ds as [|c ds]; [reflexivity|]. simpl. intros H.
  apply andb_true_iff in H. destruct H as [H _].
  unfold is_digit in H. apply andb_true_iff in H. destruct H as [H1 H2].
  apply N.leb_le in H1. apply N.leb_le in H2.
  change (ch "I") with 73%N. destruct (N.eqb_spec c 73); [lia|reflexivity].
Qed.

Lemma parse_unsigned_digits (ds : jsstring) :
  ds <> [] -> forallb is_digit ds = true ->
  parse_unsigned_decimal ds = Some (digits_value ds, 1).
Proof.
  intros Hne H. unfold parse_unsigned_decimal.
  rewrite (span_all _ _ H). simpl.
  destruct ds as [|c ds']; [congruence|].
  rewrite app_nil_r, Z.mul_1_r. reflexivity.
Qed.

Lemma parse_non_decimal_digits (ds : jsstring) :
  forallb is_digit ds = true -> parse_non_decimal ds = None.
Proof.
  destruct ds as [|c [|x [|y ds]]]; intros H; unfold parse_non_decimal.
  - reflexivity.
  - destruct c as [|p]; [reflexivity|repeat (destruct p as [p|p|]; try reflexivity)].
  - destruct c as [|p]; [reflexivity|repeat (destruct p as [p|p|]; try reflexivity)].
  - cbn [forallb] in H. rewrite !andb_true_iff in H. destruct H as (_ & Hx & _).
    unfold is_digit in Hx. apply andb_true_iff in Hx. destruct Hx as [H1 H2].
    apply N.leb_le in H1. apply N.leb_le in H2.
    destruct c as [|p]; [reflexivity|].
    repeat (destruct p as [p|p|]; try reflexivity).
    repeat match goal with
    | |- context [(?a =? ?b)%N] => destruct (N.eqb_spec a b); try lia
    end; reflexivity.
Qed.

Lemma digits_clean (ds : jsstring) :
  forallb is_digit ds = true -> starts_clean ds /\ starts_clean (rev ds).
Proof.
  intros H. rewrite forallb_forall in H.
  assert (G : forall l, (forall x, In x l -> is_digit x = true) -> starts_clean l).
  { intros [|c l] Hl; simpl; [exact I|]. apply is_digit_not_ws, Hl. left; reflexivity. }
  split; apply G; [exact H|]. intros x Hx. apply H. apply in_rev. exact Hx.
Qed.

Lemma StringToNumber_digits (ds : jsstring) :
  ds <> [] -> forallb is_digit ds = true ->
  StringToNumber ds = of_Q (digits_value ds) 1.
Proof.
  intros Hne H. unfold StringToNumber.
  destruct (digits_clean ds H) as [C1 C2].
  rewrite (trim_id ds C1 C2).
  destruct ds as [|c ds'] eqn:E; [congruence|]. rewrite <- E in *.
  rewrite (parse_non_decimal_digits ds H).
  unfold parse_str_decimal.
  assert (Hc : is_digit c = true).
  { rewrite E in H. simpl in H. apply andb_true_iff in H. tauto. }
  assert (S : (match ds with
               | 43%N :: x => (false, x)
               | 45%N :: x => (true, x)
               | _ => (false, ds)
               end) = (false, ds)).
  { rewrite E. unfold is_digit in Hc. apply andb_true_iff in Hc. destruct Hc as [H1 H2].
    apply N.leb_le in H1. apply N.leb_le in H2.
    destruct c as [|p]; [reflexivity|].
    repeat (destruct p as [p|p|]; try reflexivity); lia. }
  rewrite S, (digits_not_Infinity ds H), (parse_unsigned_digits ds Hne H).
  reflexivity.
Qed.

Lemma StringToNumber_signed_digits (sign : N) (ds : jsstring) :
  sign = 43%N \/ sign = 45%N ->
  ds <> [] -> forallb is_digit ds = true ->
  StringToNumber (sign :: ds) =
    (if (sign =? 45)%N then neg (of_Q (digits_value ds) 1) else of_Q (digits_value ds) 1).
Proof.
  intros Hs Hne H. unfold StringToNumber.
  destruct (digits_clean ds H) as [C1 C2].
  assert (T : trim (sign :: ds) = sign :: ds).
  { apply trim_id.
    - simpl. destruct Hs; subst; reflexivity.
    - simpl. destruct (rev ds) as [|c r] eqn:E.
      + apply (f_equal (@rev N)) in E. rewrite rev_involutive in E. simpl in E. congruence.
      + simpl. exact C2. }
  rewrite T.
  assert (ND : parse_non_decimal (sign :: ds) = None).
  { destruct Hs; subst; reflexivity. }
  rewrite ND. unfold parse_str_decimal.
  destruct Hs; subst sign; cbv iota beta;
    rewrite (digits_not_Infinity ds H), (parse_unsigned_digits ds Hne H); reflexivity.
Qed.

Lemma isInteger_Fin0 (n : Z) : isInteger (Fin n 0) = true.
Proof. unfold isInteger. simpl. rewrite Z.mod_1_r. reflexivity. Qed.

Lemma base10_agrees (raw : jsstring) (n : Z) :
  base10_integer (trim raw) = Some n -> Z.abs n < 2 ^ 53 ->
  parseValidityOrDefault raw = spec_resolveValidity raw.
Proof.
  intros B Hn.
  assert (Hne : trim raw <> []).
  { intros E. rewrite E in B. discriminate. }
  rewrite (parseValidityOrDefault_nonblank raw Hne). unfold spec_resolveValidity.
  rewrite (proj2 (str_eqb_neq _ _) Hne), B. cbv zeta.
  assert (V : StringToNumber (trim raw) = Fin n 0).
  { unfold base10_integer in B.
    destruct (trim raw) as [|c t] eqn:E; [congruence|].
    assert (Cases : (c = 45%N /\ t <> [] /\ forallb is_digit t = true /\ n = - digits_value t)
                 \/ (c = 43%N /\ t <> [] /\ forallb is_digit t = true /\ n = digits_value t)
                 \/ (forallb is_digit (c :: t) = true /\ n = digits_value (c :: t))).
    { destruct (N.eq_dec c 45) as [->|N45].
      - left. destruct t as [|d t']; [discriminate|].
        destruct (forallb is_digit (d :: t')) eqn:F; [|discriminate].
        injection B as <-. repeat split; congruence.
      - destruct (N.eq_dec c 43) as [->|N43].
        + right; left. destruct t as [|d t']; [discriminate|].
          destruct (forallb is_digit (d :: t')) eqn:F; [|discriminate].
          injection B as <-. repeat split; congruence.
        + right; right.
          assert (B' : (if forallb is_digit (c :: t) then Some (digits_value (c :: t)) else None) = Some n).
          { destruct c as [|p]; [exact B|].
            repeat (destruct p as [p|p|]; try exact B); congruence. }
          destruct (forallb is_digit (c :: t)) eqn:F; [|discriminate].
          injection B' as <-. split; reflexivity. }
    destruct Cases as [(-> & Ht & Hd & ->)|[(-> & Ht & Hd & ->)|(Hd & ->)]].
    - rewrite (StringToNumber_signed_digits 45 t); auto.
      simpl N.eqb. cbv iota. rewrite of_Q_int by (rewrite Z.abs_opp in Hn; exact Hn).
      reflexivity.
    - rewrite (StringToNumber_signed_digits 43 t); auto.
      simpl N.eqb. cbv iota. apply of_Q_int. exact Hn.
    - rewrite StringToNumber_digits; [|discriminate|exact Hd].
      apply of_Q_int. exact Hn. }
  rewrite V, isInteger_Fin0. unfold le_zero, of_int.
  destruct (Z.ltb_spec 0 n), (Z.leb_spec n 0); try lia; reflexivity.
Qed.

Lemma parse_unsigned_decimal_pos (u : jsstring) (p q : Z) :
  parse_unsigned_decimal u = Some (p, q) -> 0 < q.
Proof.
  unfold parse_unsigned_decimal.
  destruct (span is_digit u) as [ip r1].
  match goal with
  | |- context [let '(_, _) := ?m in _] => destruct m as [fp r2]
  end.
  assert (G : forall ex : Z,
             Some (digits_value (ip ++ fp) * 10 ^ Z.max 0 (ex - Z.of_nat (List.length fp)),
                   10 ^ Z.max 0 (- (ex - Z.of_nat (List.length fp)))) = Some (p, q) ->
             0 < q).
  { intros ex H. injection H as _ <-. apply Z.pow_pos_nonneg; lia. }
  destruct ip, fp; try discriminate;
    (destruct (parse_exponent r2) as [ex|]; [apply (G ex)|discriminate]).
Qed.

Lemma parse_str_decimal_double (t : jsstring) (v : number) :
  parse_str_decimal t = Some v -> is_double v = true.
Proof.
  unfold parse_str_decimal.
  match goal with
  | |- context [let '(_, _) := ?m in _] => destruct m as [negative u]
  end.
  destruct (str_eqb u str_Infinity); [intros H; injection H as <-; reflexivity|].
  destruct (parse_unsigned_decimal u) as [[p q]|] eqn:E; [|discriminate].
  apply parse_unsigned_decimal_pos in E.
  intros H. injection H as <-.
  destruct negative; [apply neg_double|]; apply of_Q_double; exact E.
Qed.

Lemma StringToNumber_double (s : jsstring) : is_double (StringToNumber s) = true.
Proof.
  unfold StringToNumber. destruct (trim s) as [|c t]; [reflexivity|].
  destruct (parse_non_decimal (c :: t)); [apply of_Q_double; lia|].
  destruct (parse_str_decimal (c :: t)) as [v|] eqn:E; [|reflexivity].
  apply (parse_str_decimal_double _ _ E).
Qed.

Lemma whole_positive (v : number) :
  is_double v = true -> isInteger v = true -> le_zero v = false ->
  exists n, 0 < n /\ v = Fin n 0.
Proof.
  destruct v as [| |n k]; simpl; try discriminate.
  intros D I L. apply Z.leb_gt in L. apply Z.eqb_eq in I.
  destruct (Z.eqb_spec n 0); [lia|].
  rewrite !andb_true_iff in D. destruct D as [[[C _] _] _].
  exists n. split; [exact L|]. f_equal.
  unfold canonical in C. apply orb_true_iff in C. destruct C as [C|C].
  - apply N.eqb_eq in C. exact C.
  - pose proof (odd_mod_pow2 n (Z.of_N k) C ltac:(lia) I). lia.
Qed.

(** The seven examples of the specification. *)
Example resolveValidity_examples :
  parseValidityOrDefault (js "") = Some (of_int 30) /\
  parseValidityOrDefault (js "  ") = Some (of_int 30) /\
  parseValidityOrDefault (js "15") = Some (of_int 15) /\
  parseValidityOrDefault (js "0") = None /\
  parseValidityOrDefault (js "-5") = None /\
  parseValidityOrDefault (js "2.5") = None /\
  parseValidityOrDefault (js "abc") = None.
Proof. vm_compute. repeat split. Qed.

(** Inputs on which [Number] and a base-10 integer reading differ:
    exponent notation, prefixed literals, a fraction too fine for a
    binary64 value, an integer beyond 2^53. *)
Example resolveValidity_beyond_base10 :
  parseValidityOrDefault (js "1e2") = Some (of_int 100) /\
  parseValidityOrDefault (js "0b11") = Some (of_int 3) /\
  parseValidityOrDefault (js "2.0") = Some (of_int 2) /\
  parseValidityOrDefault (js "1.00000000000000000001") = Some (of_int 1) /\
  parseValidityOrDefault (js "9007199254740993") = Some (of_int 9007199254740992).
Proof. vm_compute. repeat split. Qed.

(** C3, as the specification states it, fails: it has every input that
    is not a base-10 integer rejected, and ["0x10"] is none, yet the code
    returns 16 for it. *)
Lemma resolveValidity_hex_counterexample :
  parseValidityOrDefault (js "0x10") = Some (of_int 16) /\
  spec_resolveValidity (js "0x10") = None.
Proof. vm_compute. split; reflexivity. Qed.

(** C3, amended: [parseValidityOrDefault] returns 30 for an input that is
    empty or only white space.  For any other input it converts the
    trimmed string with [Number] and returns the value exactly when that
    value is a whole number above 0, and [null] otherwise, without ever
    throwing.  On a plain base-10 integer literal below 2^53 in absolute
    value this is the base-10 reading of the specification. *)
Theorem parseValidityOrDefault_spec (raw : jsstring) :
  (trim raw = [] -> parseValidityOrDefault raw = Some (of_int 30)) /\
  (trim raw <> [] ->
   forall v, parseValidityOrDefault raw = Some v <->
             StringToNumber (trim raw) = v /\ exists n, 0 < n /\ v = Fin n 0) /\
  (trim raw <> [] ->
   parseValidityOrDefault raw = None <->
   ~ exists n, 0 < n /\ StringToNumber (trim raw) = Fin n 0) /\
  (forall n, base10_integer (trim raw) = Some n -> Z.abs n < 2 ^ 53 ->
             parseValidityOrDefault raw = spec_resolveValidity raw).
Proof.
  split; [apply parseValidityOrDefault_blank|].
  assert (Main : trim raw <> [] ->
    (forall n, 0 < n -> StringToNumber (trim raw) = Fin n 0 ->
               parseValidityOrDefault raw = Some (Fin n 0)) /\
    (forall v, parseValidityOrDefault raw = Some v ->
               StringToNumber (trim raw) = v /\ exists n, 0 < n /\ v = Fin n 0)).
  { intros Hne. rewrite (parseValidityOrDefault_nonblank raw Hne). cbv zeta.
    pose proof (StringToNumber_double (trim raw)) as D. split.
    - intros n Hn ->. rewrite isInteger_Fin0. simpl.
      destruct (Z.leb_spec n 0); [lia|reflexivity].
    - intros v H.
      destruct (isInteger (StringToNumber (trim raw))) eqn:I; [|discriminate].
      destruct (le_zero (StringToNumber (trim raw))) eqn:L; [discriminate|].
      simpl in H. injection H as <-. split; [reflexivity|].
      apply whole_positive; assumption. }
  split; [|split].
  - intros Hne v. destruct (Main Hne) as [M1 M2]. split.
    + apply M2.
    + intros [E (n & Hn & ->)]. apply M1; assumption.
  - intros Hne. destruct (Main Hne) as [M1 M2]. split.
    + intros HN (n & Hn & E). rewrite (M1 n Hn E) in HN. discriminate.
    + intros HN. destruct (parseValidityOrDefault raw) as [v|] eqn:E; [|reflexivity].
      exfalso. apply HN. destruct (M2 v eq_refl) as [Ev (n & Hn & ->)].
      exists n. split; assumption.
  - apply base10_agrees.
Qed.

Lemma parseValidityOrDefault_spec_witness :
  parseValidityOrDefault (js "  ") = Some (of_int 30) /\
  (parseValidityOrDefault (js "7.5") = None <->
   ~ exists n, 0 < n /\ StringToNumber (trim (js "7.5")) = Fin n 0) /\
  parseValidityOrDefault (js " 15 ") = spec_resolveValidity (js " 15 ").
Proof.
  split; [|split].
  - apply (proj1 (parseValidityOrDefault_spec (js "  "))). reflexivity.
  - apply (proj1 (proj2 (proj2 (parseValidityOrDefault_spec (js "7.5"))))).
    vm_compute. discriminate.
  - apply (proj2 (proj2 (proj2 (parseValidityOrDefault_spec (js " 15 ")))) 15).
    + reflexivity.
    + vm_compute. reflexivity.
Defined.

End ValidatorFacts.

(* ------------------------------------------------------------------ *)
(** ** [isValidHttpUrl] *)

Section UrlFacts.
Context {P : platform}.

(** C4: [isValidHttpUrl] is [true] exactly when [new URL] accepts the
    string and the protocol of the result is [http:] or [https:]; it is
    [false] on every string that [new URL] rejects and on every other
    scheme; being a total function it lets no exception out.  In
    particular ["https://example.com"] gives [true], ["ftp://x"] and
    ["not a url"] give [false]. *)
Theorem isValidHttpUrl_spec (value : jsstring) :
  (isValidHttpUrl value = true <->
   exists u, new_URL value = Some u /\
             (protocol u = js "http:" \/ protocol u = js "https:")) /\
  (isValidHttpUrl value = false <->
   new_URL value = None \/
   exists u, new_URL value = Some u /\
             protocol u <> js "http:" /\ protocol u <> js "https:") /\
  isValidHttpUrl (js "https://example.com") = true /\
  isValidHttpUrl (js "ftp://x") = false /\
  isValidHttpUrl (js "not a url") = false.
Proof.
  assert (T : isValidHttpUrl value = true <->
              exists u, new_URL value = Some u /\
                        (protocol u = js "http:" \/ protocol u = js "https:")).
  { unfold isValidHttpUrl. destruct (new_URL value) as [u|].
    - rewrite orb_true_iff, !str_eqb_eq. split.
      + intros H. exists u. split; [reflexivity|exact H].
      + intros (u' & E & H). injection E as ->. exact H.
    - split; [discriminate|]. intros (u & E & _). discriminate. }
  split; [exact T|]. split; [|repeat split; vm_compute; reflexivity].
  unfold isValidHttpUrl. destruct (new_URL value) as [u|].
  - rewrite orb_false_iff, !str_eqb_neq. split.
    + intros H. right. exists u. split; [reflexivity|exact H].
    + intros [E|(u' & E & H)]; [discriminate|]. injection E as ->. exact H.
  - split; [intros _; left; reflexivity|reflexivity].
Qed.

End UrlFacts.

(* ------------------------------------------------------------------ *)
(** ** [handleSubmit] *)

Lemma parseValidityOrDefault_nonblank_iff (raw : jsstring) :
  trim raw <> [] ->
  (forall n, 0 < n -> StringToNumber (trim raw) = Fin n 0 ->
             parseValidityOrDefault raw = Some (Fin n 0)) /\
  (forall v, parseValidityOrDefault raw = Some v <->
             StringToNumber (trim raw) = v /\ exists n, 0 < n /\ v = Fin n 0).
Proof.
  intros Hne. rewrite (parseValidityOrDefault_nonblank raw Hne). cbv zeta.
  pose proof (StringToNumber_double (trim raw)) as D.
  assert (M1 : forall n, 0 < n -> StringToNumber (trim raw) = Fin n 0 ->
     (if isInteger (StringToNumber (trim raw)) && negb (le_zero (StringToNumber (trim raw)))
      then Some (StringToNumber (trim raw)) else None) = Some (Fin n 0)).
  { intros n Hn ->. rewrite isInteger_Fin0. simpl.
    destruct (Z.leb_spec n 0); [lia|reflexivity]. }
  split; [exact M1|]. intros v. split.
  - intros H.
    destruct (isInteger (StringToNumber (trim raw))) eqn:I; [|discriminate].
    destruct (le_zero (StringToNumber (trim raw))) eqn:L; [discriminate|].
    simpl in H. injection H as <-. split; [reflexivity|].
    apply whole_positive; assumption.
  - intros [E (n & Hn & ->)]. apply M1; assumption.
Qed.

Section SubmitFacts.
Context {P : platform}.
Variables (apiBaseUrl : jsstring) (w : world) (st : state).

Lemma nonempty_false (s : jsstring) : nonempty s = false <-> s = [].
Proof. destruct s; simpl; split; congruence. Qed.

Lemma nonempty_true (s : jsstring) : nonempty s = true <-> s <> [].
Proof. destruct s; simpl; split; congruence. Qed.

(** After the three checks, what [handleSubmit] does is decided by the
    exchange with the server. *)
Lemma handleSubmit_validated (minutes : number) :
  validated st minutes ->
  handleSubmit apiBaseUrl w st =
    match (r <- fetch w (request_of apiBaseUrl st minutes) ;; interpret w minutes r) with
    | Throw m =>
        {| requests := [request_of apiBaseUrl st minutes];
           settled := Some (failed st false (if nonempty m then m else msg_generic)) |}
    | Ok (generatedShortUrl, computedExpiry) =>
        {| requests := [request_of apiBaseUrl st minutes];
           settled :=
             match record (make_entry w (trim (longUrl st)) generatedShortUrl
                             computedExpiry minutes) (history st) with
             | None => None
             | Some h => Some (succeeded st generatedShortUrl computedExpiry h)
             end |}
    end.
Proof.
  intros (H1 & H2 & H3). unfold handleSubmit. rewrite H1, H2, H3. reflexivity.
Qed.

Lemma read_field (data : jsval) (key : string) :
  data <> VNull -> data <> VUndefined -> read data key = Ok (field data key).
Proof.
  intros H1 H2. unfold read, field.
  destruct data; try contradiction; simpl; try reflexivity.
  destruct (lookup (js key) props); reflexivity.
Qed.

Lemma js_or_first (a b c : jsval) :
  first_truthy [a; b; c] =
    (let v := js_or (js_or (js_or a b) c) (VStr []) in
     if truthy v then Some v else None).
Proof.
  unfold js_or. cbn [first_truthy]. cbv zeta.
  destruct (truthy a) eqn:A; rewrite ?A; try reflexivity.
  destruct (truthy b) eqn:B; rewrite ?B; try reflexivity.
  destruct (truthy c) eqn:C; rewrite ?C; reflexivity.
Qed.

Lemma js_or_first2 (d e : jsval) :
  first_truthy [d; e] =
    (let v := js_or (js_or d e) VNull in if truthy v then Some v else None).
Proof.
  unfold js_or. cbn [first_truthy]. cbv zeta.
  destruct (truthy d) eqn:D; rewrite ?D; try reflexivity.
  destruct (truthy e) eqn:E; rewrite ?E; reflexivity.
Qed.

(** What [interpret] makes of a 2xx response with a JSON body other than
    [null]. *)
Lemma interpret_json (minutes : number) (r : response) (text : jsstring) (data : jsval) :
  ok r = true -> body r = Ok text -> JSON_parse text = Some data ->
  data <> VNull -> data <> VUndefined ->
  interpret w minutes r =
    match first_truthy [field data "shortUrl"; field data "short_url"; field data "short"] with
    | Some u =>
        match expiry_of w data minutes with
        | Some e => Ok (u, e)
        | None => Throw msg_not_primitive
        end
    | None => Throw msg_unexpected
    end.
Proof.
  intros Hok Hb Hp N1 N2. rewrite js_or_first. unfold expiry_of. rewrite js_or_first2.
  unfold interpret, json_of. rewrite Hok, Hb. cbn [negb bind].
  rewrite Hp. cbn [bind]. rewrite !read_field by assumption. cbn [bind]. cbv zeta.
  destruct (truthy (js_or (js_or (js_or (field data "shortUrl") (field data "short_url"))
                                 (field data "short")) (VStr []))); cbn [negb]; [|reflexivity].
  destruct (truthy (js_or (js_or (field data "expiresAt") (field data "expires_at")) VNull));
    [|reflexivity].
  destruct (ToNumber _); reflexivity.
Qed.



Lemma parse_value_defined (fuel : nat) (s : jsstring) (v : jsval) (r : jsstring) :
  parse_value fuel s = Some (v, r) -> v <> VUndefined.
Proof.
  destruct fuel as [|f]; [discriminate|]. cbn [parse_value]. unfold literal.
  repeat match goal with
  | |- context [match ?x with _ => _ end] => destruct x
  end; intros H; try discriminate; injection H as <- _; discriminate.
Qed.

Lemma JSON_parse_defined (text : jsstring) (v : jsval) :
  JSON_parse text = Some v -> v <> VUndefined.
Proof.
  unfold JSON_parse.
  destruct (parse_value (S (List.length text)) text) as [[v' r]|] eqn:E; [|discriminate].
  destruct (skip_ws r); [|discriminate].
  intros H. injection H as <-. apply (parse_value_defined _ _ _ _ E).
Qed.

Lemma jsval_null_dec (v : jsval) : {v = VNull} + {v <> VNull}.
Proof. destruct v; (left; reflexivity) || (right; discriminate). Qed.

Lemma validated_unique (m1 m2 : number) :
  validated st m1 -> validated st m2 -> m1 = m2.
Proof. intros (_ & _ & H1) (_ & _ & H2). congruence. Qed.

Lemma message_nonempty (m : jsstring) : (if nonempty m then m else msg_generic) <> [].
Proof. destruct m; simpl; discriminate. Qed.

(** A successful answer is interpreted from its data. *)
Lemma submit_answered (minutes : number) (data : jsval) :
  validated st minutes -> answers w (request_of apiBaseUrl st minutes) data ->
  data <> VNull ->
  handleSubmit apiBaseUrl w st =
    match first_truthy [field data "shortUrl"; field data "short_url"; field data "short"] with
    | Some u =>
        {| requests := [request_of apiBaseUrl st minutes];
           settled :=
             match expiry_of w data minutes with
             | Some e =>
                 option_map (succeeded st u e)
                   (record (make_entry w (trim (longUrl st)) u e minutes) (history st))
             | None => Some (failed st false msg_conversion)
             end |}
    | None =>
        {| requests := [request_of apiBaseUrl st minutes];
           settled := Some (failed st false msg_unexpected) |}
    end.
Proof.
  intros V (r & text & F & Hok & Hb & Hp) N.
  rewrite (handleSubmit_validated minutes V), F. cbn [bind].
  rewrite (interpret_json minutes r text data Hok Hb Hp N (JSON_parse_defined _ _ Hp)).
  destruct (first_truthy _) as [u|]; [|reflexivity].
  destruct (expiry_of w data minutes) as [e|]; [|reflexivity].
  destruct (record _ _); reflexivity.
Qed.

(** Every call settles in a failed state with a message, or follows the
    success path. *)
Lemma submit_cases :
  (exists l m, m <> [] /\
     settled (handleSubmit apiBaseUrl w st) = Some (failed st l m)) \/
  (exists minutes u e,
     validated st minutes /\
     (r <- fetch w (request_of apiBaseUrl st minutes) ;; interpret w minutes r) = Ok (u, e) /\
     settled (handleSubmit apiBaseUrl w st) =
       option_map (succeeded st u e)
         (record (make_entry w (trim (longUrl st)) u e minutes) (history st))).
Proof.
  destruct (nonempty (trim (longUrl st))) eqn:H1.
  2:{ left. exists (isLoading st), msg_missing_url. split; [discriminate|].
      unfold handleSubmit. rewrite H1. reflexivity. }
  destruct (isValidHttpUrl (trim (longUrl st))) eqn:H2.
  2:{ left. exists (isLoading st), msg_invalid_url. split; [discriminate|].
      unfold handleSubmit. rewrite H1, H2. reflexivity. }
  destruct (parseValidityOrDefault (validityMinutes st)) as [minutes|] eqn:H3.
  2:{ left. exists (isLoading st), msg_invalid_validity. split; [discriminate|].
      unfold handleSubmit. rewrite H1, H2, H3. reflexivity. }
  assert (V : validated st minutes) by (repeat split; assumption).
  rewrite (handleSubmit_validated minutes V).
  destruct (r <- fetch w (request_of apiBaseUrl st minutes) ;; interpret w minutes r)
    as [[u e]|m] eqn:E.
  - right. exists minutes, u, e. split; [exact V|]. split; [exact E|].
    cbn [settled]. destruct (record _ _); reflexivity.
  - left. exists false, (if nonempty m then m else msg_generic).
    split; [apply message_nonempty|reflexivity].
Qed.


Lemma fmul_int (a b : Z) : Z.abs (a * b) < 2 ^ 53 -> fmul (Fin a 0) (Fin b 0) = Fin (a * b) 0.
Proof. intros H. unfold fmul. change (2 ^ Z.of_N (0 + 0)) with 1. apply of_Q_int, H. Qed.

Lemma fadd_int (a b : Z) : Z.abs (a + b) < 2 ^ 53 -> fadd (Fin a 0) (Fin b 0) = Fin (a + b) 0.
Proof.
  intros H. unfold fadd. change (2 ^ Z.of_N (0 + 0)) with 1.
  change (2 ^ Z.of_N 0) with 1. rewrite !Z.mul_1_r. apply of_Q_int, H.
Qed.

(** Below 2^53 the arithmetic of line 97 is exact. *)
Lemma derived_expiry_exact (now m : Z) :
  0 <= now -> 0 <= m -> now + m * 60000 < 2 ^ 53 ->
  fadd (clock_number now) (fmul (fmul (Fin m 0) (of_int 60)) (of_int 1000))
  = Fin (now + m * 60000) 0.
Proof.
  intros Hn Hm H. unfold clock_number, of_int.
  rewrite of_Q_int by lia.
  rewrite fmul_int by lia. rewrite fmul_int by lia. rewrite fadd_int by lia.
  f_equal. lia.
Qed.

(** C7: a submission whose long URL is empty after trimming issues no
    request and fails with the missing-URL message; a long URL that is not
    empty but that the validator rejects fails, also without a request,
    with the invalid-URL message, which is a different one. *)
Theorem submit_missing_url :
  (trim (longUrl st) = [] ->
   requests (handleSubmit apiBaseUrl w st) = [] /\
   settled (handleSubmit apiBaseUrl w st)
     = Some (failed st (isLoading st) msg_missing_url)) /\
  (trim (longUrl st) <> [] -> isValidHttpUrl (trim (longUrl st)) = false ->
   requests (handleSubmit apiBaseUrl w st) = [] /\
   settled (handleSubmit apiBaseUrl w st)
     = Some (failed st (isLoading st) msg_invalid_url)) /\
  msg_missing_url <> msg_invalid_url.
Proof.
  split; [|split].
  - intros H. unfold handleSubmit. rewrite H. split; reflexivity.
  - intros H1 H2. apply nonempty_true in H1. unfold handleSubmit.
    rewrite H1, H2. split; reflexivity.
  - discriminate.
Qed.

(** C6: when the checks pass and the server answers with a status that is
    not 2xx, the submission fails with the body text as its message when
    the body is not empty, and with the fallback [Failed to shorten URL]
    when it is; the history is as it was. *)
Theorem submit_http_error (minutes : number) (r : response) (text : jsstring) :
  validated st minutes ->
  fetch w (request_of apiBaseUrl st minutes) = Ok r ->
  ok r = false -> body r = Ok text ->
  settled (handleSubmit apiBaseUrl w st)
    = Some (failed st false (if nonempty text then text else msg_failed)) /\
  (text <> [] ->
   option_map errorMessage (settled (handleSubmit apiBaseUrl w st)) = Some text) /\
  (text = [] ->
   option_map errorMessage (settled (handleSubmit apiBaseUrl w st)) = Some msg_failed).
Proof.
  intros V F Hok Hb.
  assert (E : settled (handleSubmit apiBaseUrl w st)
              = Some (failed st false (if nonempty text then text else msg_failed))).
  { rewrite (handleSubmit_validated minutes V), F. cbn [bind].
    unfold interpret. rewrite Hok, Hb. cbn [negb bind settled].
    destruct text; reflexivity. }
  split; [exact E|]. rewrite E. split.
  - intros H. apply nonempty_true in H. rewrite H. reflexivity.
  - intros ->. reflexivity.
Qed.

(** C10: a submission that surfaces an error message leaves the history
    as it was, and so does every failure of the taxonomy (missing URL,
    invalid URL, invalid validity, transport error, unreadable body,
    non-2xx status, body that is not JSON, no short URL in the answer):
    each settles with a message, an empty short URL, no expiry and the
    same history.  Only the success path changes the collection. *)
Theorem submit_failure_keeps_history :
  (forall st', settled (handleSubmit apiBaseUrl w st) = Some st' ->
               errorMessage st' <> [] -> history st' = history st) /\
  (failure apiBaseUrl w st ->
   exists st', settled (handleSubmit apiBaseUrl w st) = Some st' /\
               errorMessage st' <> [] /\ history st' = history st /\
               shortUrl st' = VStr [] /\ expiresAt st' = VNull).
Proof.
  split.
  - intros st' H Hm.
    destruct submit_cases as [(l & m & _ & E)|(minutes & u & e & _ & _ & E)];
      rewrite E in H.
    + injection H as <-. reflexivity.
    + destruct (record _ _); [|discriminate]. injection H as <-.
      exfalso. apply Hm. reflexivity.
  - intros Fail.
    destruct submit_cases as [(l & m & Hm & E)|(minutes & u & e & V & I & E)].
    + exists (failed st l m). repeat split; assumption.
    + exfalso. destruct V as (V1 & V2 & V3).
      assert (Same : forall m', validated st m' -> m' = minutes).
      { intros m' (_ & _ & H). congruence. }
      destruct Fail as [H|H|H|m' m V' F|m' r m V' F B|m' r V' F O|m' r t V' F O B J
                       |m' data V' (r & t & F & O & B & J) T].
      * apply nonempty_false in H. congruence.
      * congruence.
      * congruence.
      * rewrite (Same _ V') in F. rewrite F in I. discriminate.
      * rewrite (Same _ V') in F. rewrite F in I. cbn [bind] in I.
        unfold interpret, json_of in I. rewrite B in I.
        destruct (ok r); discriminate.
      * rewrite (Same _ V') in F. rewrite F in I. cbn [bind] in I.
        unfold interpret in I. rewrite O in I. cbn [negb] in I.
        destruct (body r); discriminate.
      * rewrite (Same _ V') in F. rewrite F in I. cbn [bind] in I.
        unfold interpret, json_of in I. rewrite O, B in I. cbn [negb bind] in I.
        rewrite J in I. discriminate.
      * rewrite (Same _ V') in F. rewrite F in I. cbn [bind] in I.
        destruct (jsval_null_dec data) as [->|N].
        -- unfold interpret, json_of in I. rewrite O, B in I. cbn [negb bind] in I.
           rewrite J in I. discriminate.
        -- rewrite (interpret_json minutes r t data O B J N (JSON_parse_defined _ _ J)), T in I.
           discriminate.
Qed.



(** C1, amended: on a 2xx answer whose JSON body is not [null] and holds
    a truthy short URL, the expiry comes from the first truthy value
    among [expiresAt] and [expires_at].  When [Number] converts that
    value, the state is set to the short URL and to that number; when
    [Number] throws, which it does on an object with a [toString]
    property and on an array that holds one, the submission fails with
    the message of that TypeError.  When neither field holds a truthy
    value (the key is absent, or holds 0, the empty string, [null] or
    [false]) the expiry is [Date.now() + minutes * 60 * 1000] in binary64
    arithmetic, which is exactly [now + minutes * 60000] as long as that
    stays below 2^53.  The resolved minutes are a whole number above 0. *)
Theorem submit_expiry (minutes : number) (data u : jsval) :
  validated st minutes -> answers w (request_of apiBaseUrl st minutes) data ->
  data <> VNull ->
  first_truthy [field data "shortUrl"; field data "short_url"; field data "short"]
    = Some u ->
  match first_truthy [field data "expiresAt"; field data "expires_at"] with
  | Some x =>
      match ToNumber x with
      | Some n =>
          forall st', settled (handleSubmit apiBaseUrl w st) = Some st' ->
                      shortUrl st' = u /\ expiresAt st' = VNum n
      | None =>
          settled (handleSubmit apiBaseUrl w st) = Some (failed st false msg_conversion)
      end
  | None =>
      forall st', settled (handleSubmit apiBaseUrl w st) = Some st' ->
        shortUrl st' = u /\
        expiresAt st'
          = VNum (fadd (clock_number (now_expiry w))
                       (fmul (fmul minutes (of_int 60)) (of_int 1000))) /\
        exists m, 0 < m /\ minutes = Fin m 0 /\
          (0 <= now_expiry w -> now_expiry w + m * 60000 < 2 ^ 53 ->
           expiresAt st' = VNum (Fin (now_expiry w + m * 60000) 0))
  end.
Proof.
  intros V A N T.
  rewrite (submit_answered minutes data V A N), T. cbn [settled]. unfold expiry_of.
  destruct (first_truthy [field data "expiresAt"; field data "expires_at"]) as [x|].
  - destruct (ToNumber x) as [n|]; [|reflexivity].
    intros st' S. destruct (record _ _); [|discriminate]. injection S as <-.
    split; reflexivity.
  - intros st' S. destruct (record _ _); [|discriminate]. injection S as <-.
    split; [reflexivity|]. split; [reflexivity|]. cbn [expiresAt succeeded].
    destruct V as (_ & _ & PV).
    assert (W : exists m, 0 < m /\ minutes = Fin m 0).
    { destruct (trim (validityMinutes st)) as [|c t] eqn:E.
      - rewrite (parseValidityOrDefault_blank _ E) in PV. injection PV as <-.
        exists 30. split; [lia|reflexivity].
      - assert (Hne : trim (validityMinutes st) <> []) by (rewrite E; discriminate).
        destruct (proj1 (proj2 (parseValidityOrDefault_nonblank_iff _ Hne) minutes) PV)
          as [_ H]. exact H. }
    destruct W as (m & Hm & ->). exists m. split; [exact Hm|]. split; [reflexivity|].
    intros Hn Hlt. rewrite derived_expiry_exact by lia. reflexivity.
Qed.

End SubmitFacts.

Section SubmitExamples.

Lemma submit_missing_url_witness :
  requests (handleSubmit (P := sample_platform) [] (sample_world (Throw []) 0 0)
              (sample_state "   " "")) = [] /\
  option_map errorMessage
    (settled (handleSubmit (P := sample_platform) [] (sample_world (Throw []) 0 0)
                (sample_state "mailto:someone" ""))) = Some msg_invalid_url.
Proof.
  split.
  - apply (proj1 (submit_missing_url (P := sample_platform) []
                    (sample_world (Throw []) 0 0) (sample_state "   " ""))).
    reflexivity.
  - rewrite (proj2 (proj1 (proj2 (submit_missing_url (P := sample_platform) []
                    (sample_world (Throw []) 0 0) (sample_state "mailto:someone" "")))
                    ltac:(vm_compute; discriminate) ltac:(vm_compute; reflexivity))).
    reflexivity.
Defined.

Lemma submit_http_error_witness :
  option_map errorMessage
    (settled (handleSubmit (P := sample_platform) []
                (sample_world (responds false (js "alias taken")) 0 0)
                (sample_state "https://example.com/a" "")))
  = Some (js "alias taken").
Proof.
  refine (proj1 (proj2 (submit_http_error (P := sample_platform) [] _ _ (of_int 30)
                          {| ok := false; body := Ok (js "alias taken") |}
                          (js "alias taken") _ _ _ _)) _).
  - split; [|split]; vm_compute; reflexivity.
  - reflexivity.
  - reflexivity.
  - reflexivity.
  - discriminate.
Defined.




(** C1, as the specification states it, fails: in the body
    [{"shortUrl":"https://s/x","expiresAt":0}] the field [expiresAt] is
    present and reads as the number 0, yet the surfaced expiry is the
    locally derived [now + 30 * 60000]. *)
Lemma expiry_zero_counterexample :
  JSON_parse (json_text "{'shortUrl':'https://s/x','expiresAt':0}")
    = Some (VObj [(js "shortUrl", VStr (js "https://s/x")); (js "expiresAt", VNum (of_int 0))]) /\
  present (VObj [(js "shortUrl", VStr (js "https://s/x")); (js "expiresAt", VNum (of_int 0))])
          "expiresAt" /\
  ToNumber (field (VObj [(js "shortUrl", VStr (js "https://s/x"));
                         (js "expiresAt", VNum (of_int 0))]) "expiresAt") = Some (of_int 0) /\
  option_map expiresAt
    (settled (handleSubmit (P := sample_platform) []
                (sample_world
                   (responds true (json_text "{'shortUrl':'https://s/x','expiresAt':0}"))
                   1700000000000 1700000000000)
                (sample_state "https://example.com/a" "")))
  = Some (VNum (of_int 1700001800000)).
Proof.
  split; [vm_compute; reflexivity|]. split; [vm_compute; discriminate|].
  split; vm_compute; reflexivity.
Qed.

(** The example of the specification: the server's [expires_at] wins over
    the local derivation; and an expiry that [Number] cannot convert ends
    the submission with the message of the TypeError. *)
Lemma submit_expiry_witness :
  (exists st',
     settled (handleSubmit (P := sample_platform) []
                (sample_world
                   (responds true
                      (json_text "{'short_url':'https://s/x','expires_at':1700000000000}"))
                   1600000000000 1600000000000)
                (sample_state "https://example.com/a" "")) = Some st' /\
     shortUrl st' = VStr (js "https://s/x") /\
     expiresAt st' = VNum (of_int 1700000000000)) /\
  settled (handleSubmit (P := sample_platform) []
             (sample_world
                (responds true
                   (json_text "{'shortUrl':'https://s/x','expiresAt':{'toString':1}}"))
                1600000000000 1600000000000)
             (sample_state "https://example.com/a" ""))
  = Some (failed (sample_state "https://example.com/a" "") false
            (js "Cannot convert object to primitive value")).
Proof.
  split.
  - eexists. split; [vm_compute; reflexivity|].
    refine (submit_expiry (P := sample_platform) []
              (sample_world
                 (responds true
                    (json_text "{'short_url':'https://s/x','expires_at':1700000000000}"))
                 1600000000000 1600000000000)
              (sample_state "https://example.com/a" "") (of_int 30)
              (VObj [(js "short_url", VStr (js "https://s/x"));
                     (js "expires_at", VNum (of_int 1700000000000))])
              (VStr (js "https://s/x")) _ _ _ _ _ _).
    + split; [|split]; vm_compute; reflexivity.
    + eexists _, _. repeat split; vm_compute; reflexivity.
    + discriminate.
    + reflexivity.
    + vm_compute. reflexivity.
  - refine (submit_expiry (P := sample_platform) []
              (sample_world
                 (responds true
                    (json_text "{'shortUrl':'https://s/x','expiresAt':{'toString':1}}"))
                 1600000000000 1600000000000)
              (sample_state "https://example.com/a" "") (of_int 30)
              (VObj [(js "shortUrl", VStr (js "https://s/x"));
                     (js "expiresAt", VObj [(js "toString", VNum (of_int 1))])])
              (VStr (js "https://s/x")) _ _ _ _).
    + split; [|split]; vm_compute; reflexivity.
    + eexists _, _. repeat split; vm_compute; reflexivity.
    + discriminate.
    + reflexivity.
Defined.

Lemma submit_failure_keeps_history_witness :
  exists st',
    settled (handleSubmit (P := sample_platform) []
               (sample_world (responds true (json_text "<html>")) 0 0)
               (sample_state "https://example.com/a" "")) = Some st' /\
    errorMessage st' <> [] /\
    history st' = history (sample_state "https://example.com/a" "") /\
    shortUrl st' = VStr [] /\ expiresAt st' = VNull.
Proof.
  apply (proj2 (submit_failure_keeps_history (P := sample_platform) [] _ _)).
  apply (NotJson _ _ _ (of_int 30) {| ok := true; body := Ok (json_text "<html>") |}
           (json_text "<html>")).
  - split; [|split]; vm_compute; reflexivity.
  - reflexivity.
  - reflexivity.
  - reflexivity.
  - vm_compute. reflexivity.
Defined.

End SubmitExamples.

(* ------------------------------------------------------------------ *)
(** ** Decimal numerals and the JSON number parser *)

Section DigitFacts.

Lemma digits_value_acc (l : jsstring) (acc : Z) :
  fold_left (fun a c => 10 * a + digit_val c) l acc
  = acc * 10 ^ Z.of_nat (List.length l) + digits_value l.
Proof.
  unfold digits_value. revert acc.
  induction l as [|c l IH]; intros acc.
  - simpl. lia.
  - cbn [fold_left List.length]. rewrite IH, (IH (10 * 0 + digit_val c)).
    rewrite Nat2Z.inj_succ, Z.pow_succ_r by lia. ring.
Qed.

Lemma digits_value_app (a b : jsstring) :
  digits_value (a ++ b) = digits_value a * 10 ^ Z.of_nat (List.length b) + digits_value b.
Proof.
  unfold digits_value at 1. rewrite fold_left_app.
  fold (digits_value a). apply digits_value_acc.
Qed.

Lemma digits_value_cons (c : N) (l : jsstring) :
  digits_value (c :: l) = digit_val c * 10 ^ Z.of_nat (List.length l) + digits_value l.
Proof.
  change (c :: l) with ([c] ++ l). rewrite digits_value_app.
  unfold digits_value at 1. simpl fold_left. lia.
Qed.

Lemma digits_value_zeros (n : nat) : digits_value (repeat 48%N n) = 0.
Proof.
  induction n as [|n IH]; [reflexivity|].
  cbn [repeat]. rewrite digits_value_cons, IH. reflexivity.
Qed.

Lemma digit_char_spec (d : Z) :
  0 <= d <= 9 ->
  is_digit (digit_char d) = true /\ digit_val (digit_char d) = d /\
  (digit_char d = 48%N <-> d = 0).
Proof.
  intros H. unfold digit_char, is_digit, digit_val.
  assert (E : Z.of_N (Z.to_N (48 + d)) = 48 + d) by (apply Z2N.id; lia).
  repeat split.
  - apply andb_true_iff. split; apply N.leb_le; lia.
  - lia.
  - intros H0. lia.
  - intros ->. reflexivity.
Qed.

Lemma digits_fuel_app (f : nat) : forall (z : Z) (acc : jsstring),
  digits_fuel f z acc = digits_fuel f z [] ++ acc.
Proof.
  induction f as [|f IH]; intros z acc; [reflexivity|].
  cbn [digits_fuel]. destruct (z <? 10); [reflexivity|].
  rewrite IH, (IH _ [_]), <- app_assoc. reflexivity.
Qed.

Lemma digits_fuel_S (f : nat) (z : Z) (acc : jsstring) :
  digits_fuel (S f) z acc =
    if z <? 10 then digit_char z :: acc
    else digits_fuel f (z / 10) (digit_char (z mod 10) :: acc).
Proof. reflexivity. Qed.

Lemma digits_fuel_numeral (f : nat) : forall z : Z,
  0 <= z < 2 ^ Z.of_nat (S f) -> numeral z (digits_fuel (S f) z []).
Proof.
  induction f as [|f IH]; intros z Hz.
  - (* z is 0 or 1 *)
    change (2 ^ Z.of_nat 1) with 2 in Hz. cbn [digits_fuel].
    destruct (Z.ltb_spec z 10); [|lia].
    destruct (digit_char_spec z ltac:(lia)) as (D1 & D2 & D3).
    repeat split.
    + unfold digits_value. simpl. lia.
    + simpl. rewrite D1. reflexivity.
    + discriminate.
    + simpl. intros Hp E. apply D3 in E. lia.
  - rewrite digits_fuel_S. destruct (Z.ltb_spec z 10) as [L|L].
    + destruct (digit_char_spec z ltac:(lia)) as (D1 & D2 & D3).
      repeat split.
      * unfold digits_value. simpl. lia.
      * simpl. rewrite D1. reflexivity.
      * discriminate.
      * simpl. intros Hp E. apply D3 in E. lia.
    + rewrite digits_fuel_app.
      assert (Hq : 0 <= z / 10 < 2 ^ Z.of_nat (S f)).
      { split; [apply Z.div_pos; lia|].
        apply Z.div_lt_upper_bound; [lia|].
        rewrite (Nat2Z.inj_succ (S f)), Z.pow_succ_r in Hz by lia. lia. }
      destruct (IH (z / 10) Hq) as (V & A & NE & LZ).
      pose proof (Z.mod_pos_bound z 10 ltac:(lia)) as Hm.
      destruct (digit_char_spec (z mod 10) ltac:(lia)) as (D1 & D2 & D3).
      repeat split.
      * rewrite digits_value_app, V. unfold digits_value at 1. simpl.
        rewrite D2. pose proof (Z.div_mod z 10 ltac:(lia)). lia.
      * rewrite forallb_app, A. simpl. rewrite D1. reflexivity.
      * destruct (digits_fuel (S f) (z / 10) []); [congruence|discriminate].
      * intros _.
        assert (0 < z / 10) by (apply Z.div_str_pos; lia).
        specialize (LZ H).
        destruct (digits_fuel (S f) (z / 10) []); [congruence|exact LZ].
Qed.

Lemma to_digits_numeral (z : Z) : 0 <= z -> numeral z (to_digits z).
Proof.
  intros Hz. unfold to_digits. apply digits_fuel_numeral. split; [exact Hz|].
  destruct (Z.eq_dec z 0) as [->|NZ]; [simpl; lia|].
  pose proof (Z.log2_spec z ltac:(lia)) as [_ H].
  pose proof (Z.log2_nonneg z).
  rewrite Nat2Z.inj_succ, Z2Nat.id by lia. exact H.
Qed.

Lemma strip_zeros_rev_spec (r : jsstring) :
  exists z, r = repeat 48%N z ++ strip_zeros_rev r /\ hd 49%N (strip_zeros_rev r) <> 48%N.
Proof.
  induction r as [|c r (z & E & H)].
  - exists O. split; [reflexivity|discriminate].
  - destruct (N.eq_dec c 48) as [->|NE].
    + exists (S z). cbn [strip_zeros_rev repeat]. split; [|exact H].
      simpl. f_equal. exact E.
    + exists O. assert (S : strip_zeros_rev (c :: r) = c :: r).
      { destruct c as [|p]; [reflexivity|].
        repeat (destruct p as [p|p|]; try reflexivity). congruence. }
      rewrite S. split; [reflexivity|exact NE].
Qed.

Lemma rev_repeat {A : Type} (x : A) (n : nat) : rev (repeat x n) = repeat x n.
Proof.
  induction n as [|n IH]; [reflexivity|].
  cbn [repeat rev]. rewrite IH. clear IH.
  induction n as [|n IH]; [reflexivity|]. cbn [repeat app]. rewrite IH. reflexivity.
Qed.

(** Stripping the trailing zeros of the numeral of a positive [s] leaves
    the numeral of [s / 10^z], [z] the number of zeros stripped. *)
Lemma strip_trailing_zeros_numeral (s : Z) (ds : jsstring) :
  0 < s -> numeral s ds ->
  exists (z : nat) (s' : Z),
    ds = strip_trailing_zeros ds ++ repeat 48%N z /\
    0 < s' /\ s = s' * 10 ^ Z.of_nat z /\
    numeral s' (strip_trailing_zeros ds).
Proof.
  intros Hs (V & A & NE & LZ). specialize (LZ Hs).
  unfold strip_trailing_zeros.
  destruct (strip_zeros_rev_spec (rev ds)) as (z & E & H).
  set (r := strip_zeros_rev (rev ds)) in *.
  assert (E' : ds = rev r ++ repeat 48%N z).
  { rewrite <- (rev_involutive ds), E, rev_app_distr, rev_repeat. reflexivity. }
  assert (Ar : forallb is_digit (rev r) = true).
  { rewrite E', forallb_app in A. apply andb_true_iff in A. tauto. }
  assert (Nr : rev r <> []).
  { intros N0. rewrite N0 in E'. simpl in E'.
    destruct z as [|z]; simpl in E'; [congruence|]. rewrite E' in LZ. simpl in LZ. congruence. }
  assert (Hd : hd 48%N (rev r) = hd 48%N ds).
  { destruct (rev r) as [|c r'] eqn:Er; [congruence|]. rewrite E'. reflexivity. }
  exists z, (digits_value (rev r)).
  assert (Vs : s = digits_value (rev r) * 10 ^ Z.of_nat z).
  { rewrite <- V, E' at 1. rewrite digits_value_app, digits_value_zeros, repeat_length. lia. }
  assert (Pz : 0 < 10 ^ Z.of_nat z) by (apply Z.pow_pos_nonneg; lia).
  split; [exact E'|]. split; [nia|]. split; [exact Vs|].
  repeat split; try assumption. intros _. rewrite Hd. exact LZ.
Qed.

End DigitFacts.

Section NumberParseFacts.

Lemma is_digit_range (c : N) : is_digit c = true <-> (48 <= c <= 57)%N.
Proof.
  unfold is_digit. rewrite andb_true_iff, !N.leb_le. tauto.
Qed.

Lemma is_digit_false (c : N) : is_digit c = false <-> ~ (48 <= c <= 57)%N.
Proof.
  rewrite <- is_digit_range. destruct (is_digit c); split; congruence.
Qed.

Lemma span_app (p : N -> bool) (ds rest : jsstring) :
  forallb p ds = true ->
  match rest with [] => True | c :: _ => p c = false end ->
  span p (ds ++ rest) = (ds, rest).
Proof.
  induction ds as [|c ds IH]; simpl; intros H R.
  - destruct rest as [|c r]; [reflexivity|]. simpl. rewrite R. reflexivity.
  - apply andb_true_iff in H. destruct H as [-> H]. rewrite (IH H R). reflexivity.
Qed.

Lemma terminated_head (rest : jsstring) :
  terminated rest ->
  match rest with
  | [] => True
  | c :: _ => is_digit c = false /\ c <> 46%N /\ c <> 101%N /\ c <> 69%N
             /\ is_json_ws c = false
  end.
Proof.
  destruct rest as [|c r]; [auto|]. simpl.
  intros [-> | [-> | ->]]; repeat split; discriminate.
Qed.

Lemma terminated_not_digit (rest : jsstring) :
  terminated rest -> match rest with [] => True | c :: _ => is_digit c = false end.
Proof.
  intros T. apply terminated_head in T. destruct rest; [exact I|tauto].
Qed.

Lemma parse_json_exponent_none (rest : jsstring) :
  terminated rest -> parse_json_exponent rest = Some (0, rest).
Proof.
  intros T. apply terminated_head in T. destruct rest as [|c r]; [reflexivity|].
  destruct T as (_ & _ & H1 & H2 & _). unfold parse_json_exponent.
  destruct (N.eqb_spec c 101); [congruence|].
  destruct (N.eqb_spec c 69); [congruence|]. reflexivity.
Qed.

Lemma parse_json_exponent_some (sg : N) (ed rest : jsstring) :
  sg = 43%N \/ sg = 45%N -> ed <> [] -> forallb is_digit ed = true ->
  terminated rest ->
  parse_json_exponent (101%N :: sg :: ed ++ rest)
  = Some ((if (sg =? 45)%N then -1 else 1) * digits_value ed, rest).
Proof.
  intros Hsg NE Hd T. unfold parse_json_exponent. simpl N.eqb. cbn [orb].
  assert (S : (if (sg =? 43)%N then (1, ed ++ rest)
               else if (sg =? 45)%N then (-1, ed ++ rest) else (1, sg :: ed ++ rest))
              = ((if (sg =? 45)%N then -1 else 1), ed ++ rest)).
  { destruct Hsg as [-> | ->]; reflexivity. }
  rewrite S, (span_app is_digit ed rest Hd (terminated_not_digit rest T)).
  destruct ed; [congruence|reflexivity].
Qed.

Lemma parse_json_fraction_none (s : jsstring) :
  match s with [] => True | c :: _ => c <> 46%N end ->
  parse_json_fraction s = Some ([], s).
Proof.
  destruct s as [|c x]; [reflexivity|]. intros H. unfold parse_json_fraction.
  destruct (N.eqb_spec c 46); [congruence|reflexivity].
Qed.

Lemma parse_json_fraction_some (fp s3 : jsstring) :
  fp <> [] -> forallb is_digit fp = true ->
  match s3 with [] => True | c :: _ => is_digit c = false end ->
  parse_json_fraction (46%N :: fp ++ s3) = Some (fp, s3).
Proof.
  intros NE Hd H. unfold parse_json_fraction. simpl N.eqb. cbv iota.
  rewrite (span_app is_digit fp s3 Hd H). destruct fp; [congruence|reflexivity].
Qed.

(** The number parser on a literal given by its parts: integer digits,
    fraction digits (none: no point), exponent sign and digits. *)
Lemma parse_json_unsigned_parts (ip fp : jsstring) (ex : option (N * jsstring))
    (rest : jsstring) :
  forallb is_digit ip = true -> ip <> [] ->
  (hd 48%N ip <> 48%N \/ ip = [48%N]) ->
  forallb is_digit fp = true -> exponent_ok ex -> terminated rest ->
  parse_json_unsigned (ip ++ fraction_text fp ++ exponent_text ex ++ rest)
  = Some (decimal_value (digits_value (ip ++ fp))
            (exponent_of ex - Z.of_nat (List.length fp)), rest).
Proof.
  intros Hip NE LZ Hfp Hex T.
  pose proof (terminated_head rest T) as TH.
  assert (X : parse_json_exponent (exponent_text ex ++ rest) = Some (exponent_of ex, rest)).
  { destruct ex as [[sg ed]|].
    - destruct Hex as (H1 & H2 & H3). apply parse_json_exponent_some; assumption.
    - apply parse_json_exponent_none, T. }
  assert (XH : match exponent_text ex ++ rest with
               | [] => True
               | c :: _ => is_digit c = false /\ c <> 46%N
               end).
  { destruct ex as [[sg ed]|]; simpl.
    - split; [reflexivity|discriminate].
    - destruct rest; [exact I|tauto]. }
  unfold parse_json_unsigned.
  rewrite (span_app is_digit ip).
  2: exact Hip.
  2:{ destruct fp; simpl; [|reflexivity].
      destruct (exponent_text ex ++ rest); [exact I|tauto]. }
  destruct ip as [|c ip'] eqn:Eip; [congruence|].
  assert (L0 : (c =? 48)%N && nonempty ip' = false).
  { destruct LZ as [H|H].
    - simpl in H. destruct (N.eqb_spec c 48); [congruence|reflexivity].
    - injection H as -> ->. reflexivity. }
  rewrite L0.
  destruct fp as [|f0 fp'] eqn:Efp.
  - simpl fraction_text. simpl app at 1.
    rewrite parse_json_fraction_none.
    2:{ destruct (exponent_text ex ++ rest); [exact I|tauto]. }
    rewrite X. reflexivity.
  - unfold fraction_text. rewrite <- app_comm_cons.
    rewrite parse_json_fraction_some; [|discriminate|exact Hfp|].
    2:{ destruct (exponent_text ex ++ rest); [exact I|tauto]. }
    rewrite X. reflexivity.
Qed.

End NumberParseFacts.

(* ------------------------------------------------------------------ *)
(** ** Number::toString and back *)

Section NumberPrintFacts.

Lemma pow10_pos (e : Z) : 0 <= e -> 0 < 10 ^ e.
Proof. intros; apply Z.pow_pos_nonneg; lia. Qed.

Lemma decimal_value_shift (s e z : Z) :
  0 <= z -> decimal_value (s * 10 ^ z) e = decimal_value s (e + z).
Proof.
  intros Hz. unfold decimal_value.
  apply of_Q_ratio; try (apply pow10_pos; lia).
  transitivity (s * 10 ^ (z + Z.max 0 e + Z.max 0 (- (e + z)))).
  - rewrite !Z.pow_add_r by lia. ring.
  - replace (z + Z.max 0 e + Z.max 0 (- (e + z))) with (Z.max 0 (e + z) + Z.max 0 (- e)) by lia.
    rewrite Z.pow_add_r by lia. ring.
Qed.

Lemma number_eqb_eq (x y : number) : number_eqb x y = true -> x = y.
Proof.
  destruct x as [|a|n k], y as [|b|m j]; simpl; try discriminate; auto.
  - intros H. apply eqb_prop in H. congruence.
  - intros H. apply andb_true_iff in H. destruct H as [H1 H2].
    apply Z.eqb_eq in H1. apply N.eqb_eq in H2. congruence.
Qed.

Lemma number_eqb_refl (x : number) : number_eqb x x = true.
Proof.
  destruct x as [|a|n k]; simpl; auto.
  - apply eqb_reflx.
  - rewrite Z.eqb_refl, N.eqb_refl. reflexivity.
Qed.

Lemma candidate_reads_back (x : number) (p q n kk s n' : Z) :
  candidate x p q n kk = Some (s, n') -> reads_back x s n' = true.
Proof.
  unfold candidate.
  set (e := n - kk). set (num := p * 10 ^ Z.max 0 (- e)). set (den := q * 10 ^ Z.max 0 e).
  set (lo := num / den). set (r := num mod den).
  set (hi := if lo + 1 =? 10 ^ kk then (1, n + 1) else (lo + 1, n)).
  destruct ((10 ^ (kk - 1) <=? lo) && (lo <? 10 ^ kk) && reads_back x lo n) eqn:A;
  destruct (negb (r =? 0) && (lo <? 10 ^ kk) && reads_back x (fst hi) (snd hi)) eqn:B;
    try discriminate.
  - apply andb_true_iff in A. destruct A as [_ A].
    apply andb_true_iff in B. destruct B as [_ B].
    destruct (2 * r ?= den); [destruct (Z.even lo)| |]; intros H;
      first [ injection H as <- <-; exact A
            | injection H as H; rewrite H in B; exact B ].
  - apply andb_true_iff in A. destruct A as [_ A].
    intros H; injection H as <- <-. exact A.
  - apply andb_true_iff in B. destruct B as [_ B].
    intros H. injection H as H. rewrite H in B. exact B.
Qed.

Lemma shortest_reads_back (fuel : nat) (a : Z) (k : N) : forall n kk : Z,
  0 < a -> is_double (Fin a k) = true ->
  reads_back (Fin a k) (fst (shortest fuel (Fin a k) a (2 ^ Z.of_N k) n kk k))
                       (snd (shortest fuel (Fin a k) a (2 ^ Z.of_N k) n kk k)) = true.
Proof.
  intros n kk Ha D. revert kk.
  induction fuel as [|f IH]; intros kk.
  - cbn [shortest fst snd]. unfold reads_back.
    assert (P5 : 0 < 5 ^ Z.of_N k) by (apply Z.pow_pos_nonneg; lia).
    assert (Hs : 0 < a * 5 ^ Z.of_N k) by nia.
    apply andb_true_iff. split; [apply Z.ltb_lt; exact Hs|].
    replace (Z.of_nat (List.length (to_digits (a * 5 ^ Z.of_N k))) - Z.of_N k
             - Z.of_nat (List.length (to_digits (a * 5 ^ Z.of_N k))))
      with (- Z.of_N k) by lia.
    unfold decimal_value.
    rewrite (of_Q_exact _ _ a k); [apply number_eqb_refl| |  |exact D].
    + apply pow10_pos. lia.
    + replace (Z.max 0 (- Z.of_N k)) with 0 by lia.
      replace (Z.max 0 (- - Z.of_N k)) with (Z.of_N k) by lia.
      rewrite Z.pow_0_r, Z.mul_1_r.
      replace 10 with (5 * 2) by reflexivity. rewrite Z.pow_mul_l. ring.
  - cbn [shortest].
    destruct (candidate (Fin a k) a (2 ^ Z.of_N k) n kk) as [[s n']|] eqn:C.
    + cbn [fst snd]. apply (candidate_reads_back _ _ _ _ _ _ _ C).
    + apply IH.
Qed.

(** The literal that [format_decimal] writes, by its parts. *)
Lemma format_decimal_parts (ds : jsstring) (s n : Z) :
  numeral s ds -> 0 < s ->
  exists ip fp ex,
    format_decimal ds n = ip ++ fraction_text fp ++ exponent_text ex /\
    forallb is_digit ip = true /\ ip <> [] /\
    (hd 48%N ip <> 48%N \/ ip = [48%N]) /\
    forallb is_digit fp = true /\ exponent_ok ex /\
    decimal_value (digits_value (ip ++ fp)) (exponent_of ex - Z.of_nat (List.length fp))
    = decimal_value s (n - Z.of_nat (List.length ds)).
Proof.
  intros (V & A & NE & LZ) Hs. specialize (LZ Hs).
  unfold format_decimal. set (k := Z.of_nat (List.length ds)).
  assert (Hk : 0 < k).
  { unfold k. destruct ds; [congruence|]. simpl List.length. lia. }
  destruct ((k <=? n) && (n <=? 21)) eqn:C1.
  - (* digits, then zeros *)
    apply andb_true_iff in C1. destruct C1 as [C1 _]. apply Z.leb_le in C1.
    exists (ds ++ zeros (n - k)), [], None.
    assert (Az : forallb is_digit (zeros (n - k)) = true).
    { unfold zeros. induction (Z.to_nat (n - k)); [reflexivity|exact IHn0]. }
    split; [rewrite app_assoc; simpl; rewrite !app_nil_r; reflexivity|].
    split; [rewrite forallb_app, A, Az; reflexivity|].
    split; [destruct ds; [congruence|discriminate]|].
    split; [left; destruct ds; [congruence|exact LZ]|].
    split; [reflexivity|]. split; [exact I|].
    rewrite app_nil_r, digits_value_app, V. unfold zeros.
    rewrite digits_value_zeros, repeat_length, Z2Nat.id, Z.add_0_r by lia.
    simpl exponent_of. simpl List.length.
    rewrite decimal_value_shift by lia. f_equal; lia.
  - destruct ((0 <? n) && (n <=? 21)) eqn:C2.
    + (* a point inside the digits *)
      apply andb_true_iff in C2. destruct C2 as [C2 C2']. apply Z.ltb_lt in C2.
      apply Z.leb_le in C2'.
      assert (Hn : n < k).
      { apply andb_false_iff in C1. destruct C1 as [C1|C1]; apply Z.leb_gt in C1; lia. }
      exists (firstn (Z.to_nat n) ds), (skipn (Z.to_nat n) ds), None.
      assert (Lf : List.length (firstn (Z.to_nat n) ds) = Z.to_nat n).
      { apply firstn_length_le. unfold k in Hn. lia. }
      assert (Ls : List.length (skipn (Z.to_nat n) ds) = (List.length ds - Z.to_nat n)%nat).
      { apply length_skipn. }
      assert (Sp : ds = firstn (Z.to_nat n) ds ++ skipn (Z.to_nat n) ds)
        by (symmetry; apply firstn_skipn).
      assert (Aall : forallb is_digit (firstn (Z.to_nat n) ds) = true
                     /\ forallb is_digit (skipn (Z.to_nat n) ds) = true).
      { rewrite Sp, forallb_app in A. apply andb_true_iff in A. exact A. }
      assert (Ns : skipn (Z.to_nat n) ds <> []).
      { intros E. rewrite E in Ls. simpl in Ls. unfold k in Hn. lia. }
      assert (Nf : firstn (Z.to_nat n) ds <> []).
      { intros E. rewrite E in Lf. simpl in Lf. lia. }
      split.
      { simpl exponent_text. rewrite app_nil_r. unfold fraction_text.
        destruct (skipn (Z.to_nat n) ds); [congruence|reflexivity]. }
      split; [tauto|]. split; [exact Nf|].
      split.
      { left. destruct ds as [|c ds']; [congruence|].
        destruct (Z.to_nat n) eqn:En; [lia|]. exact LZ. }
      split; [tauto|]. split; [exact I|].
      rewrite <- Sp, V, Ls. simpl exponent_of. f_equal; unfold k; lia.
    + destruct ((-6 <? n) && (n <=? 0)) eqn:C3.
      * (* zero, a point, zeros, then the digits *)
        apply andb_true_iff in C3. destruct C3 as [_ C3]. apply Z.leb_le in C3.
        exists [48%N], (zeros (- n) ++ ds), None.
        assert (Az : forallb is_digit (zeros (- n)) = true).
        { unfold zeros. induction (Z.to_nat (- n)); [reflexivity|exact IHn0]. }
        split.
        { simpl exponent_text. rewrite app_nil_r. unfold fraction_text.
          destruct (zeros (- n) ++ ds) eqn:E; [|reflexivity].
          apply app_eq_nil in E. destruct E as [_ E]. congruence. }
        split; [reflexivity|]. split; [discriminate|]. split; [right; reflexivity|].
        split; [rewrite forallb_app, Az, A; reflexivity|]. split; [exact I|].
        simpl exponent_of.
        change ([48%N] ++ zeros (- n) ++ ds) with (48%N :: (zeros (- n) ++ ds)).
        rewrite digits_value_cons, digits_value_app, V. unfold zeros at 2.
        rewrite digits_value_zeros, length_app. unfold zeros.
        rewrite repeat_length. change (digit_val 48) with 0.
        f_equal; unfold k; lia.
      * (* exponent notation *)
        set (e := n - 1).
        assert (He : e <> 0).
        { unfold e. intros E. assert (n = 1) by lia. subst n.
          destruct (Z.leb_spec k 1); simpl in C1, C2; discriminate. }
        destruct (to_digits_numeral (Z.abs e) ltac:(lia)) as (Ve & Ae & Ne & _).
        set (sign := if e <? 0 then 45%N else 43%N).
        assert (Sg : sign = 43%N \/ sign = 45%N).
        { unfold sign. destruct (e <? 0); auto. }
        assert (Xv : exponent_of (Some (sign, to_digits (Z.abs e))) = e).
        { unfold exponent_of. rewrite Ve. unfold sign.
          destruct (Z.ltb_spec e 0).
          - change (45 =? 45)%N with true. cbv iota. lia.
          - change (43 =? 45)%N with false. cbv iota. lia. }
        destruct ds as [|d [|d2 tl]] eqn:Eds; [congruence| |].
        -- exists [d], [], (Some (sign, to_digits (Z.abs e))).
           split; [reflexivity|]. split; [exact A|]. split; [discriminate|].
           split; [left; exact LZ|]. split; [reflexivity|].
           split; [repeat split; assumption|].
           rewrite Xv, app_nil_r, V. f_equal; unfold e, k; simpl; lia.
        -- exists [d], (d2 :: tl), (Some (sign, to_digits (Z.abs e))).
           split; [reflexivity|].
           simpl in A. apply andb_true_iff in A. destruct A as [A1 A2].
           split; [simpl; rewrite A1; reflexivity|]. split; [discriminate|].
           split; [left; exact LZ|]. split; [exact A2|].
           split; [repeat split; assumption|].
           rewrite Xv. change ([d] ++ d2 :: tl) with (d :: d2 :: tl). rewrite V.
           f_equal; unfold e, k; simpl List.length; lia.
Qed.


Lemma parse_json_number_unsigned (c : N) (x : jsstring) :
  is_digit c = true -> parse_json_number (c :: x) = parse_json_unsigned (c :: x).
Proof.
  intros H. apply is_digit_range in H. unfold parse_json_number.
  destruct (N.eqb_spec c 45); [lia|reflexivity].
Qed.

(** A positive binary64 value is read back from its literal. *)
Lemma positive_to_string_parse (a : Z) (k : N) (rest : jsstring) :
  0 < a -> is_double (Fin a k) = true -> terminated rest ->
  exists c body,
    positive_to_string a k = c :: body /\
    is_digit c = true /\
    parse_json_unsigned (c :: body ++ rest) = Some (Fin a k, rest).
Proof.
  intros Ha D T. unfold positive_to_string. cbv zeta.
  pose proof (shortest_reads_back 17 a k (decimal_exponent a (2 ^ Z.of_N k)) 1 Ha D) as R.
  destruct (shortest 17 (Fin a k) a (2 ^ Z.of_N k) (decimal_exponent a (2 ^ Z.of_N k)) 1 k)
    as [s e].
  cbn [fst snd] in R. unfold reads_back in R.
  apply andb_true_iff in R. destruct R as [Hs R].
  apply Z.ltb_lt in Hs. apply number_eqb_eq in R.
  destruct (strip_trailing_zeros_numeral s (to_digits s) Hs (to_digits_numeral s ltac:(lia)))
    as (z & s' & Ed & Hs' & Es & Nm).
  set (ds := strip_trailing_zeros (to_digits s)) in *.
  destruct (format_decimal_parts ds s' e Nm Hs')
    as (ip & fp & ex & F & Hip & NEip & LZ & Hfp & Hex & Vd).
  destruct ip as [|c ip'] eqn:Eip; [congruence|].
  exists c, (ip' ++ fraction_text fp ++ exponent_text ex).
  split; [exact F|].
  split; [simpl in Hip; apply andb_true_iff in Hip; tauto|].
  replace (c :: (ip' ++ fraction_text fp ++ exponent_text ex) ++ rest)
    with ((c :: ip') ++ fraction_text fp ++ exponent_text ex ++ rest)
    by (simpl; rewrite <- !app_assoc; reflexivity).
  rewrite (parse_json_unsigned_parts (c :: ip') fp ex rest Hip NEip LZ Hfp Hex T).
  f_equal. f_equal. rewrite Vd, <- R.
  assert (L : Z.of_nat (List.length (to_digits s)) = Z.of_nat (List.length ds) + Z.of_nat z).
  { rewrite Ed at 1. rewrite length_app, repeat_length. lia. }
  rewrite L, Es, decimal_value_shift by lia. f_equal. lia.
Qed.

(** Number::toString and the JSON number parser: a finite binary64 value
    is read back from its literal. *)
Lemma number_to_string_parse (n : Z) (k : N) (rest : jsstring) :
  is_double (Fin n k) = true -> terminated rest ->
  parse_json_number (number_to_string (Fin n k) ++ rest) = Some (Fin n k, rest).
Proof.
  intros D T. unfold number_to_string.
  destruct (Z.eqb_spec n 0) as [->|NZ].
  - simpl in D. apply N.eqb_eq in D. subst k.
    change (js "0" ++ rest) with (48%N :: rest).
    rewrite parse_json_number_unsigned by reflexivity.
    change (48%N :: rest) with ([48%N] ++ fraction_text [] ++ exponent_text None ++ rest).
    rewrite parse_json_unsigned_parts; try reflexivity; try exact T.
    + discriminate.
    + right. reflexivity.
  - destruct (Z.ltb_spec n 0) as [Neg|Pos].
    + assert (D' : is_double (Fin (- n) k) = true) by (apply (neg_double (Fin n k) D)).
      destruct (positive_to_string_parse (- n) k rest ltac:(lia) D' T)
        as (c & body & F & Hc & Pr).
      rewrite F. rewrite <- !app_comm_cons. unfold parse_json_number.
      change (45 =? 45)%N with true. cbv iota. rewrite Pr.
      simpl. rewrite Z.opp_involutive. reflexivity.
    + destruct (positive_to_string_parse n k rest ltac:(lia) D T)
        as (c & body & F & Hc & Pr).
      rewrite F. rewrite <- app_comm_cons, parse_json_number_unsigned by exact Hc.
      exact Pr.
Qed.

End NumberPrintFacts.

(* ------------------------------------------------------------------ *)
(** ** QuoteJSONString and back *)

Section QuoteFacts.

Lemma hex_char_spec (d : N) :
  (d < 16)%N -> is_hex (hex_char d) = true /\ hex_val (hex_char d) = Z.of_N d.
Proof.
  intros H.
  assert (C : (d = 0 \/ d = 1 \/ d = 2 \/ d = 3 \/ d = 4 \/ d = 5 \/ d = 6 \/ d = 7 \/ d = 8
              \/ d = 9 \/ d = 10 \/ d = 11 \/ d = 12 \/ d = 13 \/ d = 14 \/ d = 15)%N) by lia.
  repeat (destruct C as [->|C]; [split; reflexivity|]). subst d. split; reflexivity.
Qed.

Lemma hex4_digits (c : N) :
  (c < 65536)%N ->
  hex4 (hex_char (c / 4096 mod 16)) (hex_char (c / 256 mod 16))
       (hex_char (c / 16 mod 16)) (hex_char (c mod 16)) = c.
Proof.
  intros H. unfold hex4.
  assert (M : forall x, (x mod 16 < 16)%N) by (intros; apply N.mod_lt; discriminate).
  rewrite !(proj2 (hex_char_spec _ (M _))).
  pose proof (N.div_mod c 16 ltac:(discriminate)) as E0.
  pose proof (N.div_mod (c / 16) 16 ltac:(discriminate)) as E1.
  pose proof (N.div_mod (c / 256) 16 ltac:(discriminate)) as E2.
  pose proof (N.div_mod (c / 4096) 16 ltac:(discriminate)) as E3.
  rewrite N.Div0.div_div in E1.
  rewrite N.Div0.div_div in E2.
  rewrite N.Div0.div_div in E3.
  change (16 * 16)%N with 256%N in E1. change (256 * 16)%N with 4096%N in E2.
  change (4096 * 16)%N with 65536%N in E3.
  assert (Z3 : (c / 65536 = 0)%N) by (apply N.div_small; exact H).
  rewrite Z3 in E3.
  pose proof (M c). pose proof (M (c / 16)%N). pose proof (M (c / 256)%N).
  pose proof (M (c / 4096)%N). lia.
Qed.

Lemma escape_u_parse (c : N) (r : jsstring) :
  (c < 65536)%N ->
  parse_string_chars (escape_u c ++ r) = cons_fst c (parse_string_chars r).
Proof.
  intros H. unfold escape_u.
  assert (M : forall x, (x mod 16 < 16)%N) by (intros; apply N.mod_lt; discriminate).
  cbn [app parse_string_chars].
  change (92 =? 34)%N with false. change (92 =? 92)%N with true.
  change (117 =? 117)%N with true. cbv iota.
  rewrite !(proj1 (hex_char_spec _ (M _))). cbn [andb].
  rewrite hex4_digits by exact H. reflexivity.
Qed.

Lemma literal_parse (c : N) (r : jsstring) :
  c <> 34%N -> c <> 92%N -> (32 <= c)%N ->
  parse_string_chars (c :: r) = cons_fst c (parse_string_chars r).
Proof.
  intros H1 H2 H3. cbn [parse_string_chars].
  destruct (N.eqb_spec c 34); [congruence|].
  destruct (N.eqb_spec c 92); [congruence|].
  destruct (N.ltb_spec c 32); [lia|reflexivity].
Qed.

Lemma quote_unit_parse (c : N) (r : jsstring) :
  (c < 65536)%N ->
  parse_string_chars (quote_unit c ++ r) = cons_fst c (parse_string_chars r).
Proof.
  intros H. unfold quote_unit.
  destruct (N.eqb_spec c 8) as [->|N8]; [reflexivity|].
  destruct (N.eqb_spec c 9) as [->|N9]; [reflexivity|].
  destruct (N.eqb_spec c 10) as [->|N10]; [reflexivity|].
  destruct (N.eqb_spec c 12) as [->|N12]; [reflexivity|].
  destruct (N.eqb_spec c 13) as [->|N13]; [reflexivity|].
  destruct (N.eqb_spec c 34) as [->|N34]; [reflexivity|].
  destruct (N.eqb_spec c 92) as [->|N92]; [reflexivity|].
  destruct (N.ltb_spec c 32) as [L|L].
  - apply escape_u_parse. exact H.
  - apply literal_parse; assumption.
Qed.

Lemma surrogate_range (c : N) :
  is_high_surrogate c = true \/ is_low_surrogate c = true -> (55296 <= c < 65536)%N.
Proof.
  unfold is_high_surrogate, is_low_surrogate.
  rewrite !andb_true_iff, !N.leb_le. lia.
Qed.

(** A string is read back from its quoted form. *)
Lemma quote_units_parse (n : nat) : forall (s rest : jsstring),
  (List.length s <= n)%nat ->
  parse_string_chars (quote_units s ++ 34%N :: rest) = Some (s, rest).
Proof.
  induction n as [|n IH]; intros s rest L.
  - destruct s; [reflexivity|simpl in L; lia].
  - destruct s as [|c r]; [reflexivity|]. simpl in L.
    cbn [quote_units].
    destruct (is_high_surrogate c) eqn:Hh.
    + pose proof (surrogate_range c (or_introl Hh)) as Rc.
      destruct r as [|d r'].
      * rewrite escape_u_parse by lia. reflexivity.
      * destruct (is_low_surrogate d) eqn:Hl.
        -- pose proof (surrogate_range d (or_intror Hl)) as Rd.
           rewrite <- !app_comm_cons.
           rewrite literal_parse by lia. rewrite literal_parse by lia.
           rewrite IH by (simpl in L; lia). reflexivity.
        -- rewrite <- app_assoc, escape_u_parse by lia.
           rewrite IH by lia. reflexivity.
    + destruct (is_low_surrogate c) eqn:Hl.
      * pose proof (surrogate_range c (or_intror Hl)) as Rc.
        rewrite <- app_assoc, escape_u_parse by lia.
        rewrite IH by lia. reflexivity.
      * rewrite <- app_assoc.
        destruct (N.ltb_spec c 65536) as [Small|Big].
        -- rewrite quote_unit_parse by exact Small.
           rewrite IH by lia. reflexivity.
        -- assert (Q : quote_unit c = [c]).
           { unfold quote_unit.
             repeat match goal with
             | |- context [(c =? ?k)%N] => destruct (N.eqb_spec c k); [lia|]
             end.
             destruct (N.ltb_spec c 32); [lia|reflexivity]. }
           rewrite Q. cbn [app]. rewrite literal_parse by lia.
           rewrite IH by lia. reflexivity.
Qed.

Lemma quote_parse (s rest : jsstring) :
  parse_string_chars (quote_units s ++ 34%N :: rest) = Some (s, rest).
Proof. apply (quote_units_parse (List.length s)). lia. Qed.

End QuoteFacts.

(* ------------------------------------------------------------------ *)
(** ** [JSON.parse] after [JSON.stringify] *)

Section RoundTripFacts.

(** Induction on values, through arrays and objects. *)
Lemma jsval_induction (Q : jsval -> Prop) :
  Q VUndefined -> Q VNull -> (forall b, Q (VBool b)) -> (forall n, Q (VNum n)) ->
  (forall s, Q (VStr s)) ->
  (forall items, Forall Q items -> Q (VArr items)) ->
  (forall props, Forall (fun kv => Q (snd kv)) props -> Q (VObj props)) ->
  forall v, Q v.
Proof.
  intros HU HN HB HNum HS HA HO.
  fix IH 1.
  intros [| |b|n|s|items|props];
    [exact HU|exact HN|exact (HB b)|exact (HNum n)|exact (HS s)| | ].
  - apply HA. revert items. fix IHl 1. intros [|x items]; constructor.
    + apply IH.
    + apply IHl.
  - apply HO. revert props. fix IHp 1. intros [|[k x] props]; constructor.
    + apply IH.
    + apply IHp.
Qed.

Lemma skip_ws_head (c : N) (r : jsstring) :
  is_json_ws c = false -> skip_ws (c :: r) = c :: r.
Proof. intros H. simpl. rewrite H. reflexivity. Qed.

Lemma stringify_some (v : jsval) :
  wf v = true -> JSON_stringify v = Some (text_of v).
Proof.
  unfold text_of. destruct v; simpl; try discriminate; reflexivity.
Qed.

Lemma number_text_head (n : Z) (k : N) :
  is_double (Fin n k) = true ->
  exists c r, number_to_string (Fin n k) = c :: r /\ (is_digit c = true \/ c = 45%N).
Proof.
  intros D. unfold number_to_string.
  destruct (Z.eqb_spec n 0); [exists 48%N, []; split; [reflexivity|left; reflexivity]|].
  destruct (Z.ltb_spec n 0).
  - eexists _, _. split; [reflexivity|right; reflexivity].
  - destruct (positive_to_string_parse n k [] ltac:(lia) D I) as (c & body & F & Hc & _).
    exists c, body. split; [exact F|left; exact Hc].
Qed.

Lemma digit_or_minus (c : N) :
  is_digit c = true \/ c = 45%N ->
  is_json_ws c = false /\ c <> 93%N /\ c <> 125%N /\
  (c =? 34)%N = false /\ (c =? 91)%N = false /\ (c =? 123)%N = false /\
  (c =? 110)%N = false /\ (c =? 116)%N = false /\ (c =? 102)%N = false.
Proof.
  intros [H| ->]; [|repeat split; discriminate].
  apply is_digit_range in H. unfold is_json_ws.
  repeat match goal with
  | |- context [(c =? ?k)%N] => destruct (N.eqb_spec c k); [lia|]
  end.
  repeat split; lia.
Qed.

Lemma text_opens (v : jsval) : wf v = true -> opens_value (text_of v).
Proof.
  unfold text_of. destruct v as [| |b|n|s|items|props]; simpl; try discriminate; intros W.
  - exists 110%N, (js "ull"). repeat split; discriminate.
  - destruct b; [exists 116%N, (js "rue")|exists 102%N, (js "alse")];
      repeat split; discriminate.
  - destruct n as [| |m k].
    + exists 110%N, (js "ull"). repeat split; discriminate.
    + exists 110%N, (js "ull"). repeat split; discriminate.
    + destruct (number_text_head m k W) as (c & r & E & H).
      exists c, r. destruct (digit_or_minus c H) as (H1 & H2 & H3 & _).
      repeat split; assumption.
  - eexists _, _. split; [reflexivity|]. repeat split; discriminate.
  - eexists _, _. split; [reflexivity|]. repeat split; discriminate.
  - eexists _, _. split; [reflexivity|]. repeat split; discriminate.
Qed.

Lemma terminated_skip (rest : jsstring) : terminated rest -> skip_ws rest = rest.
Proof.
  intros T. apply terminated_head in T. destruct rest as [|c r]; [reflexivity|].
  apply skip_ws_head. tauto.
Qed.

Lemma join_cons (sep : N) (x : jsstring) (l : list jsstring) :
  l <> [] -> join sep (x :: l) = x ++ sep :: join sep l.
Proof. destruct l; [congruence|reflexivity]. Qed.

Lemma elements_read (items : list jsval) :
  Forall reads items -> forallb wf items = true -> items <> [] ->
  forall (fuel : nat) (rest : jsstring),
    (List.length (join 44 (List.map text_of items)) + 1 <= fuel)%nat ->
    parse_elements fuel (join 44 (List.map text_of items) ++ 93%N :: rest)
    = Some (List.map revive items, rest).
Proof.
  induction 1 as [|x items Hx Hitems IH]; [congruence|].
  intros W _ fuel rest L. cbn [forallb] in W. apply andb_true_iff in W.
  destruct W as [Wx Wl]. cbn [List.map] in *.
  destruct fuel as [|f]; [lia|]. cbn [parse_elements].
  destruct items as [|y items'].
  - cbn [join List.map] in *.
    rewrite (Hx Wx f (93%N :: rest)); [|lia|right; left; reflexivity].
    cbn [skip_ws]. change (is_json_ws 93) with false. cbv iota.
    change (93 =? 93)%N with true. reflexivity.
  - rewrite join_cons in * by discriminate. rewrite length_app in L. cbn [List.length] in L.
    rewrite <- app_assoc, <- app_comm_cons.
    rewrite (Hx Wx f); [|lia|left; reflexivity].
    cbn [skip_ws]. change (is_json_ws 44) with false. cbv iota.
    change (44 =? 93)%N with false. change (44 =? 44)%N with true. cbv iota.
    rewrite IH; [reflexivity|exact Wl|discriminate|lia].
Qed.

Lemma obj_set_fresh (props : list (jsstring * jsval)) (k : jsstring) (v : jsval) :
  existsb (str_eqb k) (List.map fst props) = false ->
  obj_set props k v = props ++ [(k, v)].
Proof.
  induction props as [|[k' x] props IH]; [reflexivity|].
  cbn [List.map fst existsb obj_set]. intros H.
  apply orb_false_iff in H. destruct H as [H1 H2].
  assert (E : str_eqb k' k = false).
  { apply str_eqb_neq. apply str_eqb_neq in H1. congruence. }
  rewrite E, (IH H2). reflexivity.
Qed.

Lemma member_text_length (k : jsstring) (x : jsval) :
  (List.length (text_of x) < List.length (member_text (k, x)))%nat.
Proof.
  unfold member_text. cbn [fst snd]. rewrite length_app. cbn [List.length]. lia.
Qed.

Lemma members_read (props : list (jsstring * jsval)) :
  Forall (fun kv => reads (snd kv)) props ->
  forallb (fun kv => wf (snd kv)) props = true ->
  props <> [] ->
  forall (acc : list (jsstring * jsval)) (fuel : nat) (rest : jsstring),
    unique_keys (List.map fst props) = true ->
    fresh_keys (List.map fst acc) (List.map fst props) ->
    (List.length (join 44 (List.map member_text props)) + 1 <= fuel)%nat ->
    parse_members fuel acc (join 44 (List.map member_text props) ++ 125%N :: rest)
    = Some (acc ++ List.map (fun kv => (fst kv, revive (snd kv))) props, rest).
Proof.
  induction 1 as [|[k x] props Hx Hprops IH]; [congruence|].
  intros W _ acc fuel rest U Fr L. cbn [forallb snd] in W. apply andb_true_iff in W.
  destruct W as [Wx Wl]. cbn [List.map fst snd] in *.
  cbn [unique_keys] in U. apply andb_true_iff in U. destruct U as [Uk Ul].
  apply negb_true_iff in Uk.
  destruct fuel as [|f]; [lia|]. cbn [parse_members].
  assert (Fk : existsb (str_eqb k) (List.map fst acc) = false).
  { apply Fr. left. reflexivity. }
  assert (Fr' : fresh_keys (List.map fst (acc ++ [(k, revive x)])) (List.map fst props)).
  { intros k' Hin. rewrite map_app, existsb_app. cbn [List.map fst existsb].
    rewrite (Fr k' (or_intror Hin)). cbn [orb]. rewrite orb_false_r.
    apply str_eqb_neq. intros ->.
    assert (existsb (str_eqb k) (List.map fst props) = true); [|congruence].
    apply existsb_exists. exists k. split; [exact Hin|apply str_eqb_refl]. }
  pose proof (member_text_length k x) as ML.
  destruct props as [|kv' props'].
  - cbn [join List.map] in *.
    unfold member_text at 1. cbn [fst snd]. unfold quote.
    rewrite <- !app_assoc, <- !app_comm_cons.
    rewrite skip_ws_head by reflexivity. change (34 =? 34)%N with true. cbv iota.
    rewrite <- app_assoc. cbn [app].
    rewrite quote_parse.
    rewrite skip_ws_head by reflexivity. change (58 =? 58)%N with true. cbv iota.
    rewrite (Hx Wx f (125%N :: rest)); [|lia|right; right; reflexivity].
    rewrite skip_ws_head by reflexivity. change (125 =? 125)%N with true. cbv iota.
    rewrite (obj_set_fresh acc k (revive x) Fk). reflexivity.
  - rewrite join_cons in * by discriminate.
    rewrite length_app in L. cbn [List.length] in L.
    unfold member_text at 1. cbn [fst snd]. unfold quote.
    rewrite <- !app_assoc, <- !app_comm_cons.
    rewrite skip_ws_head by reflexivity. change (34 =? 34)%N with true. cbv iota.
    rewrite <- !app_assoc. cbn [app].
    rewrite quote_parse.
    rewrite skip_ws_head by reflexivity. change (58 =? 58)%N with true. cbv iota.
    rewrite (Hx Wx f); [|lia|left; reflexivity].
    rewrite skip_ws_head by reflexivity.
    change (44 =? 125)%N with false. change (44 =? 44)%N with true. cbv iota.
    rewrite (obj_set_fresh acc k (revive x) Fk).
    rewrite IH; [|exact Wl|discriminate|exact Ul|exact Fr'|lia].
    rewrite <- app_assoc. reflexivity.
Qed.


Lemma skip_to_value {X : Type} (s : jsstring) (k : N) (F : jsstring -> option X)
    (G : option X) :
  (exists c r, s = c :: r /\ is_json_ws c = false /\ c <> k) ->
  match skip_ws s with
  | [] => None
  | c' :: r' => if (c' =? k)%N then F r' else G
  end = G.
Proof.
  intros (c & r & -> & H1 & H2). rewrite skip_ws_head by exact H1.
  destruct (N.eqb_spec c k); [congruence|reflexivity].
Qed.

Lemma join_opens (sep : N) (x : jsstring) (l : list jsstring) (rest : jsstring) (k : N) :
  (exists c r, x = c :: r /\ is_json_ws c = false /\ c <> k) ->
  exists c r, join sep (x :: l) ++ rest = c :: r /\ is_json_ws c = false /\ c <> k.
Proof.
  intros (c & r & -> & H1 & H2). destruct l as [|y l].
  - exists c, (r ++ rest). repeat split; assumption.
  - exists c, (r ++ sep :: join sep (y :: l) ++ rest). cbn [join].
    rewrite <- app_assoc. repeat split; assumption.
Qed.

Lemma members_text (props : list (jsstring * jsval)) :
  forallb (fun kv => wf (snd kv)) props = true ->
  omit_none (List.map (fun kv =>
    match JSON_stringify (snd kv) with
    | Some t => Some (quote (fst kv) ++ 58%N :: t)
    | None => None
    end) props) = List.map member_text props.
Proof.
  induction props as [|[k x] props IH]; [reflexivity|].
  cbn [forallb List.map snd fst]. intros W. apply andb_true_iff in W.
  destruct W as [Wx Wl]. rewrite (stringify_some x Wx). cbn [omit_none].
  rewrite (IH Wl). unfold member_text at 2. cbn [fst snd]. reflexivity.
Qed.

(** Every well-formed value is read back from its text, as [revive]
    describes. *)
Lemma value_reads : forall v, reads v.
Proof.
  apply jsval_induction.
  - intros W. discriminate.
  - intros _ [|f] rest L T; [simpl in L; lia|reflexivity].
  - intros b _ [|f] rest L T; [destruct b; simpl in L; lia|destruct b; reflexivity].
  - intros [| |n k] W [|f] rest L T; try (simpl in L; lia); try reflexivity.
    + unfold text_of in L. cbn [JSON_stringify or_null] in L.
      destruct (number_text_head n k W) as (c & r & E & H).
      rewrite E in L. simpl in L. lia.
    + unfold text_of. cbn [JSON_stringify or_null].
      destruct (number_text_head n k W) as (c & r & E & H).
      pose proof (number_to_string_parse n k rest W T) as Pn.
      rewrite E in *. rewrite <- app_comm_cons in *.
      destruct (digit_or_minus c H) as (H1 & _ & _ & T1 & T2 & T3 & T4 & T5 & T6).
      cbn [parse_value]. rewrite skip_ws_head by exact H1.
      rewrite T1, T2, T3, T4, T5, T6, Pn. reflexivity.
  - intros s _ [|f] rest L T; [simpl in L; lia|].
    unfold text_of. cbn [JSON_stringify or_null]. unfold quote.
    rewrite <- app_comm_cons. cbn [parse_value].
    rewrite skip_ws_head by reflexivity. change (34 =? 34)%N with true. cbv iota.
    rewrite <- app_assoc. cbn [app]. rewrite quote_parse. reflexivity.
  - intros items IH W [|f] rest L T; [simpl in L; lia|].
    cbn [wf] in W. unfold text_of in *. cbn [JSON_stringify or_null] in *.
    change (fun x : jsval => or_null (JSON_stringify x)) with text_of in *.
    rewrite <- app_comm_cons. cbn [parse_value].
    rewrite skip_ws_head by reflexivity.
    change (91 =? 34)%N with false. change (91 =? 91)%N with true. cbv iota.
    rewrite <- app_assoc. cbn [app].
    destruct items as [|x items'].
    + reflexivity.
    + rewrite skip_to_value.
      2:{ apply join_opens. apply Forall_inv in IH.
          cbn [forallb] in W. apply andb_true_iff in W. destruct W as [Wx _].
          destruct (text_opens x Wx) as (c & r & E & H1 & H2 & H3).
          exists c, r. repeat split; assumption. }
      cbn [List.length] in L. rewrite length_app in L. cbn [List.length] in L.
      rewrite elements_read; [reflexivity|exact IH|exact W|discriminate|lia].
  - intros props IH W [|f] rest L T; [simpl in L; lia|].
    cbn [wf] in W. apply andb_true_iff in W. destruct W as [U W].
    unfold text_of in *. cbn [JSON_stringify or_null] in *.
    rewrite (members_text props W) in *.
    rewrite <- app_comm_cons. cbn [parse_value].
    rewrite skip_ws_head by reflexivity.
    change (123 =? 34)%N with false. change (123 =? 91)%N with false.
    change (123 =? 123)%N with true. cbv iota.
    rewrite <- app_assoc. cbn [app].
    destruct props as [|[k x] props'].
    + reflexivity.
    + rewrite skip_to_value.
      2:{ apply join_opens. exists 34%N, (quote_units k ++ [34%N] ++ 58%N :: text_of x).
          split; [|split; [reflexivity|discriminate]].
          unfold member_text, quote. cbn [fst snd app].
          rewrite <- ?app_assoc. reflexivity. }
      cbn [List.length] in L. rewrite length_app in L. cbn [List.length] in L.
      rewrite (members_read _ IH W ltac:(discriminate) [] f rest U);
        [reflexivity| |lia].
      intros k' _. reflexivity.
Qed.

(** [JSON.parse(JSON.stringify(v))] *)
Lemma parse_stringify (v : jsval) :
  wf v = true -> JSON_parse (text_of v) = Some (revive v).
Proof.
  intros W. unfold JSON_parse.
  pose proof (value_reads v W (S (List.length (text_of v))) [] ltac:(lia) I) as R.
  rewrite app_nil_r in R. rewrite R. reflexivity.
Qed.

Lemma revive_finite : forall v, finite_numbers v = true -> revive v = v.
Proof.
  apply (jsval_induction (fun v => finite_numbers v = true -> revive v = v));
    try reflexivity.
  - intros [| |n k]; [discriminate|discriminate|reflexivity].
  - intros items IH F. cbn [finite_numbers revive] in *. f_equal.
    induction IH as [|x items Hx _ IHl]; [reflexivity|].
    cbn [forallb] in F. apply andb_true_iff in F. destruct F as [Fx Fl].
    cbn [List.map]. rewrite (Hx Fx), (IHl Fl). reflexivity.
  - intros props IH F. cbn [finite_numbers revive] in *. f_equal.
    induction IH as [|[k x] props Hx _ IHl]; [reflexivity|].
    cbn [forallb snd] in F. apply andb_true_iff in F. destruct F as [Fx Fl].
    cbn [List.map fst snd]. cbn [snd] in Hx. rewrite (Hx Fx), (IHl Fl). reflexivity.
Qed.

End RoundTripFacts.

(* ------------------------------------------------------------------ *)
(** ** Well-formed values *)

Section WellFormedFacts.

Lemma fadd_double (x y : number) : is_double (fadd x y) = true.
Proof.
  destruct x as [|a|n k], y as [|b|m j]; simpl; try reflexivity.
  - destruct (Bool.eqb a b); reflexivity.
  - apply of_Q_double. apply Z.pow_pos_nonneg; lia.
Qed.

Lemma fmul_double (x y : number) : is_double (fmul x y) = true.
Proof.
  destruct x as [|a|n k], y as [|b|m j]; simpl; try reflexivity.
  - destruct (m =? 0); reflexivity.
  - destruct (n =? 0); reflexivity.
  - apply of_Q_double. apply Z.pow_pos_nonneg; lia.
Qed.

Lemma decimal_value_double (s e : Z) : is_double (decimal_value s e) = true.
Proof. unfold decimal_value. apply of_Q_double. apply Z.pow_pos_nonneg; lia. Qed.

Lemma parse_json_unsigned_double (s : jsstring) (n : number) (r : jsstring) :
  parse_json_unsigned s = Some (n, r) -> is_double n = true.
Proof.
  unfold parse_json_unsigned. destruct (span is_digit s) as [ip s2].
  destruct ip as [|c ip']; [discriminate|].
  destruct ((c =? 48)%N && nonempty ip'); [discriminate|].
  destruct (parse_json_fraction s2) as [[fp s3]|]; [|discriminate].
  destruct (parse_json_exponent s3) as [[ex s4]|]; [|discriminate].
  intros H. injection H as <- _. apply decimal_value_double.
Qed.

Lemma parse_json_number_double (s : jsstring) (n : number) (r : jsstring) :
  parse_json_number s = Some (n, r) -> is_double n = true.
Proof.
  unfold parse_json_number. destruct s as [|c x]; [discriminate|].
  destruct (c =? 45)%N.
  - destruct (parse_json_unsigned x) as [[v r']|] eqn:E; [|discriminate].
    intros H. injection H as <- _. apply neg_double.
    apply (parse_json_unsigned_double _ _ _ E).
  - apply parse_json_unsigned_double.
Qed.

Lemma existsb_str_eqb_sym (k : jsstring) (keys : list jsstring) :
  existsb (str_eqb k) keys = existsb (fun k' => str_eqb k' k) keys.
Proof.
  induction keys as [|k' keys IH]; [reflexivity|]. cbn [existsb]. rewrite IH. f_equal.
  destruct (str_eqb k k') eqn:E.
  - apply str_eqb_eq in E. subst. symmetry. apply str_eqb_refl.
  - symmetry. apply str_eqb_neq. apply str_eqb_neq in E. congruence.
Qed.

Lemma unique_keys_snoc (keys : list jsstring) (k : jsstring) :
  unique_keys keys = true -> existsb (str_eqb k) keys = false ->
  unique_keys (keys ++ [k]) = true.
Proof.
  induction keys as [|k' keys IH]; [reflexivity|].
  cbn [unique_keys existsb app]. intros U E.
  apply andb_true_iff in U. destruct U as [U1 U2].
  apply orb_false_iff in E. destruct E as [E1 E2].
  rewrite existsb_app, (IH U2 E2). cbn [existsb].
  apply negb_true_iff in U1. rewrite U1. cbn [orb].
  assert (str_eqb k' k = false).
  { apply str_eqb_neq. apply str_eqb_neq in E1. congruence. }
  rewrite H. reflexivity.
Qed.

Lemma obj_set_keys (props : list (jsstring * jsval)) (k : jsstring) (v : jsval) :
  List.map fst (obj_set props k v)
  = if existsb (str_eqb k) (List.map fst props) then List.map fst props
    else List.map fst props ++ [k].
Proof.
  induction props as [|[k' x] props IH]; [reflexivity|].
  cbn [obj_set List.map fst existsb].
  destruct (str_eqb k' k) eqn:E.
  - assert (E' : str_eqb k k' = true).
    { apply str_eqb_eq in E. subst. apply str_eqb_refl. }
    rewrite E'. reflexivity.
  - assert (E' : str_eqb k k' = false).
    { apply str_eqb_neq. apply str_eqb_neq in E. congruence. }
    rewrite E'. cbn [orb List.map fst]. rewrite IH.
    destruct (existsb (str_eqb k) (List.map fst props)); reflexivity.
Qed.

Lemma obj_set_values (props : list (jsstring * jsval)) (k : jsstring) (v : jsval) :
  forallb (fun kv => wf (snd kv)) props = true -> wf v = true ->
  forallb (fun kv => wf (snd kv)) (obj_set props k v) = true.
Proof.
  intros W Wv. induction props as [|[k' x] props IH]; [simpl; rewrite Wv; reflexivity|].
  cbn [forallb snd] in W. apply andb_true_iff in W. destruct W as [W1 W2].
  cbn [obj_set]. destruct (str_eqb k' k); cbn [forallb snd].
  - rewrite Wv, W2. reflexivity.
  - rewrite W1, (IH W2). reflexivity.
Qed.

Lemma obj_set_wf (props : list (jsstring * jsval)) (k : jsstring) (v : jsval) :
  wf_props props = true -> wf v = true -> wf_props (obj_set props k v) = true.
Proof.
  unfold wf_props. intros W Wv. apply andb_true_iff in W. destruct W as [U W].
  rewrite (obj_set_values props k v W Wv), andb_true_r, obj_set_keys.
  destruct (existsb (str_eqb k) (List.map fst props)) eqn:E; [exact U|].
  apply unique_keys_snoc; assumption.
Qed.

(** What [JSON.parse] builds is well formed. *)
Lemma parse_wf (fuel : nat) :
  (forall s v r, parse_value fuel s = Some (v, r) -> wf v = true) /\
  (forall s l r, parse_elements fuel s = Some (l, r) -> forallb wf l = true) /\
  (forall acc s props r, wf_props acc = true ->
     parse_members fuel acc s = Some (props, r) -> wf_props props = true).
Proof.
  induction fuel as [|f (IHv & IHe & IHm)].
  - repeat split; intros; discriminate.
  - split; [|split].
    + intros s v r. cbn [parse_value]. unfold literal.
      destruct (skip_ws s) as [|c r0]; [discriminate|].
      destruct (c =? 34)%N.
      { destruct (parse_string_chars r0) as [[str r']|]; [|discriminate].
        intros H. injection H as <- _. reflexivity. }
      destruct (c =? 91)%N.
      { destruct (skip_ws r0) as [|c' r']; [discriminate|].
        destruct (c' =? 93)%N; [intros H; injection H as <- _; reflexivity|].
        destruct (parse_elements f r0) as [[l r'']|] eqn:E; [|discriminate].
        intros H. injection H as <- _. cbn [wf]. apply (IHe _ _ _ E). }
      destruct (c =? 123)%N.
      { destruct (skip_ws r0) as [|c' r']; [discriminate|].
        destruct (c' =? 125)%N; [intros H; injection H as <- _; reflexivity|].
        destruct (parse_members f [] r0) as [[props r'']|] eqn:E; [|discriminate].
        intros H. injection H as <- _. cbn [wf].
        apply (IHm [] _ _ _ eq_refl E). }
      destruct (c =? 110)%N.
      { destruct (after_word (js "null") (c :: r0)); [|discriminate].
        intros H. injection H as <- _. reflexivity. }
      destruct (c =? 116)%N.
      { destruct (after_word (js "true") (c :: r0)); [|discriminate].
        intros H. injection H as <- _. reflexivity. }
      destruct (c =? 102)%N.
      { destruct (after_word (js "false") (c :: r0)); [|discriminate].
        intros H. injection H as <- _. reflexivity. }
      destruct (parse_json_number (c :: r0)) as [[n r']|] eqn:E; [|discriminate].
      intros H. injection H as <- _. cbn [wf]. apply (parse_json_number_double _ _ _ E).
    + intros s l r. cbn [parse_elements].
      destruct (parse_value f s) as [[v r0]|] eqn:Ev; [|discriminate].
      destruct (skip_ws r0) as [|c r']; [discriminate|].
      destruct (c =? 93)%N.
      { intros H. injection H as <- _. cbn [forallb]. rewrite (IHv _ _ _ Ev). reflexivity. }
      destruct (c =? 44)%N; [|discriminate].
      destruct (parse_elements f r') as [[l' r'']|] eqn:Ee; [|discriminate].
      intros H. injection H as <- _. cbn [forallb].
      rewrite (IHv _ _ _ Ev), (IHe _ _ _ Ee). reflexivity.
    + intros acc s props r Wacc. cbn [parse_members].
      destruct (skip_ws s) as [|q r0]; [discriminate|].
      destruct (q =? 34)%N; [|discriminate].
      destruct (parse_string_chars r0) as [[key r1]|]; [|discriminate].
      destruct (skip_ws r1) as [|colon r2]; [discriminate|].
      destruct (colon =? 58)%N; [|discriminate].
      destruct (parse_value f r2) as [[v r3]|] eqn:Ev; [|discriminate].
      pose proof (obj_set_wf acc key v Wacc (IHv _ _ _ Ev)) as W'.
      cbv zeta.
      destruct (skip_ws r3) as [|c r4]; [discriminate|].
      destruct (c =? 125)%N; [intros H; injection H as <- _; exact W'|].
      destruct (c =? 44)%N; [|discriminate].
      apply IHm. exact W'.
Qed.

Lemma JSON_parse_wf (text : jsstring) (v : jsval) :
  JSON_parse text = Some v -> wf v = true.
Proof.
  unfold JSON_parse.
  destruct (parse_value (S (List.length text)) text) as [[v' r]|] eqn:E; [|discriminate].
  destruct (skip_ws r); [|discriminate].
  intros H. injection H as <-. apply (proj1 (parse_wf _) _ _ _ E).
Qed.

Lemma revive_keys (props : list (jsstring * jsval)) :
  List.map fst (List.map (fun kv => (fst kv, revive (snd kv))) props) = List.map fst props.
Proof.
  induction props as [|[k x] props IH]; [reflexivity|].
  cbn [List.map fst]. rewrite IH. reflexivity.
Qed.

Lemma wf_revive : forall v, wf v = true -> wf (revive v) = true.
Proof.
  apply (jsval_induction (fun v => wf v = true -> wf (revive v) = true));
    try (intros; assumption).
  - intros [| |n k] H; [reflexivity|reflexivity|exact H].
  - intros items IH W. cbn [wf revive] in *.
    induction IH as [|x items Hx _ IHl]; [reflexivity|].
    cbn [forallb] in W. apply andb_true_iff in W. destruct W as [Wx Wl].
    cbn [List.map forallb]. rewrite (Hx Wx), (IHl Wl). reflexivity.
  - intros props IH W. cbn [wf revive] in *.
    apply andb_true_iff in W. destruct W as [U W].
    rewrite revive_keys, U. cbn [andb].
    induction IH as [|[k x] props Hx _ IHl]; [reflexivity|].
    cbn [forallb snd] in W. apply andb_true_iff in W. destruct W as [Wx Wl].
    cbn [List.map forallb snd fst] in *.
    cbn [unique_keys] in U. apply andb_true_iff in U. destruct U as [_ U].
    rewrite (Hx Wx), (IHl U Wl). reflexivity.
Qed.

Lemma ToNumber_double (v : jsval) (n : number) :
  wf v = true -> ToNumber v = Some n -> is_double n = true.
Proof.
  unfold ToNumber, ToPrimitive.
  destruct v as [| |b|x|s|items|props]; cbn [wf option_map].
  - discriminate.
  - intros _ H. injection H as <-. reflexivity.
  - intros _ H. injection H as <-. destruct b; reflexivity.
  - intros W H. injection H as <-. exact W.
  - intros _ H. injection H as <-. apply StringToNumber_double.
  - intros _. destruct (ToString (VArr items)); cbn [option_map]; [|discriminate].
    intros H. injection H as <-. apply StringToNumber_double.
  - intros _. destruct (ToString (VObj props)); cbn [option_map]; [|discriminate].
    intros H. injection H as <-. apply StringToNumber_double.
Qed.

End WellFormedFacts.

(* ------------------------------------------------------------------ *)
(** ** The history store *)

Section StoreFacts.

Lemma blob_of_text (h : jsval) : wf h = true -> blob_of h = text_of h.
Proof.
  intros W. unfold blob_of. rewrite (stringify_some h W). reflexivity.
Qed.

Lemma bounded_wf (h : jsval) : bounded h -> wf h = true.
Proof. intros (l & -> & _ & W). exact W. Qed.

Lemma text_nonempty (v : jsval) : wf v = true -> nonempty (text_of v) = true.
Proof.
  intros W. destruct (text_opens v W) as (c & r & -> & _). reflexivity.
Qed.

Lemma bounded_nil : bounded (VArr []).
Proof. exists []. repeat split. simpl. lia. Qed.

Lemma bounded_revive (h : jsval) : bounded h -> bounded (revive h).
Proof.
  intros (l & -> & L & W). exists (List.map revive l).
  split; [reflexivity|]. split; [rewrite length_map; exact L|].
  exact (wf_revive (VArr l) W).
Qed.

(** Loading a text that [persist] wrote. *)
Lemma load_text (st : storage) (h : jsval) :
  wf h = true -> read_fault st = None -> url_history st = Some (text_of h) ->
  load st = revive h.
Proof.
  intros W R U. unfold load, getItem. rewrite R, U, (text_nonempty h W).
  rewrite (parse_stringify h W). reflexivity.
Qed.

Lemma load_bounded (st : storage) : stored_ok st -> bounded (load st).
Proof.
  intros [N|(h & B & U)]; unfold load, getItem.
  - destruct (read_fault st); [apply bounded_nil|]. rewrite N. apply bounded_nil.
  - destruct (read_fault st); [apply bounded_nil|]. rewrite U.
    rewrite (text_nonempty h (bounded_wf h B)), (parse_stringify h (bounded_wf h B)).
    apply bounded_revive, B.
Qed.

Lemma persist_stored_ok (st : storage) (h : jsval) :
  stored_ok st -> bounded h -> stored_ok (persist st h).
Proof.
  intros S B. unfold persist, setItem.
  destruct (write_fault st); [exact S|].
  right. exists h. split; [exact B|]. cbn [url_history].
  rewrite (blob_of_text h (bounded_wf h B)). reflexivity.
Qed.

Lemma persist_works (st : storage) (h : jsval) :
  write_fault st = None ->
  persist st h = {| url_history := Some (blob_of h);
                    read_fault := read_fault st;
                    write_fault := write_fault st |}.
Proof. intros Wr. unfold persist, setItem. rewrite Wr. reflexivity. Qed.

Lemma record_array (entry : jsval) (l : list jsval) :
  record entry (VArr l) = Some (VArr (firstn 20 (entry :: l))).
Proof. reflexivity. Qed.

Lemma forallb_firstn {A : Type} (f : A -> bool) (n : nat) (l : list A) :
  forallb f l = true -> forallb f (firstn n l) = true.
Proof.
  revert l. induction n as [|n IH]; intros [|x l]; simpl; auto.
  intros H. apply andb_true_iff in H. destruct H as [-> H]. apply IH, H.
Qed.

Lemma record_bounded (entry h h' : jsval) :
  wf entry = true -> bounded h -> record entry h = Some h' -> bounded h'.
Proof.
  intros We (l & -> & L & W). rewrite record_array. intros H. injection H as <-.
  exists (firstn 20 (entry :: l)). split; [reflexivity|].
  split; [apply firstn_le_length|].
  apply forallb_firstn. cbn [forallb]. rewrite We, W. reflexivity.
Qed.

End StoreFacts.

Section EntryFacts.
Context {P : platform}.

Lemma lookup_wf (key : jsstring) (props : list (jsstring * jsval)) (v : jsval) :
  forallb (fun kv => wf (snd kv)) props = true -> lookup key props = Some v -> wf v = true.
Proof.
  induction props as [|[k x] props IH]; [discriminate|].
  cbn [forallb snd lookup]. intros W. apply andb_true_iff in W. destruct W as [Wx Wl].
  destruct (str_eqb k key); [intros H; injection H as <-; exact Wx|apply IH, Wl].
Qed.

Lemma get_prop_wf (data : jsval) (key : jsstring) (v : jsval) :
  wf data = true -> get_prop data key = Some v -> truthy v = true -> wf v = true.
Proof.
  destruct data as [| |b|n|s|items|props]; simpl; try discriminate;
    try (intros _ H; injection H as <-; discriminate).
  intros W. apply andb_true_iff in W. destruct W as [_ W].
  destruct (lookup key props) as [x|] eqn:E.
  - intros H _. injection H as <-. apply (lookup_wf _ _ _ W E).
  - intros H. injection H as <-. discriminate.
Qed.

Lemma first_truthy_in (l : list jsval) (u : jsval) :
  first_truthy l = Some u -> In u l /\ truthy u = true.
Proof.
  induction l as [|v l IH]; [discriminate|]. cbn [first_truthy].
  destruct (truthy v) eqn:T.
  - intros H. injection H as <-. split; [left; reflexivity|exact T].
  - intros H. destruct (IH H) as [Hin Tu]. split; [right; exact Hin|exact Tu].
Qed.

Lemma parseValidityOrDefault_double (raw : jsstring) (minutes : number) :
  parseValidityOrDefault raw = Some minutes -> is_double minutes = true.
Proof.
  unfold parseValidityOrDefault.
  destruct (negb (nonempty raw) || str_eqb (trim raw) []);
    [intros H; injection H as <-; reflexivity|].
  cbv zeta. destruct (negb (isInteger _) || le_zero _); [discriminate|].
  intros H. injection H as <-. apply StringToNumber_double.
Qed.

(** What [interpret] gives on success is well formed. *)
Lemma interpret_wf (w : world) (minutes : number) (r : response) (u : jsval) (e : number) :
  interpret w minutes r = Ok (u, e) -> wf u = true /\ is_double e = true.
Proof.
  unfold interpret, json_of, read.
  destruct (ok r); cbn [negb]; [|destruct (body r); discriminate].
  destruct (body r) as [text|]; cbn [bind]; [|discriminate].
  destruct (JSON_parse text) as [data|] eqn:Ep; cbn [bind]; [|discriminate].
  pose proof (JSON_parse_wf _ _ Ep) as Wd.
  destruct (get_prop data (js "shortUrl")) as [a|] eqn:Ea; cbn [bind]; [|discriminate].
  destruct (get_prop data (js "short_url")) as [b|] eqn:Eb; cbn [bind]; [|discriminate].
  destruct (get_prop data (js "short")) as [c|] eqn:Ec; cbn [bind]; [|discriminate].
  destruct (get_prop data (js "expiresAt")) as [d|] eqn:Ed; cbn [bind]; [|discriminate].
  destruct (get_prop data (js "expires_at")) as [e'|] eqn:Ee; cbn [bind]; [|discriminate].
  cbv zeta.
  destruct (truthy (js_or (js_or (js_or a b) c) (VStr []))) eqn:T; cbn [negb]; [|discriminate].
  destruct (truthy (js_or (js_or d e') VNull)) eqn:Ts.
  - destruct (ToNumber (js_or (js_or d e') VNull)) as [n|] eqn:En; cbn [bind];
      [|discriminate].
    intros H. injection H as <- <-. split.
    + pose proof (js_or_first a b c) as F. cbv zeta in F. rewrite T in F.
      remember (js_or (js_or (js_or a b) c) (VStr [])) as u eqn:Eu. clear Eu.
      apply first_truthy_in in F. destruct F as [Hin Tu].
      destruct Hin as [Hu|[Hu|[Hu|[]]]]; subst u.
      * apply (get_prop_wf _ _ _ Wd Ea Tu).
      * apply (get_prop_wf _ _ _ Wd Eb Tu).
      * apply (get_prop_wf _ _ _ Wd Ec Tu).
    + refine (ToNumber_double _ _ _ En).
      pose proof (js_or_first2 d e') as F. cbv zeta in F. rewrite Ts in F.
      remember (js_or (js_or d e') VNull) as x eqn:Ex. clear Ex En.
      apply first_truthy_in in F. destruct F as [Hin Tu].
      destruct Hin as [Hx|[Hx|[]]]; subst x.
      * apply (get_prop_wf _ _ _ Wd Ed Tu).
      * apply (get_prop_wf _ _ _ Wd Ee Tu).
  - cbn [bind]. intros H. injection H as <- <-. split; [|apply fadd_double].
    pose proof (js_or_first a b c) as F. cbv zeta in F. rewrite T in F.
    remember (js_or (js_or (js_or a b) c) (VStr [])) as u eqn:Eu. clear Eu.
    apply first_truthy_in in F. destruct F as [Hin Tu].
    destruct Hin as [Hu|[Hu|[Hu|[]]]]; subst u.
    + apply (get_prop_wf _ _ _ Wd Ea Tu).
    + apply (get_prop_wf _ _ _ Wd Eb Tu).
    + apply (get_prop_wf _ _ _ Wd Ec Tu).
Qed.

Lemma make_entry_wf (w : world) (url : jsstring) (u : jsval) (e minutes : number) :
  wf u = true -> is_double e = true -> is_double minutes = true ->
  wf (make_entry w url u e minutes) = true.
Proof.
  intros Wu We Wm. unfold make_entry. cbn [wf List.map fst snd forallb].
  rewrite Wu, We, Wm. unfold clock_number. rewrite of_Q_double by lia. reflexivity.
Qed.

(** A submission keeps the history within its capacity. *)
Lemma submit_bounded (apiBaseUrl : jsstring) (w : world) (st st' : state) :
  bounded (history st) -> settled (handleSubmit apiBaseUrl w st) = Some st' ->
  bounded (history st').
Proof.
  intros B H.
  destruct (submit_cases apiBaseUrl w st)
    as [(l & m & _ & E)|(minutes & u & e & V & I & E)]; rewrite E in H.
  - injection H as <-. exact B.
  - destruct (record _ _) as [h|] eqn:R; [|discriminate]. injection H as <-.
    cbn [history succeeded].
    destruct (fetch w (request_of apiBaseUrl st minutes)) as [r|]; [|discriminate].
    cbn [bind] in I. destruct (interpret_wf _ _ _ _ _ I) as [Wu We].
    destruct V as (_ & _ & PV).
    apply (record_bounded _ _ _ (make_entry_wf w _ u e minutes Wu We
             (parseValidityOrDefault_double _ _ PV)) B R).
Qed.

Lemma mount_invariant (st : storage) : stored_ok st -> invariant (mount st).
Proof.
  intros S. split; cbn [hist store mount].
  - apply load_bounded, S.
  - apply persist_stored_ok; [exact S|apply load_bounded, S].
Qed.

Lemma step_invariant (s s' : session) : invariant s -> step s s' -> invariant s'.
Proof.
  intros [B S] [s'' [base w st st' Hh Hs Hm|base w st st' Hh Hs Hm Hr]| | |rf wf'].
  - split; assumption.
  - assert (B' : bounded (history st')).
    { apply (submit_bounded base w st st'); [rewrite Hh; exact B|exact Hs]. }
    split; [exact B'|]. apply persist_stored_ok; assumption.
  - split; [apply bounded_nil|]. apply persist_stored_ok; [exact S|apply bounded_nil].
  - apply mount_invariant, S.
  - split; [exact B|]. exact S.
Qed.

Lemma reachable_invariant (s : session) : reachable s -> invariant s.
Proof.
  induction 1 as [rf wf'|s s' _ IH St].
  - apply mount_invariant. left. reflexivity.
  - apply (step_invariant s s' IH St).
Qed.

End EntryFacts.

(** ** The history across reloads *)

Section HistoryClaims.
Context {P : platform}.






(** C9: when the key is missing, when the stored text is not JSON, and
    when reading the storage throws, [load] gives the empty collection;
    being a total function it never lets a fault out. *)
Theorem load_recovers (st : storage) :
  (url_history st = None -> load st = VArr []) /\
  (forall text, url_history st = Some text -> JSON_parse text = None -> load st = VArr []) /\
  (forall m, read_fault st = Some m -> load st = VArr []).
Proof.
  unfold load, getItem. split; [|split].
  - intros ->. destruct (read_fault st); reflexivity.
  - intros text E N. rewrite E. destruct (read_fault st); [reflexivity|].
    cbv beta iota. rewrite N. destruct (nonempty text); reflexivity.
  - intros m ->. reflexivity.
Qed.



End HistoryClaims.

Section HistoryExamples.


Lemma load_recovers_witness :
  load (fresh None None) = VArr [] /\
  load {| url_history := Some (json_text "[{'longUrl':");
          read_fault := None; write_fault := None |} = VArr [] /\
  load {| url_history := Some (json_text "[]");
          read_fault := Some (js "The operation is insecure.");
          write_fault := None |} = VArr [].
Proof.
  split; [|split].
  - apply (proj1 (load_recovers (fresh None None))). reflexivity.
  - apply (proj1 (proj2 (load_recovers _)) (json_text "[{'longUrl':")).
    + reflexivity.
    + vm_compute. reflexivity.
  - apply (proj2 (proj2 (load_recovers _)) (js "The operation is insecure.")).
    reflexivity.
Defined.

(** The reload of a store that other code has written is not truncated:
    the bound of 20 is kept by [record], not by [load]. *)
Example load_foreign_blob :
  load {| url_history := Some (js "[1,2,3,4,5,6,7,8,9,10,11,12,13,14,15,16,17,18,19,20,21]");
          read_fault := None; write_fault := None |}
  = VArr (List.map (fun i => VNum (of_int (Z.of_nat i))) (seq 1 21)).
Proof. vm_compute. reflexivity. Qed.



End HistoryExamples.

(** ** The number model on known values *)

(** Conversions and one sum, checked against the values an engine gives. *)
Example number_examples :
  StringToNumber (js "2.5") = Fin 5 1 /\
  StringToNumber (js " 15 ") = Fin 15 0 /\
  StringToNumber (js "0x10") = Fin 16 0 /\
  StringToNumber (js "1e2") = Fin 100 0 /\
  StringToNumber (js "1.00000000000000000001") = Fin 1 0 /\
  StringToNumber (js "9007199254740993") = Fin 9007199254740992 0 /\
  StringToNumber (js "1e400") = Inf false /\
  StringToNumber (js "0.1") = Fin 3602879701896397 55 /\
  StringToNumber (js "5e-324") = Fin 1 1074 /\
  StringToNumber (js "2e-324") = Fin 0 0 /\
  StringToNumber (js "3e-324") = Fin 1 1074 /\
  StringToNumber (js "1.7976931348623157e308") = Fin (2^1024 - 2^971) 0 /\
  StringToNumber (js "1.7976931348623159e308") = Inf false /\
  StringToNumber (js "-.5E+1") = Fin (-5) 0 /\
  StringToNumber (js "abc") = NaN /\
  StringToNumber (js "1e") = NaN /\
  StringToNumber (js ".") = NaN /\
  StringToNumber (js "5.") = Fin 5 0 /\
  StringToNumber (js "-0x10") = NaN /\
  StringToNumber (js "-Infinity") = Inf true /\
  fadd (StringToNumber (js "0.1")) (StringToNumber (js "0.2")) = Fin 1351079888211149 52.
Proof. vm_compute. repeat split. Qed.

(* ------------------------------------------------------------------ *)
(** ** More on [handleSubmit] *)

Section SubmitMore.
Context {P : platform}.
Variables (apiBaseUrl : jsstring) (w : world) (st : state).

(** A short URL that [interpret] lets through is truthy. *)
Lemma interpret_truthy (minutes : number) (r : response) (u : jsval) (e : number) :
  interpret w minutes r = Ok (u, e) -> truthy u = true.
Proof.
  unfold interpret, json_of, read.
  destruct (ok r); cbn [negb]; [|destruct (body r); discriminate].
  destruct (body r) as [text|]; cbn [bind]; [|discriminate].
  destruct (JSON_parse text) as [data|]; cbn [bind]; [|discriminate].
  destruct (get_prop data (js "shortUrl")) as [a|]; cbn [bind]; [|discriminate].
  destruct (get_prop data (js "short_url")) as [b|]; cbn [bind]; [|discriminate].
  destruct (get_prop data (js "short")) as [c|]; cbn [bind]; [|discriminate].
  destruct (get_prop data (js "expiresAt")) as [d|]; cbn [bind]; [|discriminate].
  destruct (get_prop data (js "expires_at")) as [e'|]; cbn [bind]; [|discriminate].
  cbv zeta.
  destruct (truthy (js_or (js_or (js_or a b) c) (VStr []))) eqn:T; cbn [negb]; [|discriminate].
  destruct (if truthy (js_or (js_or d e') VNull)
            then match ToNumber (js_or (js_or d e') VNull) with
                 | Some n => Ok n
                 | None => Throw msg_not_primitive
                 end
            else Ok (fadd (clock_number (now_expiry w))
                          (fmul (fmul minutes (of_int 60)) (of_int 1000))))
    as [n|]; cbn [bind]; [|discriminate].
  intros H. injection H as <- _. exact T.
Qed.

(** Whether the three checks pass is decided. *)
Lemma validated_dec :
  (exists minutes, validated st minutes) \/
  ((trim (longUrl st) = [] \/ isValidHttpUrl (trim (longUrl st)) = false \/
    parseValidityOrDefault (validityMinutes st) = None) /\
   forall minutes, ~ validated st minutes).
Proof.
  destruct (nonempty (trim (longUrl st))) eqn:H1.
  2:{ right. split; [left; apply nonempty_false, H1|].
      intros m (A & _). congruence. }
  destruct (isValidHttpUrl (trim (longUrl st))) eqn:H2.
  2:{ right. split; [right; left; reflexivity|]. intros m (_ & A & _). congruence. }
  destruct (parseValidityOrDefault (validityMinutes st)) as [minutes|] eqn:H3.
  - left. exists minutes. repeat split; assumption.
  - right. split; [right; right; reflexivity|]. intros m (_ & _ & A). congruence.
Qed.

(** A submission that passes the checks issues its one request. *)
Lemma requests_validated (minutes : number) :
  validated st minutes ->
  requests (handleSubmit apiBaseUrl w st) = [request_of apiBaseUrl st minutes].
Proof.
  intros V. rewrite (handleSubmit_validated _ _ _ minutes V).
  destruct (r <- fetch w (request_of apiBaseUrl st minutes) ;; interpret w minutes r)
    as [[u e]|m]; reflexivity.
Qed.

(** A submission that fails a check issues none and says which. *)
Lemma unvalidated_fails :
  (forall minutes, ~ validated st minutes) ->
  requests (handleSubmit apiBaseUrl w st) = [] /\
  exists m, In m [msg_missing_url; msg_invalid_url; msg_invalid_validity] /\
    settled (handleSubmit apiBaseUrl w st) = Some (failed st (isLoading st) m).
Proof.
  intros N. unfold handleSubmit.
  destruct (nonempty (trim (longUrl st))) eqn:H1; cbn [negb].
  2:{ split; [reflexivity|]. exists msg_missing_url. split; [left; reflexivity|reflexivity]. }
  destruct (isValidHttpUrl (trim (longUrl st))) eqn:H2; cbn [negb].
  2:{ split; [reflexivity|]. exists msg_invalid_url.
      split; [right; left; reflexivity|reflexivity]. }
  destruct (parseValidityOrDefault (validityMinutes st)) as [minutes|] eqn:H3.
  - exfalso. apply (N minutes). repeat split; assumption.
  - split; [reflexivity|]. exists msg_invalid_validity.
    split; [right; right; left; reflexivity|reflexivity].
Qed.

(** X1: [handleSubmit] issues a request exactly when the three checks
    pass, and then exactly one; when a check fails nothing is sent, the
    message is one of the three validation messages and [isLoading] is
    left as it was; a validity that does not resolve gives the message
    about the positive integer. *)
Theorem submit_requests :
  (forall minutes, validated st minutes ->
     requests (handleSubmit apiBaseUrl w st) = [request_of apiBaseUrl st minutes]) /\
  ((forall minutes, ~ validated st minutes) ->
     requests (handleSubmit apiBaseUrl w st) = [] /\
     exists m, In m [msg_missing_url; msg_invalid_url; msg_invalid_validity] /\
       settled (handleSubmit apiBaseUrl w st) = Some (failed st (isLoading st) m)) /\
  (trim (longUrl st) <> [] -> isValidHttpUrl (trim (longUrl st)) = true ->
   parseValidityOrDefault (validityMinutes st) = None ->
   requests (handleSubmit apiBaseUrl w st) = [] /\
   settled (handleSubmit apiBaseUrl w st)
     = Some (failed st (isLoading st) msg_invalid_validity)).
Proof.
  split; [exact requests_validated|]. split; [exact unvalidated_fails|].
  intros H1 H2 H3. unfold handleSubmit.
  apply nonempty_true in H1. rewrite H1, H2, H3. split; reflexivity.
Qed.


Lemma payload_wf (url : jsstring) (minutes : number) (alias_field : jsstring) :
  is_double minutes = true -> wf (payload url minutes alias_field) = true.
Proof.
  intros D. unfold payload.
  destruct (nonempty (trim alias_field)); cbn [app wf List.map fst snd forallb];
    rewrite D; reflexivity.
Qed.

Lemma payload_finite (url : jsstring) (n : Z) (k : N) (alias_field : jsstring) :
  finite_numbers (payload url (Fin n k) alias_field) = true.
Proof.
  unfold payload. destruct (nonempty (trim alias_field)); reflexivity.
Qed.

Lemma parseValidityOrDefault_positive (raw : jsstring) (minutes : number) :
  parseValidityOrDefault raw = Some minutes -> exists n, 0 < n /\ minutes = Fin n 0.
Proof.
  intros H. pose proof (parseValidityOrDefault_double _ _ H) as D.
  unfold parseValidityOrDefault in H.
  destruct (negb (nonempty raw) || str_eqb (trim raw) []).
  - injection H as <-. exists 30. split; [lia|reflexivity].
  - cbv zeta in H.
    destruct (isInteger (StringToNumber (trim raw))) eqn:I; cbn [negb orb] in H;
      [|discriminate].
    destruct (le_zero (StringToNumber (trim raw))) eqn:L; [discriminate|].
    injection H as <-. apply whole_positive; assumption.
Qed.

(** X2: whatever [handleSubmit] sends is the only request, a POST to
    [apiBaseUrl + '/shorten'] with a JSON content type, and its body
    reads back as the object with the trimmed URL, which the validator
    accepts, the resolved validity, a positive whole number, and the
    trimmed alias when that is not blank, in this order and nothing
    else. *)
Theorem submit_request_body (req : request) :
  In req (requests (handleSubmit apiBaseUrl w st)) ->
  requests (handleSubmit apiBaseUrl w st) = [req] /\
  exists m,
    0 < m /\ parseValidityOrDefault (validityMinutes st) = Some (Fin m 0) /\
    trim (longUrl st) <> [] /\ isValidHttpUrl (trim (longUrl st)) = true /\
    req_url req = apiBaseUrl ++ js "/shorten" /\
    req_method req = js "POST" /\
    req_content_type req = js "application/json" /\
    JSON_parse (req_body req)
      = Some (VObj ([(js "url", VStr (trim (longUrl st))); (js "validity", VNum (Fin m 0))]
                    ++ (if nonempty (trim (alias st))
                        then [(js "alias", VStr (trim (alias st)))] else []))).
Proof.
  intros Hin. destruct validated_dec as [[minutes V]|[_ N]].
  2:{ rewrite (proj1 (unvalidated_fails N)) in Hin. destruct Hin. }
  rewrite (requests_validated minutes V) in *.
  destruct Hin as [<-|[]]. split; [reflexivity|].
  pose proof V as (V1 & V2 & PV).
  pose proof (parseValidityOrDefault_double _ _ PV) as D.
  destruct (parseValidityOrDefault_positive _ _ PV) as (n & Hn & ->).
  exists n. split; [exact Hn|]. split; [exact PV|].
  split; [apply nonempty_true, V1|]. split; [exact V2|].
  split; [reflexivity|]. split; [reflexivity|]. split; [reflexivity|].
  unfold request_of, make_request. cbn [req_body].
  rewrite (blob_of_text _ (payload_wf _ _ _ D)).
  rewrite (parse_stringify _ (payload_wf _ _ _ D)).
  rewrite (revive_finite _ (payload_finite _ _ _ _)). reflexivity.
Qed.

(** X3: after the three checks, a [fetch] that rejects, a body that
    cannot be read, a body that is not JSON and a body that is [null] end
    the submission with the error's message, or with 'Something went
    wrong' when that message is empty, and with [isLoading] off. *)
Theorem submit_transport_error (minutes : number) :
  validated st minutes ->
  (forall m, fetch w (request_of apiBaseUrl st minutes) = Throw m ->
     settled (handleSubmit apiBaseUrl w st)
       = Some (failed st false (if nonempty m then m else msg_generic))) /\
  (forall r m, fetch w (request_of apiBaseUrl st minutes) = Ok r -> body r = Throw m ->
     settled (handleSubmit apiBaseUrl w st)
       = Some (failed st false (if nonempty m then m else msg_generic))) /\
  (forall r text, fetch w (request_of apiBaseUrl st minutes) = Ok r -> ok r = true ->
     body r = Ok text -> JSON_parse text = None ->
     settled (handleSubmit apiBaseUrl w st)
       = Some (failed st false (if nonempty (msg_json_syntax text)
                                then msg_json_syntax text else msg_generic))) /\
  (forall r text, fetch w (request_of apiBaseUrl st minutes) = Ok r -> ok r = true ->
     body r = Ok text -> JSON_parse text = Some VNull ->
     settled (handleSubmit apiBaseUrl w st)
       = Some (failed st false (if nonempty (msg_null_property (js "shortUrl"))
                                then msg_null_property (js "shortUrl") else msg_generic))).
Proof.
  intros V. rewrite (handleSubmit_validated _ _ _ minutes V).
  split; [|split; [|split]].
  - intros m ->. reflexivity.
  - intros r m -> B. cbn [bind]. unfold interpret, json_of.
    destruct (ok r); cbn [negb]; rewrite B; reflexivity.
  - intros r text -> O B J. cbn [bind]. unfold interpret, json_of.
    rewrite O, B. cbn [negb bind]. rewrite J. reflexivity.
  - intros r text -> O B J. cbn [bind]. unfold interpret, json_of.
    rewrite O, B. cbn [negb bind]. rewrite J. reflexivity.
Qed.

(** X4: a submission that ends without an error message has put in
    front of the history the entry of what it shows: the trimmed URL, the
    short URL and the expiry of the state, the resolved validity and the
    time of creation; the 19 newest earlier entries follow; the alias is
    emptied, [isLoading] is off, the other two inputs keep their text. *)
Theorem submit_success_entry (st' : state) (items : list jsval) :
  history st = VArr items ->
  settled (handleSubmit apiBaseUrl w st) = Some st' ->
  errorMessage st' = [] ->
  exists minutes e,
    validated st minutes /\
    truthy (shortUrl st') = true /\
    expiresAt st' = VNum e /\
    history st' = VArr (VObj [(js "longUrl", VStr (trim (longUrl st)));
                              (js "shortUrl", shortUrl st');
                              (js "createdAt", VNum (clock_number (now_created w)));
                              (js "expiresAt", VNum e);
                              (js "validityMinutes", VNum minutes)]
                        :: firstn 19 items) /\
    alias st' = [] /\ isLoading st' = false /\
    longUrl st' = longUrl st /\ validityMinutes st' = validityMinutes st.
Proof.
  intros Hh H E.
  destruct (submit_cases apiBaseUrl w st)
    as [(l & m & Nm & Es)|(minutes & u & e & V & I & Es)]; rewrite Es in H.
  - injection H as <-. cbn [errorMessage failed] in E. contradiction.
  - rewrite Hh, record_array in H. cbn [option_map] in H. injection H as <-.
    exists minutes, e. split; [exact V|].
    destruct (fetch w (request_of apiBaseUrl st minutes)) as [r|]; [|discriminate].
    cbn [bind] in I. split; [apply (interpret_truthy _ _ _ _ I)|].
    repeat split.
Qed.

End SubmitMore.

Section SubmitMore2.
Context {P : platform}.
Variables (apiBaseUrl : jsstring) (w : world) (st : state).

(** X5: a submission never changes the text of the URL and validity
    inputs; it empties the alias when it succeeds and keeps it when it
    fails. *)
Theorem submit_inputs (st' : state) :
  settled (handleSubmit apiBaseUrl w st) = Some st' ->
  longUrl st' = longUrl st /\ validityMinutes st' = validityMinutes st /\
  (errorMessage st' <> [] -> alias st' = alias st) /\
  (errorMessage st' = [] -> alias st' = []).
Proof.
  intros H.
  destruct (submit_cases apiBaseUrl w st)
    as [(l & m & Nm & Es)|(minutes & u & e & V & Hi & Es)]; rewrite Es in H.
  - injection H as <-. cbn [longUrl validityMinutes alias errorMessage failed].
    repeat split. intros E. contradiction.
  - destruct (record _ _) as [h|]; [|discriminate]. injection H as <-.
    cbn [longUrl validityMinutes alias errorMessage succeeded].
    repeat split. intros E. contradiction.
Qed.

(** X6: the updater of the history throws exactly when lines 85-97 went
    through (the answer gave a truthy short URL and the expiry was
    obtained without a throw) and the history it spreads is not
    iterable. *)
Theorem submit_unsettled_iff :
  settled (handleSubmit apiBaseUrl w st) = None <->
  spread (history st) = None /\
  exists minutes u e,
    validated st minutes /\
    (r <- fetch w (request_of apiBaseUrl st minutes) ;; interpret w minutes r) = Ok (u, e).
Proof.
  destruct (submit_cases apiBaseUrl w st)
    as [(l & m & Nm & Es)|(minutes & u & e & V & Hi & Es)]; rewrite Es.
  - split; [discriminate|]. intros [_ (minutes & u & e & V & Hi)].
    exfalso. rewrite (handleSubmit_validated _ _ _ minutes V), Hi in Es.
    cbn [settled] in Es. destruct (record _ _); discriminate.
  - unfold record. destruct (spread (history st)) as [items|].
    + split; [discriminate|]. intros [N _]. discriminate.
    + split; [|reflexivity]. intros _. split; [reflexivity|].
      exists minutes, u, e. split; assumption.
Qed.

End SubmitMore2.

(* ------------------------------------------------------------------ *)
(** ** The shape of the history *)

Section ShapeFacts.
Context {P : platform}.

Lemma revive_defined (v : jsval) : v <> VUndefined -> revive v <> VUndefined.
Proof. destruct v as [| | |[| |]| | |]; cbn [revive]; congruence. Qed.

Lemma number_or_null_revive (v : jsval) : number_or_null v -> number_or_null (revive v).
Proof. destruct v as [| | |[| |]| | |]; cbn [revive number_or_null]; auto. Qed.

Lemma entry_ok_revive (e : jsval) : entry_ok e -> entry_ok (revive e).
Proof.
  intros (u & s & c & x & m & -> & U & T & V & S & C & X & M).
  exists u, (revive s), (revive c), (revive x), m.
  split; [reflexivity|]. repeat (split; [assumption|]).
  split; [apply revive_defined, S|].
  split; [apply number_or_null_revive, C|].
  split; [apply number_or_null_revive, X|exact M].
Qed.

Lemma shaped_nil : shaped (VArr []).
Proof. split; [apply bounded_nil|]. exists []. split; [reflexivity|constructor]. Qed.

Lemma shaped_revive (h : jsval) : shaped h -> shaped (revive h).
Proof.
  intros [B (l & -> & F)]. split; [apply bounded_revive, B|].
  exists (List.map revive l). split; [reflexivity|].
  apply Forall_map. revert F. apply Forall_impl. exact entry_ok_revive.
Qed.

Lemma load_shaped (st : storage) : stored_shaped st -> shaped (load st).
Proof.
  intros [N|(h & S & U)]; unfold load, getItem.
  - destruct (read_fault st); [apply shaped_nil|]. rewrite N. apply shaped_nil.
  - destruct (read_fault st); [apply shaped_nil|]. rewrite U.
    destruct S as [B F].
    rewrite (text_nonempty h (bounded_wf h B)), (parse_stringify h (bounded_wf h B)).
    apply shaped_revive. split; assumption.
Qed.

Lemma persist_stored_shaped (st : storage) (h : jsval) :
  stored_shaped st -> shaped h -> stored_shaped (persist st h).
Proof.
  intros S H. unfold persist, setItem.
  destruct (write_fault st); [exact S|].
  right. exists h. split; [exact H|]. cbn [url_history].
  rewrite (blob_of_text h (bounded_wf h (proj1 H))). reflexivity.
Qed.

Lemma Forall_firstn_keep {A : Type} (Q : A -> Prop) (n : nat) (l : list A) :
  Forall Q l -> Forall Q (firstn n l).
Proof.
  intros F. revert n. induction F as [|x l Hx _ IH]; intros [|n]; cbn [firstn];
    constructor; [exact Hx|apply IH].
Qed.

Lemma truthy_defined (v : jsval) : truthy v = true -> v <> VUndefined.
Proof. intros T ->. discriminate. Qed.

Lemma submit_shaped (apiBaseUrl : jsstring) (w : world) (st st' : state) :
  shaped (history st) -> settled (handleSubmit apiBaseUrl w st) = Some st' ->
  shaped (history st').
Proof.
  intros [B (l & Hl & F)] H. split; [apply (submit_bounded apiBaseUrl w st st' B H)|].
  destruct (submit_cases apiBaseUrl w st)
    as [(lo & m & _ & E)|(minutes & u & e & V & Hi & E)]; rewrite E in H.
  - injection H as <-. exists l. split; assumption.
  - rewrite Hl, record_array in H. injection H as <-.
    exists (firstn 20 (make_entry w (trim (longUrl st)) u e minutes :: l)).
    split; [reflexivity|]. apply Forall_firstn_keep. constructor; [|exact F].
    destruct (fetch w (request_of apiBaseUrl st minutes)) as [r|]; [|discriminate].
    cbn [bind] in Hi. pose proof (interpret_truthy w minutes r u e Hi) as T.
    destruct V as (V1 & V2 & V3).
    destruct (parseValidityOrDefault_positive _ _ V3) as (n & Hn & ->).
    exists (trim (longUrl st)), u, (VNum (clock_number (now_created w))), (VNum e), n.
    split; [reflexivity|]. split; [apply nonempty_true, V1|].
    split; [apply trim_idem|]. split; [exact V2|].
    split; [apply truthy_defined, T|]. split; [exact I|]. split; [exact I|exact Hn].
Qed.

Lemma mount_shaped (st : storage) :
  stored_shaped st -> shaped (hist (mount st)) /\ stored_shaped (store (mount st)).
Proof.
  intros S. split; cbn [hist store mount].
  - apply load_shaped, S.
  - apply persist_stored_shaped; [exact S|apply load_shaped, S].
Qed.

Lemma step_shaped (s s' : session) :
  shaped (hist s) /\ stored_shaped (store s) -> step s s' ->
  shaped (hist s') /\ stored_shaped (store s').
Proof.
  intros [B S] [s'' [base w st st' Hh Hs Hm|base w st st' Hh Hs Hm Hr]| | |rf wf'].
  - split; assumption.
  - assert (B' : shaped (history st')).
    { apply (submit_shaped base w st st'); [rewrite Hh; exact B|exact Hs]. }
    split; [exact B'|]. apply persist_stored_shaped; assumption.
  - split; [apply shaped_nil|]. apply persist_stored_shaped; [exact S|apply shaped_nil].
  - apply mount_shaped, S.
  - split; [exact B|]. exact S.
Qed.

Lemma reachable_shaped (s : session) :
  reachable s -> shaped (hist s) /\ stored_shaped (store s).
Proof.
  induction 1 as [rf wf'|s s' _ IH St].
  - apply mount_shaped. left. reflexivity.
  - apply (step_shaped s s' IH St).
Qed.

(** X8: in every session the history is an array of at most 20 entries,
    each with the five properties in the order of line 102: a long URL
    that is trimmed, not empty and accepted by the validator, a short URL
    that is not [undefined], a creation time and an expiry that are
    numbers or [null], and a validity that is a positive whole number. *)
Theorem history_entries_shape (s : session) :
  reachable s ->
  exists l, hist s = VArr l /\ (List.length l <= 20)%nat /\ Forall entry_ok l.
Proof.
  intros R. destruct (reachable_shaped s R) as [[(l & E & L & _) (l' & E' & F)] _].
  exists l. split; [exact E|]. split; [exact L|].
  rewrite E in E'. injection E' as <-. exact F.
Qed.


End ShapeFacts.

(* ------------------------------------------------------------------ *)
(** ** Reloading, clearing and failing writes *)

Section ReloadFacts.
Context {P : platform}.

Lemma revive_idem : forall v, revive (revive v) = revive v.
Proof.
  apply (jsval_induction (fun v => revive (revive v) = revive v)); try reflexivity.
  - intros [| |n k]; reflexivity.
  - intros items IH. cbn [revive]. f_equal. rewrite map_map.
    apply map_ext_Forall. exact IH.
  - intros props IH. cbn [revive]. f_equal. rewrite map_map.
    apply map_ext_Forall. revert IH. apply Forall_impl.
    intros [k v] H. cbn [fst snd] in *. rewrite H. reflexivity.
Qed.

Lemma persist_idem (st : storage) (h : jsval) : persist (persist st h) h = persist st h.
Proof.
  unfold persist, setItem. destruct (write_fault st) eqn:W; cbn [write_fault];
    rewrite ?W; reflexivity.
Qed.

(** What [load] gives is either the empty array or what the parser
    returned. *)
Lemma load_stored_ok (st : storage) :
  stored_ok st -> wf (load st) = true /\ revive (load st) = load st.
Proof.
  intros [N|(h & B & U)]; unfold load, getItem.
  - destruct (read_fault st); [split; reflexivity|]. rewrite N. split; reflexivity.
  - destruct (read_fault st); [split; reflexivity|]. rewrite U.
    rewrite (text_nonempty h (bounded_wf h B)), (parse_stringify h (bounded_wf h B)).
    split; [apply wf_revive, bounded_wf, B|apply revive_idem].
Qed.

Lemma load_persist_fixed (st : storage) (v : jsval) :
  wf v = true -> revive v = v -> write_fault st = None -> read_fault st = None ->
  load (persist st v) = v.
Proof.
  intros W F Wr Rd. rewrite (persist_works _ _ Wr).
  rewrite (load_text _ v W); [exact F|exact Rd|].
  cbn [url_history]. rewrite (blob_of_text _ W). reflexivity.
Qed.

Lemma mount_mount (st : storage) : stored_ok st -> mount (store (mount st)) = mount st.
Proof.
  intros S. destruct (load_stored_ok st S) as [W F].
  unfold mount. cbn [store].
  assert (L : load (persist st (load st)) = load st).
  { destruct (write_fault st) as [m|] eqn:Wr.
    - unfold persist, setItem. rewrite Wr. reflexivity.
    - destruct (read_fault st) as [m|] eqn:Rd.
      + rewrite (persist_works _ _ Wr). unfold load, getItem. cbn [read_fault].
        rewrite Rd. reflexivity.
      + apply load_persist_fixed; assumption. }
  rewrite L, persist_idem. reflexivity.
Qed.

(** X10: reloading twice gives the history and the stored item of
    reloading once, whatever the storage faults are. *)
Theorem reload_idempotent (s : session) :
  reachable s -> mount (store (mount (store s))) = mount (store s).
Proof.
  intros R. apply mount_mount. apply (reachable_invariant s R).
Qed.

(** X11: after [handleClearHistory] the component shows the note that
    there is nothing yet and no Clear button; when the write succeeds the
    stored item is the text of the empty array and a reload starts
    empty. *)
Theorem clear_then_reload (s : session) (apiBaseUrl : jsstring) (st : state) :
  (exists v, App_view apiBaseUrl (handleClearHistory st) = Some v /\
             recent v = NoneYet /\ clear_button v = false) /\
  (write_fault (store s) = None ->
   url_history (persist (store s) (history (handleClearHistory st))) = Some (js "[]") /\
   hist (mount (persist (store s) (history (handleClearHistory st)))) = VArr []).
Proof.
  split.
  - eexists. split; [reflexivity|]. split; reflexivity.
  - intros Wr. cbn [history handleClearHistory].
    rewrite (persist_works _ _ Wr). split; [reflexivity|].
    cbn [mount hist]. unfold load, getItem. cbn [read_fault url_history].
    destruct (read_fault (store s)); reflexivity.
Qed.

(** X12: mounting on an item that is missing, is not JSON or cannot be
    read starts with the empty history, and when the storage can be
    written the effect replaces the item by the text of the empty
    array. *)
Theorem mount_resets_item (st : storage) :
  write_fault st = None ->
  url_history st = None \/
  (exists text, url_history st = Some text /\ JSON_parse text = None) \/
  read_fault st <> None ->
  hist (mount st) = VArr [] /\ url_history (store (mount st)) = Some (js "[]").
Proof.
  intros Wr H.
  assert (L : load st = VArr []).
  { unfold load, getItem. destruct (read_fault st) as [m|]; [reflexivity|].
    destruct H as [->|[(text & -> & ->)|N]]; [reflexivity| |congruence].
    destruct (nonempty text); reflexivity. }
  cbn [mount hist store]. rewrite L. split; [reflexivity|].
  rewrite (persist_works _ _ Wr). reflexivity.
Qed.

(** X13: while writing to the storage fails, a submission and a clear
    leave the stored item as it was, without any error: a reload then
    gives what a reload before them would have given. *)
Theorem failed_write_is_silent (s s' : session) (m : jsstring) :
  write_fault (store s) = Some m ->
  submits s s' \/ s' = {| store := persist (store s) clear; hist := clear |} ->
  store s' = store s /\ mount (store s') = mount (store s).
Proof.
  intros Wr H.
  assert (E : forall h, persist (store s) h = store s).
  { intros h. unfold persist, setItem. rewrite Wr. reflexivity. }
  destruct H as [[base w st st' Hh Hs Hm|base w st st' Hh Hs Hm Hr]| ->];
    cbn [store]; rewrite ?E; split; reflexivity.
Qed.

End ReloadFacts.

(* ------------------------------------------------------------------ *)
(** ** What the component shows *)

Section ViewFacts.
Context {P : platform}.

Lemma get_prop_field (item : jsval) (key : string) :
  has_properties item -> get_prop item (js key) = Some (field item key).
Proof.
  intros [N U]. unfold field.
  destruct item; try congruence; try reflexivity.
  cbn [get_prop]. destruct (lookup (js key) props); reflexivity.
Qed.

Lemma row_of_some (idx : nat) (item : jsval) :
  has_properties item -> row_of idx item = Some (row_at idx item).
Proof.
  intros H. unfold row_of.
  rewrite (get_prop_field item "shortUrl" H), (get_prop_field item "createdAt" H),
          (get_prop_field item "longUrl" H), (get_prop_field item "expiresAt" H).
  reflexivity.
Qed.

Lemma row_of_none (idx : nat) (item : jsval) :
  ~ has_properties item -> row_of idx item = None.
Proof.
  intros H. destruct item; try reflexivity; exfalso; apply H; split; discriminate.
Qed.

Lemma has_properties_dec (item : jsval) : {has_properties item} + {~ has_properties item}.
Proof.
  destruct item; try (left; split; discriminate); right; intros [A B]; congruence.
Qed.

Lemma rows_from_some (items : list jsval) : forall idx,
  Forall has_properties items ->
  rows_from idx items
  = Some (List.map (fun p => row_at (fst p) (snd p))
            (combine (seq idx (List.length items)) items)).
Proof.
  induction items as [|item items IH]; intros idx F; [reflexivity|].
  inversion F as [|? ? H F']; subst.
  cbn [rows_from List.length seq combine List.map fst snd].
  rewrite (row_of_some idx item H), (IH (S idx) F'). reflexivity.
Qed.

Lemma rows_from_none (items : list jsval) : forall idx,
  ~ Forall has_properties items -> rows_from idx items = None.
Proof.
  induction items as [|item items IH]; intros idx N.
  - exfalso. apply N. constructor.
  - cbn [rows_from]. destruct (has_properties_dec item) as [H|H].
    + rewrite (row_of_some idx item H), IH; [reflexivity|].
      intros F. apply N. constructor; assumption.
    + rewrite (row_of_none idx item H). reflexivity.
Qed.

Lemma is_zero_length {A : Type} (l : list A) :
  is_zero (VNum (of_int (Z.of_nat (List.length l)))) = match l with [] => true | _ => false end.
Proof. destruct l; reflexivity. Qed.


Lemma entry_ok_has_properties (e : jsval) : entry_ok e -> has_properties e.
Proof. intros (u & s & c & x & m & -> & _). split; discriminate. Qed.

Lemma gt_zero_length {A : Type} (l : list A) :
  gt_zero (VNum (of_int (Z.of_nat (List.length l)))) = match l with [] => false | _ => true end.
Proof. destruct l; reflexivity. Qed.


Variables (apiBaseUrl : jsstring) (w : world) (st : state).


End ViewFacts.

Section ApiBase.
Context {P : platform}.

(** X16: when the variable of the API base is not set or empty the
    request goes to ['/shorten'] and the footer says '(same origin)';
    otherwise the request goes to the base followed by ['/shorten'] and
    the footer shows the base. *)
Theorem api_base_same_origin (env : option jsstring) (w : world) (st : state)
    (minutes : number) (v : view) :
  validated st minutes -> App_view (apiBaseUrl_of env) st = Some v ->
  (env = None \/ env = Some [] ->
   api_base v = same_origin /\
   List.map req_url (requests (handleSubmit (apiBaseUrl_of env) w st)) = [js "/shorten"]) /\
  (forall base, env = Some base -> base <> [] ->
   api_base v = base /\
   List.map req_url (requests (handleSubmit (apiBaseUrl_of env) w st))
     = [base ++ js "/shorten"]).
Proof.
  intros V Hv.
  rewrite (requests_validated (apiBaseUrl_of env) w st minutes V).
  unfold App_view in Hv.
  destruct (length_of (history st)) as [len|]; [|discriminate].
  destruct (if is_zero len then Some NoneYet else option_map Listed (map_rows (history st)))
    as [card|]; [|discriminate].
  injection Hv as <-. cbn [api_base List.map request_of make_request req_url].
  split.
  - intros [->| ->]; split; reflexivity.
  - intros base -> N. destruct base as [|c base]; [congruence|]. split; reflexivity.
Qed.

End ApiBase.

Section ExpiryLine.
Context {P : platform}.
Variables (apiBaseUrl : jsstring) (w : world) (st : state).

Lemma App_view_array (s : state) (item : jsval) (items : list jsval) :
  history s = VArr (item :: items) -> Forall has_properties (item :: items) ->
  App_view apiBaseUrl s
  = Some {| long_url_value := longUrl s;
            alias_value := alias s;
            validity_value := validityMinutes s;
            alert := guarded (VStr (errorMessage s)) (errorMessage s);
            submit_disabled := isLoading s;
            submit_label := if isLoading s then label_loading else label_idle;
            result :=
              guarded (shortUrl s)
                {| short_link := shortUrl s;
                   expires_line := guarded (expiresAt s) (expiresAt s) |};
            clear_button := true;
            recent := Listed (List.map (fun p => row_at (fst p) (snd p))
                                (combine (seq 0 (List.length (item :: items)))
                                         (item :: items)));
            api_base := if nonempty apiBaseUrl then apiBaseUrl else same_origin |}.
Proof.
  intros E F. unfold App_view. rewrite E. cbn [length_of].
  rewrite is_zero_length, gt_zero_length. cbn [map_rows].
  rewrite (rows_from_some _ 0 F). reflexivity.
Qed.


End ExpiryLine.

(* ------------------------------------------------------------------ *)
(** ** More on the validators *)

Section ValidatorMore.

Lemma trimStart_ws_app (a s : jsstring) :
  forallb is_ws a = true -> trimStart (a ++ s) = trimStart s.
Proof.
  induction a as [|c a IH]; cbn [app forallb trimStart]; [reflexivity|].
  intros H. apply andb_true_iff in H. destruct H as [-> H]. apply IH, H.
Qed.

Lemma forallb_rev {A : Type} (f : A -> bool) (l : list A) :
  forallb f l = true -> forallb f (rev l) = true.
Proof.
  rewrite !forallb_forall. intros H x Hx. apply H, in_rev, Hx.
Qed.

Lemma trimEnd_ws_app (s b : jsstring) :
  forallb is_ws b = true -> trimEnd (s ++ b) = trimEnd s.
Proof.
  intros H. unfold trimEnd. rewrite rev_app_distr.
  rewrite (trimStart_ws_app _ _ (forallb_rev _ _ H)). reflexivity.
Qed.

Lemma trimStart_all_ws (b : jsstring) : forallb is_ws b = true -> trimStart b = [].
Proof.
  intros H. rewrite <- (app_nil_r b). apply (trimStart_ws_app b [] H).
Qed.

Lemma trimStart_app_cases (s b : jsstring) :
  forallb is_ws b = true ->
  trimStart (s ++ b) = match trimStart s with [] => [] | _ => trimStart s ++ b end.
Proof.
  intros H. induction s as [|c s IH]; cbn [app trimStart].
  - apply trimStart_all_ws, H.
  - destruct (is_ws c); [exact IH|reflexivity].
Qed.

Lemma trim_ws_app (a s b : jsstring) :
  forallb is_ws a = true -> forallb is_ws b = true -> trim (a ++ s ++ b) = trim s.
Proof.
  intros Ha Hb. unfold trim. rewrite (trimStart_ws_app a _ Ha), (trimStart_app_cases s b Hb).
  destruct (trimStart s) as [|c t]; [reflexivity|]. apply trimEnd_ws_app, Hb.
Qed.

Lemma parseValidityOrDefault_by_trim (x y : jsstring) :
  trim x = trim y -> parseValidityOrDefault x = parseValidityOrDefault y.
Proof.
  intros E. destruct (list_eq_dec N.eq_dec (trim x) []) as [B|B].
  - rewrite (parseValidityOrDefault_blank x B).
    rewrite E in B. rewrite (parseValidityOrDefault_blank y B). reflexivity.
  - rewrite (parseValidityOrDefault_nonblank x B).
    rewrite E in B. rewrite (parseValidityOrDefault_nonblank y B), E. reflexivity.
Qed.

(** X18: white space before and after the validity does not change
    what [parseValidityOrDefault] returns. *)
Theorem parseValidityOrDefault_whitespace (a raw b : jsstring) :
  forallb is_ws a = true -> forallb is_ws b = true ->
  parseValidityOrDefault (a ++ raw ++ b) = parseValidityOrDefault raw.
Proof.
  intros Ha Hb. apply parseValidityOrDefault_by_trim, trim_ws_app; assumption.
Qed.

(** X19: what [parseValidityOrDefault] returns is always a positive
    whole number below 2^1024 that binary64 holds; it never returns zero,
    a negative number, a fraction, NaN or an infinity. *)
Theorem parseValidityOrDefault_range (raw : jsstring) (minutes : number) :
  parseValidityOrDefault raw = Some minutes ->
  exists n, 0 < n < 2 ^ 1024 /\ minutes = Fin n 0 /\
            (n < 2 ^ 53 \/ n mod 2 ^ (Z.log2 n - 52) = 0).
Proof.
  intros H. pose proof (parseValidityOrDefault_double _ _ H) as D.
  destruct (parseValidityOrDefault_positive _ _ H) as (n & Hn & ->).
  exists n. cbn [is_double] in D.
  destruct (n =? 0) eqn:Z0; [apply Z.eqb_eq in Z0; lia|].
  rewrite !andb_true_iff in D. destruct D as [[[_ _] B] M].
  apply Z.ltb_lt in B. apply Z.eqb_eq in M.
  rewrite Z.abs_eq in B, M by lia. change (1024 + Z.of_N 0) with 1024 in B.
  split; [lia|]. split; [reflexivity|].
  destruct (Z.ltb_spec n (2 ^ 53)) as [Lt|Ge]; [left; exact Lt|right].
  assert (53 <= Z.log2 n) by (apply Z.log2_le_pow2; lia).
  rewrite Z.max_r in M by lia. exact M.
Qed.

End ValidatorMore.

Section UrlMore.
Context {P : platform}.

Lemma strip_leading_clean (s : jsstring) : url_clean (strip_leading s).
Proof.
  induction s as [|c s IH]; cbn [strip_leading]; [exact I|].
  destruct (is_c0_or_space c) eqn:E; [exact IH|exact E].
Qed.

Lemma strip_leading_id (s : jsstring) : url_clean s -> strip_leading s = s.
Proof. destruct s as [|c s]; cbn [strip_leading url_clean]; [reflexivity|intros ->; reflexivity]. Qed.

Lemma strip_leading_suffix (s : jsstring) : exists p, s = p ++ strip_leading s.
Proof.
  induction s as [|c s [p IH]]; cbn [strip_leading].
  - exists []; reflexivity.
  - destruct (is_c0_or_space c).
    + exists (c :: p). cbn [app]. f_equal. exact IH.
    + exists []. reflexivity.
Qed.

Lemma url_clean_app (u p : jsstring) : url_clean (u ++ p) -> u <> [] -> url_clean u.
Proof. destruct u; cbn [app url_clean]; [congruence|auto]. Qed.

(** The text between the stripped ends is clean at both ends. *)
Lemma stripped_clean (s : jsstring) :
  url_clean (rev (strip_leading (rev (strip_leading s)))) /\
  url_clean (strip_leading (rev (strip_leading s))).
Proof.
  set (t := strip_leading s).
  assert (Ht : url_clean t) by apply strip_leading_clean.
  destruct (strip_leading_suffix (rev t)) as [p Hp].
  set (u := strip_leading (rev t)) in *.
  assert (Hu : url_clean u) by apply strip_leading_clean.
  split; [|exact Hu].
  destruct u as [|c u'] eqn:Eu; [exact I|].
  assert (E : t = rev (c :: u') ++ rev p).
  { rewrite <- rev_app_distr, <- Hp, rev_involutive. reflexivity. }
  rewrite E in Ht. apply url_clean_app in Ht; [exact Ht|].
  cbn [rev]. destruct (rev u'); discriminate.
Qed.

Lemma tab_is_c0 (c : N) : is_tab_or_newline c = true -> is_c0_or_space c = true.
Proof.
  unfold is_tab_or_newline, is_c0_or_space. rewrite !orb_true_iff, !N.eqb_eq, N.leb_le. lia.
Qed.

Lemma filter_clean (s : jsstring) :
  url_clean s -> url_clean (filter (fun c => negb (is_tab_or_newline c)) s).
Proof.
  destruct s as [|c s]; cbn [filter url_clean]; [auto|]. intros H.
  destruct (is_tab_or_newline c) eqn:T; [apply tab_is_c0 in T; congruence|].
  cbn [negb url_clean]. exact H.
Qed.

Lemma filter_rev {A : Type} (f : A -> bool) (l : list A) :
  filter f (rev l) = rev (filter f l).
Proof.
  induction l as [|x l IH]; [reflexivity|]. cbn [rev filter].
  rewrite filter_app, IH. cbn [filter]. destruct (f x); [reflexivity|apply app_nil_r].
Qed.

Lemma filter_filter {A : Type} (f : A -> bool) (l : list A) :
  filter f (filter f l) = filter f l.
Proof.
  induction l as [|x l IH]; [reflexivity|]. cbn [filter].
  destruct (f x) eqn:E; [|exact IH]. cbn [filter]. rewrite E, IH. reflexivity.
Qed.

Lemma preprocess_idem (input : jsstring) : preprocess (preprocess input) = preprocess input.
Proof.
  unfold preprocess. destruct (stripped_clean input) as [A B].
  set (t := rev (strip_leading (rev (strip_leading input)))) in *.
  set (f := fun c => negb (is_tab_or_newline c)).
  rewrite (strip_leading_id (filter f t) (filter_clean t A)).
  rewrite <- filter_rev.
  assert (B' : url_clean (rev t)).
  { unfold t. rewrite rev_involutive. exact B. }
  rewrite (strip_leading_id (filter f (rev t)) (filter_clean _ B')).
  rewrite filter_rev, filter_filter, filter_rev, rev_involutive. reflexivity.
Qed.

(** X20: [isValidHttpUrl] gives the same verdict on a text and on the
    text without the C0 controls and spaces at its ends and without its
    tabs and newlines. *)
Theorem isValidHttpUrl_preprocess (value : jsstring) :
  isValidHttpUrl (preprocess value) = isValidHttpUrl value.
Proof.
  unfold isValidHttpUrl, new_URL. rewrite preprocess_idem. reflexivity.
Qed.

End UrlMore.

Section UrlAccepts.
Context {P : platform}.

Lemma visible_kept (c : N) :
  visible c = true -> is_c0_or_space c = false /\ is_tab_or_newline c = false.
Proof.
  unfold visible, is_c0_or_space, is_tab_or_newline. intros H. apply N.ltb_lt in H.
  split; [apply N.leb_gt; exact H|].
  rewrite !orb_false_iff, !N.eqb_neq. lia.
Qed.

Lemma strip_leading_app (a : jsstring) (c : N) (b : jsstring) :
  visible c = true -> strip_leading (a ++ c :: b) = strip_leading a ++ c :: b.
Proof.
  intros V. induction a as [|x a IH]; cbn [app strip_leading].
  - rewrite (proj1 (visible_kept c V)). reflexivity.
  - destruct (is_c0_or_space x); [exact IH|reflexivity].
Qed.

Lemma filter_visible (p : jsstring) :
  forallb visible p = true -> filter (fun c => negb (is_tab_or_newline c)) p = p.
Proof.
  induction p as [|c p IH]; [reflexivity|]. cbn [forallb filter]. intros H.
  apply andb_true_iff in H. destruct H as [V H].
  rewrite (proj2 (visible_kept c V)). cbn [negb]. rewrite (IH H). reflexivity.
Qed.

(** The ends of the input go, what stands before a visible character
    stays. *)
Lemma preprocess_prefix (p : jsstring) (c : N) (tail : jsstring) :
  forallb visible p = true -> visible c = true ->
  exists tail', preprocess (p ++ c :: tail) = p ++ c :: tail'.
Proof.
  intros Hp Hc. unfold preprocess.
  assert (S1 : strip_leading (p ++ c :: tail) = p ++ c :: tail).
  { destruct p as [|x p]; cbn [app strip_leading].
    - rewrite (proj1 (visible_kept c Hc)). reflexivity.
    - cbn [forallb] in Hp. apply andb_true_iff in Hp.
      rewrite (proj1 (visible_kept x (proj1 Hp))). reflexivity. }
  rewrite S1, rev_app_distr. cbn [rev]. rewrite <- app_assoc. cbn [app].
  rewrite (strip_leading_app (rev tail) c (rev p) Hc).
  rewrite rev_app_distr. cbn [rev]. rewrite rev_involutive, <- app_assoc. cbn [app].
  rewrite filter_app. cbn [filter]. rewrite (proj2 (visible_kept c Hc)). cbn [negb].
  rewrite (filter_visible p Hp). eexists. reflexivity.
Qed.

Lemma preprocess_visible (p : jsstring) : forallb visible p = true -> preprocess p = p.
Proof.
  intros Hp. destruct (rev p) as [|c q] eqn:E.
  - apply (f_equal (@rev N)) in E. rewrite rev_involutive in E. subst p. reflexivity.
  - apply (f_equal (@rev N)) in E. rewrite rev_involutive in E. cbn [rev] in E. subst p.
    rewrite forallb_app in Hp. apply andb_true_iff in Hp. destruct Hp as [Hq Hc].
    cbn [forallb] in Hc. rewrite andb_true_r in Hc.
    unfold preprocess.
    assert (S1 : strip_leading (rev q ++ [c]) = rev q ++ [c]).
    { destruct (rev q) as [|x r]; cbn [app strip_leading].
      - rewrite (proj1 (visible_kept c Hc)). reflexivity.
      - cbn [forallb] in Hq. apply andb_true_iff in Hq.
        rewrite (proj1 (visible_kept x (proj1 Hq))). reflexivity. }
    rewrite S1, rev_app_distr. cbn [rev app strip_leading].
    rewrite (proj1 (visible_kept c Hc)). cbn [rev]. rewrite rev_involutive.
    apply filter_visible. rewrite forallb_app, Hq. cbn [forallb]. rewrite Hc. reflexivity.
Qed.

Lemma is_lower_range (c : N) : is_lower c = true <-> (97 <= c <= 122)%N.
Proof. unfold is_lower. rewrite andb_true_iff, !N.leb_le. reflexivity. Qed.

Lemma host_char_range (c : N) : host_char c = true <-> (97 <= c <= 122)%N \/ c = 46%N.
Proof. unfold host_char. rewrite orb_true_iff, is_lower_range, N.eqb_eq. reflexivity. Qed.

Lemma host_char_visible (h : jsstring) : forallb host_char h = true -> forallb visible h = true.
Proof.
  rewrite !forallb_forall. intros H x Hx. apply H, host_char_range in Hx.
  unfold visible. apply N.ltb_lt. lia.
Qed.

Lemma after_last_at_none (l : jsstring) :
  forallb host_char l = true -> after_last_at l = None.
Proof.
  induction l as [|c l IH]; [reflexivity|]. cbn [forallb after_last_at]. intros H.
  apply andb_true_iff in H. destruct H as [Hc H]. rewrite (IH H).
  apply host_char_range in Hc.
  destruct (N.eqb_spec c 64); [lia|reflexivity].
Qed.

Lemma split_host_plain (l : jsstring) :
  forallb host_char l = true -> split_host false l = (l, None).
Proof.
  induction l as [|c l IH]; [reflexivity|]. cbn [forallb split_host]. intros H.
  apply andb_true_iff in H. destruct H as [Hc H]. apply host_char_range in Hc.
  destruct (N.eqb_spec c 58); [lia|]. cbn [andb].
  destruct (N.eqb_spec c 91); [lia|]. destruct (N.eqb_spec c 93); [lia|].
  rewrite (IH H). reflexivity.
Qed.

Lemma to_lower_host (l : jsstring) :
  forallb host_char l = true -> List.map to_lower l = l.
Proof.
  induction l as [|c l IH]; [reflexivity|]. cbn [forallb List.map]. intros H.
  apply andb_true_iff in H. destruct H as [Hc H]. rewrite (IH H). f_equal.
  apply host_char_range in Hc. unfold to_lower, is_upper.
  destruct (N.leb_spec 65 c); destruct (N.leb_spec c 90); cbn [andb]; try reflexivity; lia.
Qed.

Lemma split_on_host (l : jsstring) :
  forallb host_char l = true ->
  Forall (fun label => forallb is_lower label = true) (split_on 46 l).
Proof.
  induction l as [|c l IH]; cbn [forallb split_on].
  - intros _. constructor; [reflexivity|constructor].
  - intros H. apply andb_true_iff in H. destruct H as [Hc H]. specialize (IH H).
    destruct (N.eqb_spec c 46) as [->|Nc].
    + constructor; [reflexivity|exact IH].
    + destruct (split_on 46 l) as [|x r]; [constructor; [|constructor]|].
      * cbn [forallb]. apply host_char_range in Hc.
        rewrite (proj2 (is_lower_range c)) by lia. reflexivity.
      * inversion IH as [|? ? Hx Hr]; subst. constructor; [|exact Hr].
        cbn [forallb]. rewrite Hx. apply host_char_range in Hc.
        rewrite (proj2 (is_lower_range c)) by lia. reflexivity.
Qed.

(** A match on a code unit that is not the one written. *)
Lemma starts_with_xn_lower (label : jsstring) :
  forallb is_lower label = true -> starts_with_xn label = false.
Proof.
  intros H.
  assert (Hx : forall x, nth_error label 2 = Some x -> (97 <= x <= 122)%N).
  { intros x E. apply is_lower_range. rewrite forallb_forall in H.
    apply H. apply (nth_error_In _ _ E). }
  clear H. unfold starts_with_xn.
  destruct label as [|a [|b [|x r]]]; try reflexivity.
  specialize (Hx x eq_refl).
  destruct x as [|p]; [destruct r; reflexivity|].
  destruct p as [p|p|]; try (destruct r; reflexivity);
  destruct p as [p|p|]; try (destruct r; reflexivity);
  destruct p as [p|p|]; try (destruct r; reflexivity);
  destruct p as [p|p|]; try (destruct r; reflexivity);
  destruct p as [p|p|]; try (destruct r; reflexivity);
  destruct p as [p|p|]; try (destruct r; reflexivity); lia.
Qed.

Lemma existsb_false_Forall {A : Type} (f : A -> bool) (l : list A) :
  Forall (fun x => f x = false) l -> existsb f l = false.
Proof.
  induction 1 as [|x l Hx _ IH]; [reflexivity|]. cbn [existsb]. rewrite Hx, IH. reflexivity.
Qed.

Lemma ipv4_number_lower (label : jsstring) :
  forallb is_lower label = true -> ipv4_number label = None.
Proof.
  destruct label as [|x r]; [reflexivity|]. cbn [forallb]. intros H.
  apply andb_true_iff in H. destruct H as [Hx _]. apply is_lower_range in Hx.
  assert (D : is_digit x = false).
  { unfold is_digit. destruct (N.leb_spec x 57); [lia|]. apply andb_false_r. }
  unfold ipv4_number.
  destruct x as [|p]; [lia|].
  destruct p as [p|p|]; try (cbn; lia);
  destruct p as [p|p|]; try (cbn; lia);
  destruct p as [p|p|]; try (cbn; lia);
  destruct p as [p|p|]; try (cbn; lia);
  destruct p as [p|p|]; try (cbn; lia);
  destruct p as [p|p|]; try (cbn; lia);
  try (cbn [Z.eqb forallb]; cbn [Z.eqb]; rewrite D; reflexivity).
Qed.


Lemma label_not_number (label : jsstring) :
  forallb is_lower label = true ->
  nonempty label && forallb is_digit label
  || match ipv4_number label with Some _ => true | None => false end = false.
Proof.
  intros H. rewrite (ipv4_number_lower label H), orb_false_r.
  destruct label as [|x r]; [reflexivity|]. cbn [nonempty forallb andb] in *.
  apply andb_true_iff in H. destruct H as [Hx _]. apply is_lower_range in Hx.
  unfold is_digit. destruct (N.leb_spec x 57); [lia|]. rewrite andb_false_r. reflexivity.
Qed.

Lemma ends_in_number_host (d : jsstring) :
  forallb host_char d = true -> ends_in_number d = false.
Proof.
  intros H. unfold ends_in_number.
  set (R := rev (split_on 46 d)).
  assert (F : Forall (fun label => forallb is_lower label = true) R).
  { unfold R. apply Forall_rev, split_on_host, H. }
  clearbody R. destruct R as [|l1 R]; [reflexivity|].
  apply Forall_cons_iff in F. destruct F as [H1 FR].
  destruct l1 as [|x r].
  - destruct R as [|l2 R']; [reflexivity|].
    apply Forall_cons_iff in FR. apply label_not_number, (proj1 FR).
  - apply label_not_number, H1.
Qed.

Lemma host_parses_plain (c : N) (h : jsstring) :
  c <> 91%N ->
  host_parses (c :: h) =
    match domain_to_ascii (c :: h) with
    | None => false
    | Some d =>
        nonempty d && negb (existsb forbidden_domain_cp d)
        && (if ends_in_number d then ipv4_parses d else true)
    end.
Proof.
  intros N. unfold host_parses.
  destruct c as [|p]; [reflexivity|].
  destruct p as [p|p|]; try reflexivity;
  destruct p as [p|p|]; try reflexivity;
  destruct p as [p|p|]; try reflexivity;
  destruct p as [p|p|]; try reflexivity;
  destruct p as [p|p|]; try reflexivity;
  destruct p as [p|p|]; try reflexivity;
  destruct p as [p|p|]; try reflexivity; congruence.
Qed.

Lemma host_not_forbidden (d : jsstring) :
  forallb host_char d = true -> existsb forbidden_domain_cp d = false.
Proof.
  intros H. apply existsb_false_Forall. apply Forall_forall. intros x Hx.
  rewrite forallb_forall in H. apply H, host_char_range in Hx.
  unfold forbidden_domain_cp, forbidden_host_cp.
  rewrite !orb_false_iff, !N.eqb_neq, N.leb_gt. lia.
Qed.

Lemma domain_to_ascii_host (d : jsstring) :
  forallb host_char d = true -> domain_to_ascii d = Some d.
Proof.
  intros H. unfold domain_to_ascii.
  assert (A : forallb (fun c => (c <? 128)%N && negb (c =? 37)%N) d = true).
  { rewrite forallb_forall in *. intros x Hx. apply H, host_char_range in Hx.
    apply andb_true_iff. split; [apply N.ltb_lt; lia|].
    apply negb_true_iff, N.eqb_neq. lia. }
  assert (B : existsb starts_with_xn (split_on 46 d) = false).
  { apply existsb_false_Forall. generalize (split_on_host d H). apply Forall_impl.
    exact starts_with_xn_lower. }
  rewrite A, B. cbn [negb andb]. rewrite (to_lower_host d H). reflexivity.
Qed.

Lemma host_parses_host (c : N) (h : jsstring) :
  is_lower c = true -> forallb host_char h = true -> host_parses (c :: h) = true.
Proof.
  intros Hc Hh.
  assert (H : forallb host_char (c :: h) = true).
  { cbn [forallb]. unfold host_char at 1. rewrite Hc, Hh. reflexivity. }
  apply is_lower_range in Hc.
  rewrite host_parses_plain by lia.
  rewrite (domain_to_ascii_host _ H), (host_not_forbidden _ H), (ends_in_number_host _ H).
  reflexivity.
Qed.

Lemma special_authority_host (c : N) (h tail : jsstring) :
  is_lower c = true -> forallb host_char h = true -> path_or_end tail ->
  special_authority_parses (47%N :: 47%N :: c :: h ++ tail) = true.
Proof.
  intros Hc Hh Ht.
  assert (H : forallb host_char (c :: h) = true).
  { cbn [forallb]. unfold host_char at 1. rewrite Hc, Hh. reflexivity. }
  unfold special_authority_parses. cbn [skip_slashes is_slash N.eqb Pos.eqb orb].
  assert (Sc : is_slash c = false).
  { apply is_lower_range in Hc. unfold is_slash. rewrite orb_false_iff, !N.eqb_neq. lia. }
  rewrite Sc.
  change (c :: h ++ tail) with ((c :: h) ++ tail).
  rewrite (span_app (fun x => negb (ends_authority x)) (c :: h) tail).
  - rewrite (after_last_at_none _ H), (split_host_plain _ H).
    rewrite (host_parses_host c h Hc Hh). reflexivity.
  - rewrite forallb_forall in *. intros x Hx. apply H, host_char_range in Hx.
    unfold ends_authority, is_slash. apply negb_true_iff.
    rewrite !orb_false_iff, !N.eqb_neq. lia.
  - destruct Ht as [->|[path ->]]; [exact I|reflexivity].
Qed.

Lemma parse_scheme_ok (c : N) (sch rest : jsstring) :
  is_alpha c = true -> forallb is_scheme_char (c :: sch) = true ->
  parse_scheme ((c :: sch) ++ 58%N :: rest) = Some (List.map to_lower (c :: sch), rest).
Proof.
  intros Hc Hs. unfold parse_scheme.
  rewrite (span_app is_scheme_char (c :: sch) (58%N :: rest) Hs eq_refl).
  cbn [app]. rewrite Hc. reflexivity.
Qed.

Lemma parse_scheme_http (secure : bool) (rest : jsstring) :
  parse_scheme ((if secure then js "https" else js "http") ++ 58%N :: rest)
  = Some ((if secure then js "https" else js "http"), rest).
Proof.
  destruct secure.
  - exact (parse_scheme_ok 104 (js "ttps") rest eq_refl eq_refl).
  - exact (parse_scheme_ok 104 (js "ttp") rest eq_refl eq_refl).
Qed.

(** X21: [isValidHttpUrl] accepts every text made of [http://] or
    [https://], a host of lower-case letters and dots that starts with a
    letter, and then nothing or a slash and anything. *)
Theorem isValidHttpUrl_accepts (secure : bool) (c : N) (h tail : jsstring) :
  is_lower c = true -> forallb host_char h = true -> path_or_end tail ->
  isValidHttpUrl ((if secure then js "https://" else js "http://") ++ c :: h ++ tail) = true.
Proof.
  intros Hc Hh Ht.
  set (p := (if secure then js "https://" else js "http://") ++ c :: h).
  assert (Vp : forallb visible p = true).
  { unfold p. rewrite forallb_app. apply andb_true_iff. split; [destruct secure; reflexivity|].
    apply host_char_visible. cbn [forallb]. unfold host_char at 1. rewrite Hc, Hh. reflexivity. }
  assert (E : exists tail', path_or_end tail' /\
            preprocess ((if secure then js "https://" else js "http://") ++ c :: h ++ tail)
            = (if secure then js "https" else js "http") ++ 58%N :: 47%N :: 47%N :: c :: h ++ tail').
  { destruct Ht as [->|[path ->]].
    - exists []. split; [left; reflexivity|]. rewrite app_nil_r. fold p.
      rewrite (preprocess_visible p Vp). unfold p. destruct secure; reflexivity.
    - destruct (preprocess_prefix p 47 path Vp eq_refl) as [tail' Et].
      exists (47%N :: tail'). split; [right; exists tail'; reflexivity|].
      replace ((if secure then js "https://" else js "http://") ++ c :: h ++ 47%N :: path)
        with (p ++ 47%N :: path)
        by (unfold p; rewrite <- app_assoc; reflexivity).
      rewrite Et. unfold p. rewrite <- app_assoc. destruct secure; reflexivity. }
  destruct E as (tail' & Ht' & E).
  unfold isValidHttpUrl, new_URL. rewrite E, parse_scheme_http.
  assert (S : is_special_not_file (if secure then js "https" else js "http") = true)
    by (destruct secure; reflexivity).
  rewrite S, (special_authority_host c h tail' Hc Hh Ht').
  destruct secure; reflexivity.
Qed.

End UrlAccepts.

(* ------------------------------------------------------------------ *)
(** ** The request in flight, the stored item, the scheme *)

Section Pending.
Context {P : platform}.
Variables (apiBaseUrl : jsstring) (w : world) (st : state).

Lemma pending_validated :
  handleSubmit_pending st = Some (failed st true []) <-> exists minutes, validated st minutes.
Proof.
  unfold handleSubmit_pending, validated. split.
  - destruct (nonempty (trim (longUrl st))); cbn [negb]; [|discriminate].
    destruct (isValidHttpUrl (trim (longUrl st))); cbn [negb]; [|discriminate].
    destruct (parseValidityOrDefault (validityMinutes st)) as [m|]; [|discriminate].
    intros _. exists m. repeat split.
  - intros (m & -> & -> & ->). reflexivity.
Qed.

Lemma pending_cases :
  handleSubmit_pending st = None \/ handleSubmit_pending st = Some (failed st true []).
Proof.
  unfold handleSubmit_pending.
  destruct (negb (nonempty (trim (longUrl st)))); [left; reflexivity|].
  destruct (negb (isValidHttpUrl (trim (longUrl st)))); [left; reflexivity|].
  destruct (parseValidityOrDefault (validityMinutes st)); [right|left]; reflexivity.
Qed.

(** X22: a state in which [fetch] is awaited exists exactly when a
    request is sent; for that state the component shows the button
    disabled and labelled 'Shortening...', with the ellipsis character,
    no alert and no result, over the same history; and whatever the
    request comes to, the state it settles in has [isLoading] off. *)
Theorem pending_view :
  (handleSubmit_pending st = None <-> requests (handleSubmit apiBaseUrl w st) = []) /\
  (forall st1 v,
     handleSubmit_pending st = Some st1 -> App_view apiBaseUrl st1 = Some v ->
     submit_disabled v = true /\ submit_label v = label_loading /\
     alert v = Falsy (VStr []) /\ result v = Falsy (VStr []) /\
     history st1 = history st /\
     forall st', settled (handleSubmit apiBaseUrl w st) = Some st' -> isLoading st' = false).
Proof.
  split.
  - destruct (validated_dec st) as [[minutes V]|[_ N]].
    + rewrite (requests_validated apiBaseUrl w st minutes V).
      rewrite (proj2 pending_validated (ex_intro _ minutes V)).
      split; discriminate.
    + rewrite (proj1 (unvalidated_fails apiBaseUrl w st N)).
      destruct pending_cases as [E|E]; [rewrite E; split; reflexivity|].
      apply pending_validated in E. destruct E as [m V]. destruct (N m V).
  - intros st1 v E Hv.
    assert (E1 : st1 = failed st true []).
    { destruct pending_cases as [E'|E']; rewrite E' in E; [discriminate|].
      injection E as <-. reflexivity. }
    subst st1. apply pending_validated in E. destruct E as [minutes V].
    unfold App_view in Hv.
    destruct (length_of (history (failed st true []))) as [len|]; [|discriminate].
    destruct (if is_zero len then Some NoneYet
              else option_map Listed (map_rows (history (failed st true []))))
      as [card|]; [|discriminate].
    injection Hv as <-. cbn [submit_disabled submit_label alert result isLoading failed
                             errorMessage shortUrl expiresAt history].
    repeat (split; [reflexivity|]).
    intros st' H. rewrite (handleSubmit_validated _ _ _ minutes V) in H.
    destruct (r <- fetch w (request_of apiBaseUrl st minutes) ;; interpret w minutes r)
      as [[u e]|m]; cbn [settled] in H.
    + destruct (record _ _); [|discriminate]. injection H as <-. reflexivity.
    + injection H as <-. reflexivity.
Qed.

End Pending.

Section StoredItem.
Context {P : platform}.

(** X23: in every session the stored item, when there is one, is a
    text that [JSON.parse] accepts and reads as an array of at most 20
    entries of the shape above: the component never writes what it could
    not load. *)
Theorem stored_item_loads (s : session) (text : jsstring) :
  reachable s -> url_history (store s) = Some text ->
  exists l, JSON_parse text = Some (VArr l) /\ (List.length l <= 20)%nat /\
            Forall entry_ok l.
Proof.
  intros R U. destruct (reachable_shaped s R) as [_ [N|(h & S & E)]]; [congruence|].
  rewrite U in E. injection E as ->.
  pose proof (shaped_revive h S) as [(l & El & L & _) (l' & El' & F)].
  rewrite El in El'. injection El' as <-.
  exists l. rewrite (parse_stringify h (bounded_wf h (proj1 S))), El.
  split; [reflexivity|]. split; assumption.
Qed.

End StoredItem.

Section NeedsScheme.
Context {P : platform}.

Lemma span_split (p : N -> bool) (s : jsstring) :
  s = fst (span p s) ++ snd (span p s).
Proof.
  induction s as [|c s IH]; [reflexivity|]. cbn [span].
  destruct (p c); [|reflexivity].
  destruct (span p s) as [a b]. cbn [fst snd app] in *. rewrite <- IH. reflexivity.
Qed.

Lemma parse_scheme_text (s sch rest : jsstring) :
  parse_scheme s = Some (sch, rest) ->
  exists raw, s = raw ++ 58%N :: rest /\ sch = List.map to_lower raw.
Proof.
  unfold parse_scheme. destruct s as [|c s']; [discriminate|].
  destruct (is_alpha c); [|discriminate].
  pose proof (span_split is_scheme_char (c :: s')) as E.
  destruct (span is_scheme_char (c :: s')) as [a b]. cbn [fst snd] in E.
  destruct b as [|x r]; [discriminate|].
  destruct (N.eqb_spec x 58) as [->|Nx].
  - intros H. injection H as <- <-. exists a. split; [exact E|reflexivity].
  - intros H. exfalso. revert H.
    destruct x as [|q]; [discriminate|].
    destruct q as [q|q|]; try discriminate;
    destruct q as [q|q|]; try discriminate;
    destruct q as [q|q|]; try discriminate;
    destruct q as [q|q|]; try discriminate;
    destruct q as [q|q|]; try discriminate;
    destruct q as [q|q|]; try discriminate; congruence.
Qed.

Lemma strip_leading_In (x : N) (s : jsstring) : In x (strip_leading s) -> In x s.
Proof.
  destruct (strip_leading_suffix s) as [p E]. intros H. rewrite E.
  apply in_or_app. right. exact H.
Qed.

Lemma preprocess_In (x : N) (s : jsstring) : In x (preprocess s) -> In x s.
Proof.
  unfold preprocess. intros H. apply filter_In in H. destruct H as [H _].
  apply in_rev, strip_leading_In, in_rev, strip_leading_In in H. exact H.
Qed.

(** X24: a text that [isValidHttpUrl] accepts holds a colon, and once
    cleaned it starts with [http:] or [https:] in any letter case; a text
    with no scheme, such as a bare host name, is rejected. *)
Theorem isValidHttpUrl_needs_scheme (value : jsstring) :
  isValidHttpUrl value = true ->
  In 58%N value /\
  exists raw rest,
    preprocess value = raw ++ 58%N :: rest /\
    (List.map to_lower raw = js "http" \/ List.map to_lower raw = js "https").
Proof.
  unfold isValidHttpUrl, new_URL.
  destruct (parse_scheme (preprocess value)) as [[sch rest]|] eqn:E; [|discriminate].
  destruct (parse_scheme_text _ _ _ E) as (raw & Er & Es).
  destruct (if is_special_not_file sch then special_authority_parses rest
            else other_scheme_parses sch rest); [|discriminate].
  cbn [protocol scheme]. intros H. split.
  - apply preprocess_In. rewrite Er. apply in_or_app. right. left. reflexivity.
  - exists raw, rest. split; [exact Er|]. rewrite <- Es.
    apply orb_true_iff in H. destruct H as [H|H]; apply str_eqb_eq in H.
    + left. apply (app_inv_tail [58%N]). exact H.
    + right. apply (app_inv_tail [58%N]). exact H.
Qed.

End NeedsScheme.

(* ------------------------------------------------------------------ *)
(** ** What React renders *)

Section RenderFacts.
Context {P : platform}.

Lemma forallb_map_pointwise {A B : Type} (f : B -> bool) (g : A -> B) (h : A -> bool)
    (l : list A) :
  Forall (fun x => f (g x) = h x) l -> forallb f (List.map g l) = forallb h l.
Proof.
  induction 1 as [|x l Hx _ IH]; [reflexivity|].
  cbn [List.map forallb]. rewrite Hx, IH. reflexivity.
Qed.

Lemma valid_child_revive : forall v, valid_child (revive v) = valid_child v.
Proof.
  apply (jsval_induction (fun v => valid_child (revive v) = valid_child v)); try reflexivity.
  - intros [| |n k]; reflexivity.
  - intros items IH. cbn [revive valid_child]. apply forallb_map_pointwise, IH.
Qed.

Lemma date_converts_number (v : jsval) : number_or_null v -> date_converts v = true.
Proof. destruct v; cbn [number_or_null]; try contradiction; reflexivity. Qed.

(** The row of an entry can be drawn when its short URL can. *)
Lemma entry_row_shown (e : jsval) :
  entry_ok e -> row_shown e = valid_child (field e "shortUrl").
Proof.
  intros (u & s & c & x & m & -> & _ & _ & _ & _ & C & X & _).
  unfold row_shown.
  change (field _ "createdAt") with c. change (field _ "expiresAt") with x.
  change (field _ "shortUrl") with s. change (field _ "longUrl") with (VStr u).
  rewrite (date_converts_number c C), (date_converts_number x X). cbn [valid_child andb].
  apply andb_true_r.
Qed.

Lemma entry_row_revive (e : jsval) : entry_ok e -> row_shown (revive e) = row_shown e.
Proof.
  intros H. rewrite (entry_row_shown _ (entry_ok_revive e H)), (entry_row_shown e H).
  destruct H as (u & s & c & x & m & -> & _).
  change (field (revive _) "shortUrl") with (revive s).
  change (field _ "shortUrl") with s. apply valid_child_revive.
Qed.

Lemma drawn_nil : drawn (VArr []).
Proof. split; [apply shaped_nil|]. exists []. split; reflexivity. Qed.

Lemma drawn_revive (h : jsval) : drawn h -> drawn (revive h).
Proof.
  intros [S (l & -> & D)]. split; [apply shaped_revive, S|].
  exists (List.map revive l). split; [reflexivity|].
  destruct S as [_ (l' & E & F)]. injection E as <-.
  rewrite <- D. apply forallb_map_pointwise.
  revert F. apply Forall_impl. exact entry_row_revive.
Qed.

Lemma load_drawn (st : storage) : stored_drawn st -> drawn (load st).
Proof.
  intros [N|(h & S & U)]; unfold load, getItem.
  - destruct (read_fault st); [apply drawn_nil|]. rewrite N. apply drawn_nil.
  - destruct (read_fault st); [apply drawn_nil|]. rewrite U.
    pose proof (bounded_wf h (proj1 (proj1 S))) as W.
    rewrite (text_nonempty h W), (parse_stringify h W).
    apply drawn_revive, S.
Qed.

Lemma persist_stored_drawn (st : storage) (h : jsval) :
  stored_drawn st -> drawn h -> stored_drawn (persist st h).
Proof.
  intros S H. unfold persist, setItem.
  destruct (write_fault st); [exact S|].
  right. exists h. split; [exact H|]. cbn [url_history].
  rewrite (blob_of_text h (bounded_wf h (proj1 (proj1 H)))). reflexivity.
Qed.

(** What [App_view] is on an array whose items have properties. *)
Lemma App_view_rows (apiBaseUrl : jsstring) (s : state) (l : list jsval) :
  history s = VArr l -> Forall has_properties l ->
  App_view apiBaseUrl s
  = Some {| long_url_value := longUrl s;
            alias_value := alias s;
            validity_value := validityMinutes s;
            alert := guarded (VStr (errorMessage s)) (errorMessage s);
            submit_disabled := isLoading s;
            submit_label := if isLoading s then label_loading else label_idle;
            result :=
              guarded (shortUrl s)
                {| short_link := shortUrl s;
                   expires_line := guarded (expiresAt s) (expiresAt s) |};
            clear_button := match l with [] => false | _ => true end;
            recent := match l with
                      | [] => NoneYet
                      | _ => Listed (List.map (fun p => row_at (fst p) (snd p))
                                       (combine (seq 0 (List.length l)) l))
                      end;
            api_base := if nonempty apiBaseUrl then apiBaseUrl else same_origin |}.
Proof.
  intros E F. unfold App_view. rewrite E. cbn [length_of].
  rewrite is_zero_length, gt_zero_length. destruct l as [|item l]; [reflexivity|].
  cbn [map_rows]. rewrite (rows_from_some _ 0 F). reflexivity.
Qed.

(** On such an array the component is drawn exactly when the result
    block and every row can be. *)
Lemma App_rendered_rows (apiBaseUrl : jsstring) (s : state) (l : list jsval) :
  history s = VArr l -> Forall has_properties l ->
  App_rendered apiBaseUrl s
  = if result_shown s && forallb row_shown l then App_view apiBaseUrl s else None.
Proof.
  intros E F. unfold App_rendered. rewrite (App_view_rows apiBaseUrl s l E F), E.
  cbn [length_of]. unfold recent_shown. rewrite is_zero_length.
  change (compares (VNum (of_int (Z.of_nat (List.length l))))) with true. cbn [andb].
  destruct l as [|item l]; [|reflexivity].
  cbn [forallb]. rewrite andb_true_r. reflexivity.
Qed.

Lemma drawn_rows (h : jsval) :
  drawn h -> exists l, h = VArr l /\ Forall has_properties l /\ forallb row_shown l = true.
Proof.
  intros [[_ (l & E & F)] (l' & E' & D)]. rewrite E in E'. injection E' as <-.
  exists l. split; [exact E|]. split; [|exact D].
  revert F. apply Forall_impl. exact entry_ok_has_properties.
Qed.

(** A rendered state has a history whose rows are drawn. *)
Lemma rendered_rows (apiBaseUrl : jsstring) (s : state) (l : list jsval) :
  history s = VArr l -> Forall has_properties l ->
  App_rendered apiBaseUrl s <> None -> forallb row_shown l = true /\ result_shown s = true.
Proof.
  intros E F. rewrite (App_rendered_rows apiBaseUrl s l E F).
  destruct (result_shown s); destruct (forallb row_shown l); cbn [andb]; try congruence.
  split; reflexivity.
Qed.

Lemma submit_drawn (apiBaseUrl : jsstring) (w : world) (st st' : state) :
  drawn (history st) -> settled (handleSubmit apiBaseUrl w st) = Some st' ->
  App_rendered apiBaseUrl st' <> None -> drawn (history st').
Proof.
  intros [S D] H R. pose proof (submit_shaped apiBaseUrl w st st' S H) as S'.
  split; [exact S'|]. destruct S' as [_ (l & E & F)]. exists l. split; [exact E|].
  apply (rendered_rows apiBaseUrl st' l E); [|exact R].
  revert F. apply Forall_impl. exact entry_ok_has_properties.
Qed.

Lemma mount_drawn (st : storage) :
  stored_drawn st -> drawn (hist (mount st)) /\ stored_drawn (store (mount st)).
Proof.
  intros S. split; cbn [hist store mount].
  - apply load_drawn, S.
  - apply persist_stored_drawn; [exact S|apply load_drawn, S].
Qed.

Lemma step_drawn (s s' : session) :
  drawn (hist s) /\ stored_drawn (store s) -> step s s' ->
  drawn (hist s') /\ stored_drawn (store s').
Proof.
  intros [B S] [s'' [base w st st' Hh Hs Hm|base w st st' Hh Hs Hm Hr]| | |rf wf'].
  - split; assumption.
  - assert (B' : drawn (history st')).
    { apply (submit_drawn base w st st'); [rewrite Hh; exact B|exact Hs|exact Hr]. }
    split; [exact B'|]. apply persist_stored_drawn; assumption.
  - split; [apply drawn_nil|]. apply persist_stored_drawn; [exact S|apply drawn_nil].
  - apply mount_drawn, S.
  - split; [exact B|]. exact S.
Qed.

Lemma reachable_drawn (s : session) :
  reachable s -> drawn (hist s) /\ stored_drawn (store s).
Proof.
  induction 1 as [rf wf'|s s' _ IH St].
  - apply mount_drawn. left. reflexivity.
  - apply (step_drawn s s' IH St).
Qed.

End RenderFacts.

Section Rendered.
Context {P : platform}.

(** When the element can be built at all. *)
Lemma App_view_shape (apiBaseUrl : jsstring) (st : state) :
  App_view apiBaseUrl st <> None <->
  (exists l, history st = VArr l /\ Forall has_properties l) \/
  history st = VStr [] \/
  (exists props k, history st = VObj props /\
                   lookup (js "length") props = Some (VNum (Fin 0 k))).
Proof.
  unfold App_view. destruct (history st) as [| |b|n|s|l|props] eqn:E; cbn [length_of].
  - split; [congruence|]. intros [(l & H & _)|[H|(p & k & H & _)]]; discriminate.
  - split; [congruence|]. intros [(l & H & _)|[H|(p & k & H & _)]]; discriminate.
  - cbn [is_zero map_rows option_map].
    split; [congruence|]. intros [(l & H & _)|[H|(p & k & H & _)]]; discriminate.
  - cbn [is_zero map_rows option_map].
    split; [congruence|]. intros [(l & H & _)|[H|(p & k & H & _)]]; discriminate.
  - rewrite is_zero_length. destruct s as [|c s].
    + split; [intros _; right; left; reflexivity|discriminate].
    + cbn [map_rows option_map]. split; [congruence|].
      intros [(l & H & _)|[H|(p & k & H & _)]]; discriminate.
  - rewrite is_zero_length. destruct l as [|item l].
    + split; [intros _; left; exists []; split; [reflexivity|constructor]|discriminate].
    + cbn [map_rows]. destruct (Forall_dec has_properties has_properties_dec (item :: l))
        as [F|F].
      * rewrite (rows_from_some _ 0 F). cbn [option_map].
        split; [intros _; left; eexists; split; [reflexivity|exact F]|discriminate].
      * rewrite (rows_from_none _ 0 F). cbn [option_map]. split; [congruence|].
        intros [(l' & H & F')|[H|(p & k & H & _)]]; try discriminate.
        injection H as <-. contradiction.
  - destruct (lookup (js "length") props) as [x|] eqn:L.
    + destruct (is_zero x) eqn:Z.
      * split; [|discriminate]. intros _. right; right.
        destruct x as [| | |[| |n k]| | |]; try discriminate.
        cbn [is_zero] in Z. apply Z.eqb_eq in Z. subst n.
        exists props, k. split; [reflexivity|exact L].
      * cbn [map_rows option_map]. split; [congruence|].
        intros [(l' & H & F')|[H|(p & k & H & L')]]; try discriminate.
        injection H as <-. rewrite L in L'. injection L' as ->. discriminate.
    + cbn [is_zero map_rows option_map]. split; [congruence|].
      intros [(l' & H & F')|[H|(p & k & H & L')]]; try discriminate.
      injection H as <-. congruence.
Qed.

Lemma App_rendered_view (apiBaseUrl : jsstring) (st : state) (v : view) :
  App_rendered apiBaseUrl st = Some v -> App_view apiBaseUrl st = Some v.
Proof.
  unfold App_rendered. destruct (App_view apiBaseUrl st) as [v'|]; [|discriminate].
  destruct (length_of (history st)) as [len|]; [|discriminate].
  destruct (compares len && result_shown st && recent_shown (history st) len);
    [intros H; exact H|discriminate].
Qed.

(** X14: the component renders exactly when the result block can be
    drawn and the history is an array of items that have properties and
    whose rows can be drawn, or the empty string, or an object whose
    [length] is 0; on any other history the render throws.  [load]
    hands over any stored JSON value as it is. *)
Theorem App_rendered_defined (apiBaseUrl : jsstring) (st : state) :
  (App_rendered apiBaseUrl st <> None <->
   result_shown st = true /\
   ((exists l, history st = VArr l /\ Forall has_properties l /\
               forallb row_shown l = true) \/
    history st = VStr [] \/
    (exists props k, history st = VObj props /\
                     lookup (js "length") props = Some (VNum (Fin 0 k))))) /\
  (forall (sto : storage) (text : jsstring) (v : jsval),
     read_fault sto = None -> url_history sto = Some text -> JSON_parse text = Some v ->
     history (initial_state sto) = v).
Proof.
  split.
  2:{ intros sto text v Rd U J. cbn [history initial_state]. unfold load, getItem.
      rewrite Rd, U, J. destruct text; [discriminate J|reflexivity]. }
  split.
  - intros H.
    assert (Hv : App_view apiBaseUrl st <> None).
    { intros E. apply H. unfold App_rendered. rewrite E. reflexivity. }
    apply App_view_shape in Hv. destruct Hv as [(l & E & F)|[E|(props & k & E & L)]].
    + rewrite (App_rendered_rows apiBaseUrl st l E F) in H.
      destruct (result_shown st); [|cbn [andb] in H; congruence].
      destruct (forallb row_shown l) eqn:D; [|cbn [andb] in H; congruence].
      split; [reflexivity|]. left. exists l. repeat split; assumption.
    + unfold App_rendered in H. rewrite E in H. cbn [length_of List.length Z.of_nat] in H.
      destruct (App_view apiBaseUrl st); [|congruence].
      change (compares (VNum (of_int 0))) with true in H.
      change (recent_shown (VStr []) (VNum (of_int 0))) with true in H.
      rewrite andb_true_r in H. cbn [andb] in H.
      destruct (result_shown st); [|congruence].
      split; [reflexivity|]. right; left. exact E.
    + unfold App_rendered in H. rewrite E in H. cbn [length_of] in H. rewrite L in H.
      destruct (App_view apiBaseUrl st); [|congruence].
      unfold recent_shown in H. cbn [is_zero compares ToNumber ToPrimitive] in H.
      rewrite Z.eqb_refl in H. rewrite andb_true_r in H. cbn [andb] in H.
      destruct (result_shown st); [|congruence].
      split; [reflexivity|]. right; right. exists props, k. split; assumption.
  - intros [Rs [(l & E & F & D)|[E|(props & k & E & L)]]].
    + rewrite (App_rendered_rows apiBaseUrl st l E F), Rs, D. cbn [andb].
      apply App_view_shape. left. exists l. split; assumption.
    + assert (Hv : App_view apiBaseUrl st <> None)
        by (apply App_view_shape; right; left; exact E).
      unfold App_rendered. rewrite E. cbn [length_of List.length Z.of_nat].
      destruct (App_view apiBaseUrl st) as [v|]; [|congruence].
      rewrite Rs. change (compares (VNum (of_int 0))) with true.
      change (recent_shown (VStr []) (VNum (of_int 0))) with true. discriminate.
    + assert (Hv : App_view apiBaseUrl st <> None)
        by (apply App_view_shape; right; right; exists props, k; split; assumption).
      unfold App_rendered. destruct (App_view apiBaseUrl st) as [v|]; [|congruence].
      rewrite E. cbn [length_of]. rewrite L, Rs.
      unfold recent_shown. cbn [is_zero compares ToNumber ToPrimitive].
      rewrite Z.eqb_refl. discriminate.
Qed.

(** The row of a new entry can be drawn when its short URL can. *)
Lemma make_entry_row (w : world) (url : jsstring) (u : jsval) (e minutes : number) :
  row_shown (make_entry w url u e minutes) = valid_child u /\
  has_properties (make_entry w url u e minutes).
Proof.
  split; [|split; discriminate]. unfold row_shown, make_entry.
  change (field _ "createdAt") with (VNum (clock_number (now_created w))).
  change (field _ "expiresAt") with (VNum e).
  change (field _ "shortUrl") with u. change (field _ "longUrl") with (VStr url).
  cbn [date_converts ToPrimitive valid_child andb]. apply andb_true_r.
Qed.

(** What the component shows after the success path, over a history that
    was drawn. *)
Lemma succeeded_rendered (apiBaseUrl : jsstring) (w : world) (st : state) (u : jsval)
    (e minutes : number) (items : list jsval) :
  Forall has_properties items -> forallb row_shown items = true -> truthy u = true ->
  (valid_child u = true ->
   exists v,
     App_rendered apiBaseUrl
       (succeeded st u e
          (VArr (firstn 20 (make_entry w (trim (longUrl st)) u e minutes :: items))))
     = Some v /\
     alert v = Falsy (VStr []) /\
     result v = Element {| short_link := u; expires_line := guarded (VNum e) (VNum e) |}) /\
  (valid_child u = false ->
   App_rendered apiBaseUrl
     (succeeded st u e
        (VArr (firstn 20 (make_entry w (trim (longUrl st)) u e minutes :: items))))
   = None).
Proof.
  intros F D T.
  set (entry := make_entry w (trim (longUrl st)) u e minutes).
  set (st' := succeeded st u e (VArr (firstn 20 (entry :: items)))).
  assert (F' : Forall has_properties (firstn 20 (entry :: items))).
  { apply Forall_firstn_keep. constructor; [apply make_entry_row|exact F]. }
  assert (Rs : result_shown st' = valid_child u).
  { unfold result_shown, st'. cbn [shortUrl expiresAt succeeded]. rewrite T.
    cbn [date_converts ToPrimitive]. destruct (truthy (VNum e)); apply andb_true_r. }
  assert (Rr : forallb row_shown (firstn 20 (entry :: items))
               = valid_child u && forallb row_shown (firstn 19 items)).
  { cbn [firstn forallb]. unfold entry.
    rewrite (proj1 (make_entry_row w (trim (longUrl st)) u e minutes)). reflexivity. }
  pose proof (App_rendered_rows apiBaseUrl st' _ eq_refl F') as E.
  rewrite Rs, Rr, (forallb_firstn row_shown 19 items D), andb_true_r in E.
  split; intros Hc; rewrite Hc in E; cbn [andb] in E.
  - rewrite (App_view_rows apiBaseUrl st' _ eq_refl F') in E.
    eexists. split; [exact E|]. cbn [alert result]. split; [reflexivity|].
    unfold st'. cbn [shortUrl expiresAt succeeded]. unfold guarded at 1. rewrite T.
    reflexivity.
  - exact E.
Qed.

(** What the component shows after a failure, over a history that was
    drawn. *)
Lemma failed_rendered (apiBaseUrl : jsstring) (st : state) (loading : bool)
    (m : jsstring) (items : list jsval) :
  history st = VArr items -> Forall has_properties items ->
  forallb row_shown items = true -> m <> [] ->
  exists v,
    App_rendered apiBaseUrl (failed st loading m) = Some v /\
    alert v = Element m /\ result v = Falsy (VStr []).
Proof.
  intros E F D Nm.
  pose proof (App_rendered_rows apiBaseUrl (failed st loading m) items E F) as R.
  change (result_shown (failed st loading m)) with true in R. rewrite D in R.
  cbn [andb] in R. rewrite (App_view_rows apiBaseUrl (failed st loading m) items E F) in R.
  eexists. split; [exact R|]. cbn [alert result errorMessage shortUrl failed].
  split; [|reflexivity]. destruct m; [congruence|reflexivity].
Qed.

Lemma msg_conversion_nonempty : msg_conversion <> [].
Proof. apply message_nonempty. Qed.

Variables (apiBaseUrl : jsstring) (w : world) (st : state).

(** C5, amended: on a 2xx answer whose JSON body is not null the short
    URL is the first truthy value among [shortUrl], [short_url], [short],
    in that order.  When the expiry is obtained, the submission records
    the entry and leaves that value as the short URL; over a history that
    was drawn the component then shows the result block with it when it
    is a value React accepts as a child, and throws on render when it is
    not (an object, or an array that holds one).  When the conversion of
    the server's expiry throws, the submission fails with the message of
    that error; when none of the three keys holds a truthy value it fails
    with [msg_unexpected]. *)
Theorem submit_short_url_precedence (minutes : number) (data : jsval) :
  validated st minutes -> answers w (request_of apiBaseUrl st minutes) data ->
  data <> VNull ->
  (forall u e,
     first_truthy [field data "shortUrl"; field data "short_url"; field data "short"]
       = Some u ->
     expiry_of w data minutes = Some e ->
     settled (handleSubmit apiBaseUrl w st)
       = option_map (succeeded st u e)
           (record (make_entry w (trim (longUrl st)) u e minutes) (history st)) /\
     forall items st',
       history st = VArr items -> Forall has_properties items ->
       forallb row_shown items = true ->
       settled (handleSubmit apiBaseUrl w st) = Some st' ->
       shortUrl st' = u /\
       (valid_child u = true ->
        exists v, App_rendered apiBaseUrl st' = Some v /\
                  alert v = Falsy (VStr []) /\
                  result v = Element {| short_link := u;
                                        expires_line := guarded (VNum e) (VNum e) |}) /\
       (valid_child u = false -> App_rendered apiBaseUrl st' = None)) /\
  (forall u,
     first_truthy [field data "shortUrl"; field data "short_url"; field data "short"]
       = Some u ->
     expiry_of w data minutes = None ->
     settled (handleSubmit apiBaseUrl w st) = Some (failed st false msg_conversion)) /\
  (first_truthy [field data "shortUrl"; field data "short_url"; field data "short"]
     = None ->
   settled (handleSubmit apiBaseUrl w st) = Some (failed st false msg_unexpected)).
Proof.
  intros V A N. rewrite (submit_answered apiBaseUrl w st minutes data V A N).
  split; [|split].
  - intros u e Fu Fe. rewrite Fu, Fe. cbn [settled]. split; [reflexivity|].
    intros items st' Hh F D S. rewrite Hh, record_array in S. cbn [option_map] in S.
    injection S as <-. split; [reflexivity|].
    apply succeeded_rendered; [exact F|exact D|].
    apply (first_truthy_in _ _ Fu).
  - intros u Fu Fe. rewrite Fu, Fe. reflexivity.
  - intros ->. reflexivity.
Qed.

(** X17: when the server answers 2xx with a body whose first truthy
    short URL is a value React accepts as a child, over a history that
    was drawn: with a truthy server expiry that converts to the number
    [n] the component shows the result block with the short URL, its
    Expires line guarded by [n], and no alert; when that conversion
    throws it shows the alert with the error's message and no result
    block; without a truthy server expiry the Expires line is given
    [Date.now() + minutes * 60000], exactly, below 2^53. *)
Theorem submit_shows_expiry (minutes : number) (data u : jsval) (items : list jsval) :
  validated st minutes -> answers w (request_of apiBaseUrl st minutes) data ->
  data <> VNull ->
  first_truthy [field data "shortUrl"; field data "short_url"; field data "short"] = Some u ->
  valid_child u = true ->
  history st = VArr items -> Forall has_properties items ->
  forallb row_shown items = true ->
  match first_truthy [field data "expiresAt"; field data "expires_at"] with
  | Some x =>
      match ToNumber x with
      | Some n =>
          exists st' v,
            settled (handleSubmit apiBaseUrl w st) = Some st' /\
            App_rendered apiBaseUrl st' = Some v /\
            alert v = Falsy (VStr []) /\
            result v = Element {| short_link := u;
                                  expires_line := guarded (VNum n) (VNum n) |}
      | None =>
          exists st' v,
            settled (handleSubmit apiBaseUrl w st) = Some st' /\
            App_rendered apiBaseUrl st' = Some v /\
            alert v = Element msg_conversion /\ result v = Falsy (VStr [])
      end
  | None =>
      forall m, minutes = Fin m 0 -> 0 <= now_expiry w ->
        now_expiry w + m * 60000 < 2 ^ 53 ->
        exists st' v,
          settled (handleSubmit apiBaseUrl w st) = Some st' /\
          App_rendered apiBaseUrl st' = Some v /\
          alert v = Falsy (VStr []) /\
          result v = Element {| short_link := u;
                                expires_line :=
                                  Element (VNum (Fin (now_expiry w + m * 60000) 0)) |}
  end.
Proof.
  intros V A Nn Fu Vc Hh Fi D.
  pose proof (submit_answered apiBaseUrl w st minutes data V A Nn) as E.
  rewrite Fu in E. unfold expiry_of in E.
  pose proof (proj2 (first_truthy_in _ _ Fu)) as Tu.
  destruct (first_truthy [field data "expiresAt"; field data "expires_at"]) as [x|].
  - destruct (ToNumber x) as [n|].
    + rewrite Hh, record_array in E. cbn [option_map] in E.
      destruct (proj1 (succeeded_rendered apiBaseUrl w st u n minutes items Fi D Tu) Vc)
        as (v & Hv & Ha & Hr).
      eexists. exists v. split; [rewrite E; reflexivity|]. repeat split; assumption.
    + destruct (failed_rendered apiBaseUrl st false msg_conversion items Hh Fi D
                  msg_conversion_nonempty) as (v & Hv & Ha & Hr).
      eexists. exists v. split; [rewrite E; reflexivity|]. repeat split; assumption.
  - intros m -> Hn Hb. rewrite Hh, record_array in E. cbn [option_map] in E.
    destruct (proj1 (succeeded_rendered apiBaseUrl w st u
                       (fadd (clock_number (now_expiry w))
                          (fmul (fmul (Fin m 0) (of_int 60)) (of_int 1000)))
                       (Fin m 0) items Fi D Tu) Vc)
      as (v & Hv & Ha & Hr).
    eexists. exists v. split; [rewrite E; reflexivity|]. split; [exact Hv|].
    split; [exact Ha|]. rewrite Hr.
    destruct (parseValidityOrDefault_positive _ _ (proj2 (proj2 V))) as (n & Hp & En).
    injection En as <-.
    rewrite (derived_expiry_exact (now_expiry w) m) by lia.
    unfold guarded. cbn [truthy num_truthy].
    rewrite (proj2 (Z.eqb_neq (now_expiry w + m * 60000) 0)) by lia. reflexivity.
Qed.

(** X7: after a settled submission, what the component renders has
    either the alert with a non-empty message and no result block, or the
    result block with a truthy short URL that React accepts as a child
    and no alert; once a request was sent the button is enabled and
    labelled [label_idle].  Over a history that was drawn the render
    throws exactly when the submission succeeded with a short URL that is
    not a valid child. *)
Theorem submit_alert_or_result (st' : state) :
  settled (handleSubmit apiBaseUrl w st) = Some st' ->
  (forall v, App_rendered apiBaseUrl st' = Some v ->
     ((exists m, m <> [] /\ alert v = Element m /\ result v = Falsy (VStr [])) \/
      (alert v = Falsy (VStr []) /\
       exists u e, truthy u = true /\ valid_child u = true /\
         result v = Element {| short_link := u;
                               expires_line := guarded (VNum e) (VNum e) |})) /\
     (requests (handleSubmit apiBaseUrl w st) <> [] ->
      submit_disabled v = false /\ submit_label v = label_idle)) /\
  (forall items,
     history st = VArr items -> Forall has_properties items ->
     forallb row_shown items = true ->
     (App_rendered apiBaseUrl st' = None <->
      errorMessage st' = [] /\ valid_child (shortUrl st') = false)).
Proof.
  intros H.
  destruct (submit_cases apiBaseUrl w st)
    as [(l & m & Nm & Es)|(minutes & u & e & V & Hi & Es)].
  - rewrite Es in H. injection H as <-. split.
    + intros v Hv. apply App_rendered_view in Hv. unfold App_view in Hv.
      destruct (length_of (history (failed st l m))) as [len|]; [|discriminate].
      destruct (if is_zero len then Some NoneYet
                else option_map Listed (map_rows (history (failed st l m))))
        as [card|]; [|discriminate].
      injection Hv as <-. cbn [alert result submit_disabled submit_label].
      cbn [errorMessage shortUrl expiresAt isLoading failed]. split.
      * left. exists m. split; [exact Nm|]. split; [|reflexivity].
        destruct m; [congruence|reflexivity].
      * destruct (validated_dec st) as [[minutes V]|[_ N]].
        -- intros _. rewrite (handleSubmit_validated _ _ _ minutes V) in Es.
           destruct (r <- fetch w (request_of apiBaseUrl st minutes) ;; interpret w minutes r)
             as [[u e]|m']; cbn [settled] in Es.
           ++ destruct (record _ _); discriminate.
           ++ injection Es as <- _. split; reflexivity.
        -- rewrite (proj1 (unvalidated_fails apiBaseUrl w st N)). congruence.
    + intros items Hh F D.
      destruct (failed_rendered apiBaseUrl st l m items Hh F D Nm) as (v & Hv & _).
      rewrite Hv. cbn [errorMessage failed]. split; [discriminate|].
      intros [E _]. congruence.
  - destruct (fetch w (request_of apiBaseUrl st minutes)) as [r|] eqn:Fr; [|discriminate].
    cbn [bind] in Hi. pose proof (interpret_truthy w minutes r u e Hi) as T.
    rewrite Es in H. split.
    + intros v Hv. destruct (record _ _) as [h|]; [|discriminate].
      injection H as <-.
      assert (Vc : valid_child u = true).
      { unfold App_rendered in Hv.
        destruct (App_view apiBaseUrl (succeeded st u e h)); [|discriminate].
        destruct (length_of (history (succeeded st u e h))); [|discriminate].
        unfold result_shown in Hv. cbn [shortUrl succeeded] in Hv. rewrite T in Hv.
        destruct (valid_child u); [reflexivity|].
        rewrite andb_false_r in Hv. discriminate. }
      apply App_rendered_view in Hv. unfold App_view in Hv.
      destruct (length_of (history (succeeded st u e h))) as [len|]; [|discriminate].
      destruct (if is_zero len then Some NoneYet
                else option_map Listed (map_rows (history (succeeded st u e h))))
        as [card|]; [|discriminate].
      injection Hv as <-. cbn [alert result submit_disabled submit_label].
      cbn [errorMessage shortUrl expiresAt isLoading succeeded]. split.
      * right. split; [reflexivity|]. exists u, e. split; [exact T|]. split; [exact Vc|].
        unfold guarded at 1. rewrite T. reflexivity.
      * intros _. split; reflexivity.
    + intros items Hh F D. rewrite Hh, record_array in H. cbn [option_map] in H.
      assert (Est : st' = succeeded st u e
                (VArr (firstn 20 (make_entry w (trim (longUrl st)) u e minutes :: items))))
        by congruence.
      rewrite Est. clear H Est.
      destruct (succeeded_rendered apiBaseUrl w st u e minutes items F D T) as [Y N].
      destruct (valid_child u) eqn:Vc.
      * destruct (Y eq_refl) as (v & Hv & _). rewrite Hv.
        cbn [errorMessage shortUrl succeeded]. rewrite Vc.
        split; [discriminate|]. intros [_ C]. discriminate.
      * rewrite (N eq_refl). cbn [errorMessage shortUrl succeeded]. rewrite Vc.
        split; [intros _; split; reflexivity|reflexivity].
Qed.

End Rendered.

Section SessionFacts.
Context {P : platform}.

(** X15: in every session the component renders whenever its result
    block can be drawn: the history is an array of at most 20 entries,
    listed in order, one row per entry keyed by its index; the Clear
    button is there exactly when the list is not empty; every long URL
    listed is accepted by [isValidHttpUrl] and every short URL listed is
    a value React accepts as a child. *)
Theorem session_view (s : session) (apiBaseUrl : jsstring) (st : state) :
  reachable s -> history st = hist s -> result_shown st = true ->
  exists v l,
    App_rendered apiBaseUrl st = Some v /\ history st = VArr l /\
    (List.length l <= 20)%nat /\
    clear_button v = match l with [] => false | _ => true end /\
    recent v = match l with
               | [] => NoneYet
               | _ => Listed (List.map (fun p => row_at (fst p) (snd p))
                                (combine (seq 0 (List.length l)) l))
               end /\
    Forall (fun e => exists u, field e "longUrl" = VStr u /\ isValidHttpUrl u = true) l /\
    Forall (fun e => valid_child (field e "shortUrl") = true) l.
Proof.
  intros R Hh Rs. destruct (reachable_drawn s R) as [Dr _].
  pose proof Dr as [[(l0 & E0 & L & _) (l1 & E1 & Fe)] _].
  destruct (drawn_rows _ Dr) as (l & E & F & D).
  rewrite E in E0, E1. injection E0 as <-. injection E1 as <-.
  rewrite <- Hh in E.
  exists {| long_url_value := longUrl st;
            alias_value := alias st;
            validity_value := validityMinutes st;
            alert := guarded (VStr (errorMessage st)) (errorMessage st);
            submit_disabled := isLoading st;
            submit_label := if isLoading st then label_loading else label_idle;
            result :=
              guarded (shortUrl st)
                {| short_link := shortUrl st;
                   expires_line := guarded (expiresAt st) (expiresAt st) |};
            clear_button := match l with [] => false | _ => true end;
            recent := match l with
                      | [] => NoneYet
                      | _ => Listed (List.map (fun p => row_at (fst p) (snd p))
                                       (combine (seq 0 (List.length l)) l))
                      end;
            api_base := if nonempty apiBaseUrl then apiBaseUrl else same_origin |}, l.
  split.
  { rewrite (App_rendered_rows apiBaseUrl st l E F), Rs, D. cbn [andb].
    apply App_view_rows; assumption. }
  split; [exact E|]. split; [exact L|]. cbn [clear_button recent].
  split; [reflexivity|]. split; [reflexivity|]. split.
  - revert Fe. apply Forall_impl.
    intros e (u & s0 & c & x & m & -> & _ & _ & V & _). exists u. split; [reflexivity|exact V].
  - clear E L F. revert D. induction Fe as [|e l He _ IH]; [constructor|].
    cbn [forallb]. intros D. apply andb_true_iff in D. destruct D as [D1 D2].
    constructor; [rewrite <- (entry_row_shown e He); exact D1|].
    apply IH, D2.
Qed.

(** X9: in every session a submission settles: the updater of line 101
    does not throw.  A failed submission leaves the history, and the
    session, as they were; a successful one is rendered exactly when its
    short URL is a value React accepts as a child, and the session then
    goes on with the new history stored. *)
Theorem submit_settles (s : session) (apiBaseUrl : jsstring) (w : world) (st : state) :
  reachable s -> history st = hist s ->
  exists st',
    settled (handleSubmit apiBaseUrl w st) = Some st' /\
    (errorMessage st' <> [] -> history st' = hist s /\ submits s s) /\
    (errorMessage st' = [] ->
     (App_rendered apiBaseUrl st' <> None <-> valid_child (shortUrl st') = true) /\
     (valid_child (shortUrl st') = true ->
      reachable {| store := persist (store s) (history st'); hist := history st' |})).
Proof.
  intros R Hh. destruct (reachable_drawn s R) as [Dr _].
  destruct (drawn_rows _ Dr) as (l & E & F & D). rewrite <- Hh in E.
  destruct (submit_cases apiBaseUrl w st)
    as [(lo & m & Nm & Es)|(minutes & u & e & V & Hi & Es)].
  - exists (failed st lo m). split; [exact Es|]. cbn [errorMessage history failed]. split.
    + intros _. split; [exact Hh|].
      exact (submits_failed s apiBaseUrl w st (failed st lo m) Hh Es Nm).
    + intros C. congruence.
  - rewrite E, record_array in Es. cbn [option_map] in Es.
    eexists. split; [exact Es|]. cbn [errorMessage shortUrl history succeeded]. split.
    + intros C. congruence.
    + intros _.
      destruct (fetch w (request_of apiBaseUrl st minutes)) as [r|]; [|discriminate].
      cbn [bind] in Hi. pose proof (interpret_truthy w minutes r u e Hi) as T.
      destruct (succeeded_rendered apiBaseUrl w st u e minutes l F D T) as [Y N].
      assert (Iff : App_rendered apiBaseUrl
                      (succeeded st u e
                         (VArr (firstn 20 (make_entry w (trim (longUrl st)) u e minutes :: l))))
                    <> None <-> valid_child u = true).
      { destruct (valid_child u) eqn:Vc.
        - destruct (Y eq_refl) as (v & Hv & _). rewrite Hv. split; [reflexivity|discriminate].
        - rewrite (N eq_refl). split; [congruence|discriminate]. }
      split; [exact Iff|]. intros Vc.
      apply (reach_step s _ R), step_submit.
      exact (submits_recorded s apiBaseUrl w st _ Hh Es eq_refl (proj2 Iff Vc)).
Qed.

(** C8, amended: in a session whose storage reads and writes, a
    submission that succeeds and is rendered is a step of the session:
    the effect of lines 25-31 stores the new history, and a reload gives
    that history with NaN and the infinities turned into [null], in the
    same order and with every other field as it was; when every number
    of the history is finite the reloaded history equals the one in
    memory. *)
Theorem record_then_load (s : session) (apiBaseUrl : jsstring) (w : world)
    (st st' : state) :
  reachable s -> history st = hist s ->
  settled (handleSubmit apiBaseUrl w st) = Some st' -> errorMessage st' = [] ->
  App_rendered apiBaseUrl st' <> None ->
  read_fault (store s) = None -> write_fault (store s) = None ->
  submits s {| store := persist (store s) (history st'); hist := history st' |} /\
  hist (mount (persist (store s) (history st'))) = revive (history st') /\
  (finite_numbers (history st') = true ->
   hist (mount (persist (store s) (history st'))) = history st').
Proof.
  intros R Hh Hs Hm Hr Rd Wr.
  pose proof (submits_recorded s apiBaseUrl w st st' Hh Hs Hm Hr) as Sub.
  split; [exact Sub|].
  assert (I : invariant {| store := persist (store s) (history st'); hist := history st' |})
    by (apply (reachable_invariant _ (reach_step s _ R (step_submit s _ Sub)))).
  destruct I as [B _]. cbn [hist] in B. pose proof (bounded_wf _ B) as W.
  assert (E : load (persist (store s) (history st')) = revive (history st')).
  { rewrite (persist_works _ _ Wr). apply load_text; [exact W|exact Rd|].
    cbn [url_history]. rewrite (blob_of_text _ W). reflexivity. }
  unfold mount. cbn [hist].
  split; [exact E|]. intros Fn. rewrite E. apply revive_finite, Fn.
Qed.

End SessionFacts.

(* ------------------------------------------------------------------ *)
(** ** The statements above on the sample session *)

Section MoreExamples.

Lemma sample_submission :
  settled (handleSubmit (P := sample_platform) [] sample_server
             (sample_state "https://example.com/a" ""))
  = Some (succeeded (sample_state "https://example.com/a" "") (VStr (js "https://s/x"))
            (of_int 1700001800000) (VArr [sample_entry])).
Proof. vm_compute. reflexivity. Qed.

Lemma sample_session_reachable : reachable (P := sample_platform) sample_session.
Proof.
  apply (reach_step (mount (fresh None None)) _ (reach_mount None None)), step_submit.
  refine (submits_recorded (P := sample_platform) (mount (fresh None None)) [] sample_server
            (sample_state "https://example.com/a" "") _ eq_refl sample_submission eq_refl _).
  vm_compute. discriminate.
Qed.

Lemma sample_validated :
  validated (P := sample_platform) (sample_form "  https://example.com/a " " my-link " "15" (VArr []))
            (of_int 15).
Proof. split; [|split]; vm_compute; reflexivity. Qed.

Lemma submit_requests_witness :
  requests (handleSubmit (P := sample_platform) (js "https://api.test") sample_server
              (sample_form "  https://example.com/a " " my-link " "15" (VArr [])))
  = [request_of (js "https://api.test")
       (sample_form "  https://example.com/a " " my-link " "15" (VArr [])) (of_int 15)] /\
  settled (handleSubmit (P := sample_platform) [] sample_server
             (sample_form "https://example.com/a" "" "2.5" (VArr [])))
  = Some (failed (sample_form "https://example.com/a" "" "2.5" (VArr [])) false
            msg_invalid_validity).
Proof.
  split.
  - apply (proj1 (submit_requests (P := sample_platform) (js "https://api.test") sample_server
                    (sample_form "  https://example.com/a " " my-link " "15" (VArr [])))).
    exact sample_validated.
  - apply (proj2 (proj2 (submit_requests (P := sample_platform) [] sample_server
                    (sample_form "https://example.com/a" "" "2.5" (VArr []))))).
    + vm_compute. discriminate.
    + vm_compute. reflexivity.
    + vm_compute. reflexivity.
Defined.

Lemma clear_then_reload_witness :
  url_history (persist (store sample_session)
                 (history (handleClearHistory (initial_state (store sample_session)))))
  = Some (js "[]") /\
  hist (mount (persist (store sample_session)
                 (history (handleClearHistory (initial_state (store sample_session))))))
  = VArr [].
Proof.
  apply (proj2 (clear_then_reload sample_session []
                  (initial_state (store sample_session)))).
  reflexivity.
Defined.

Lemma submit_request_body_witness :
  exists m,
    0 < m /\
    parseValidityOrDefault (js "15") = Some (Fin m 0) /\
    trim (js "  https://example.com/a ") <> [] /\
    isValidHttpUrl (P := sample_platform) (trim (js "  https://example.com/a ")) = true /\
    req_url (request_of (js "https://api.test")
               (sample_form "  https://example.com/a " " my-link " "15" (VArr []))
               (of_int 15)) = js "https://api.test" ++ js "/shorten" /\
    req_method (request_of (js "https://api.test")
                  (sample_form "  https://example.com/a " " my-link " "15" (VArr []))
                  (of_int 15)) = js "POST" /\
    req_content_type (request_of (js "https://api.test")
                        (sample_form "  https://example.com/a " " my-link " "15" (VArr []))
                        (of_int 15)) = js "application/json" /\
    JSON_parse (req_body (request_of (js "https://api.test")
                  (sample_form "  https://example.com/a " " my-link " "15" (VArr []))
                  (of_int 15)))
    = Some (VObj ([(js "url", VStr (trim (js "  https://example.com/a ")));
                   (js "validity", VNum (Fin m 0))]
                  ++ (if nonempty (trim (js " my-link "))
                      then [(js "alias", VStr (trim (js " my-link ")))] else []))).
Proof.
  refine (proj2 (submit_request_body (P := sample_platform) (js "https://api.test")
                   sample_server
                   (sample_form "  https://example.com/a " " my-link " "15" (VArr []))
                   (request_of (js "https://api.test")
                      (sample_form "  https://example.com/a " " my-link " "15" (VArr []))
                      (of_int 15)) _)).
  vm_compute. left. reflexivity.
Defined.

Lemma submit_transport_error_witness :
  settled (handleSubmit (P := sample_platform) []
             (sample_world (Throw (js "Failed to fetch")) 0 0)
             (sample_form "  https://example.com/a " " my-link " "15" (VArr [])))
  = Some (failed (sample_form "  https://example.com/a " " my-link " "15" (VArr [])) false
            (js "Failed to fetch")).
Proof.
  exact (proj1 (submit_transport_error (P := sample_platform) []
                  (sample_world (Throw (js "Failed to fetch")) 0 0)
                  (sample_form "  https://example.com/a " " my-link " "15" (VArr []))
                  (of_int 15) sample_validated) (js "Failed to fetch") eq_refl).
Defined.

Lemma submit_success_entry_witness :
  exists st',
    settled (handleSubmit (P := sample_platform) [] sample_server
               (sample_state "https://example.com/a" "")) = Some st' /\
    exists minutes e,
      validated (P := sample_platform) (sample_state "https://example.com/a" "") minutes /\
      truthy (shortUrl st') = true /\
      expiresAt st' = VNum e /\
      history st'
        = VArr (VObj [(js "longUrl", VStr (trim (js "https://example.com/a")));
                      (js "shortUrl", shortUrl st');
                      (js "createdAt", VNum (clock_number (now_created sample_server)));
                      (js "expiresAt", VNum e);
                      (js "validityMinutes", VNum minutes)] :: firstn 19 []) /\
      alias st' = [] /\ isLoading st' = false /\
      longUrl st' = js "https://example.com/a" /\ validityMinutes st' = js "".
Proof.
  eexists. split; [exact sample_submission|].
  exact (submit_success_entry (P := sample_platform) [] sample_server
           (sample_state "https://example.com/a" "") _ [] eq_refl sample_submission eq_refl).
Defined.

Lemma submit_inputs_witness :
  exists st',
    settled (handleSubmit (P := sample_platform) [] sample_server
               (sample_form "https://example.com/a" "my-link" "" (VArr []))) = Some st' /\
    longUrl st' = js "https://example.com/a" /\ validityMinutes st' = js "" /\
    (errorMessage st' <> [] -> alias st' = js "my-link") /\
    (errorMessage st' = [] -> alias st' = []).
Proof.
  eexists. split; [vm_compute; reflexivity|].
  apply (submit_inputs (P := sample_platform) [] sample_server
           (sample_form "https://example.com/a" "my-link" "" (VArr []))).
  vm_compute. reflexivity.
Defined.

Lemma submit_unsettled_iff_witness :
  settled (handleSubmit (P := sample_platform) [] sample_server
             (sample_form "https://example.com/a" "" "" (VNum (of_int 5)))) = None.
Proof.
  apply (proj2 (submit_unsettled_iff (P := sample_platform) [] sample_server
                  (sample_form "https://example.com/a" "" "" (VNum (of_int 5))))).
  split; [reflexivity|].
  exists (of_int 30), (VStr (js "https://s/x")), (of_int 1700001800000).
  split; [split; [|split]|]; vm_compute; reflexivity.
Defined.


Lemma history_entries_shape_witness :
  exists l, hist sample_session = VArr l /\ (List.length l <= 20)%nat /\
            Forall (entry_ok (P := sample_platform)) l.
Proof. exact (history_entries_shape sample_session sample_session_reachable). Defined.


Lemma reload_idempotent_witness :
  mount (store (mount (store sample_session))) = mount (store sample_session).
Proof. exact (reload_idempotent (P := sample_platform) sample_session sample_session_reachable). Defined.

Lemma mount_resets_item_witness :
  hist (mount {| url_history := Some (json_text "[{'longUrl':");
                 read_fault := None; write_fault := None |}) = VArr [] /\
  url_history (store (mount {| url_history := Some (json_text "[{'longUrl':");
                               read_fault := None; write_fault := None |}))
  = Some (js "[]").
Proof.
  apply mount_resets_item; [reflexivity|].
  right; left. exists (json_text "[{'longUrl':"). split; [reflexivity|].
  vm_compute. reflexivity.
Defined.

Lemma failed_write_is_silent_witness :
  store {| store := persist (with_faults (store sample_session) None (Some (js "QuotaExceededError"))) clear;
           hist := clear |}
  = with_faults (store sample_session) None (Some (js "QuotaExceededError")) /\
  mount (store {| store := persist (with_faults (store sample_session) None
                                      (Some (js "QuotaExceededError"))) clear;
                  hist := clear |})
  = mount (with_faults (store sample_session) None (Some (js "QuotaExceededError"))).
Proof.
  exact (failed_write_is_silent (P := sample_platform)
           {| store := with_faults (store sample_session) None (Some (js "QuotaExceededError"));
              hist := hist sample_session |}
           _ (js "QuotaExceededError") eq_refl (or_intror eq_refl)).
Defined.



Lemma parseValidityOrDefault_whitespace_witness :
  parseValidityOrDefault (js "  " ++ js "45" ++ [9; 10]%N) = parseValidityOrDefault (js "45").
Proof.
  apply parseValidityOrDefault_whitespace; reflexivity.
Defined.

Lemma parseValidityOrDefault_range_witness :
  exists n, 0 < n < 2 ^ 1024 /\ of_int 100 = Fin n 0 /\
            (n < 2 ^ 53 \/ n mod 2 ^ (Z.log2 n - 52) = 0).
Proof.
  apply (parseValidityOrDefault_range (js "1e2")). vm_compute. reflexivity.
Defined.

Lemma api_base_same_origin_witness :
  exists v,
    App_view (apiBaseUrl_of None) (sample_state "https://example.com/a" "") = Some v /\
    api_base v = same_origin /\
    List.map req_url (requests (handleSubmit (P := sample_platform) (apiBaseUrl_of None)
                                  sample_server (sample_state "https://example.com/a" "")))
    = [js "/shorten"].
Proof.
  eexists. split; [vm_compute; reflexivity|].
  apply (proj1 (api_base_same_origin (P := sample_platform) None sample_server
                  (sample_state "https://example.com/a" "") (of_int 30) _
                  ltac:(split; [|split]; vm_compute; reflexivity)
                  ltac:(vm_compute; reflexivity))).
  left. reflexivity.
Defined.

Lemma isValidHttpUrl_accepts_witness :
  isValidHttpUrl (P := sample_platform)
    (js "https://" ++ 119%N :: js "ww.example.com" ++ js "/a b?q=1#top ") = true.
Proof.
  apply (isValidHttpUrl_accepts (P := sample_platform) true 119 (js "ww.example.com")
           (js "/a b?q=1#top ")).
  - reflexivity.
  - reflexivity.
  - right. eexists. reflexivity.
Defined.


Lemma pending_view_witness :
  requests (handleSubmit (P := sample_platform) [] sample_server
              (sample_form "example.com" "" "" (VArr []))) = [] /\
  exists v,
    App_view [] (failed (sample_state "https://example.com/a" "") true []) = Some v /\
    submit_disabled v = true /\ submit_label v = label_loading /\
    alert v = Falsy (VStr []) /\ result v = Falsy (VStr []) /\
    history (failed (sample_state "https://example.com/a" "") true [])
    = history (sample_state "https://example.com/a" "") /\
    forall st', settled (handleSubmit (P := sample_platform) [] sample_server
                           (sample_state "https://example.com/a" "")) = Some st' ->
                isLoading st' = false.
Proof.
  split.
  - apply (proj1 (proj1 (pending_view (P := sample_platform) [] sample_server
                           (sample_form "example.com" "" "" (VArr []))))).
    vm_compute. reflexivity.
  - eexists. split; [vm_compute; reflexivity|].
    apply (proj2 (pending_view (P := sample_platform) [] sample_server
                    (sample_state "https://example.com/a" ""))).
    + vm_compute. reflexivity.
    + vm_compute. reflexivity.
Defined.

Lemma stored_item_loads_witness :
  exists l, JSON_parse (blob_of (VArr [sample_entry])) = Some (VArr l) /\
            (List.length l <= 20)%nat /\ Forall (entry_ok (P := sample_platform)) l.
Proof.
  exact (stored_item_loads (P := sample_platform) sample_session _
           sample_session_reachable eq_refl).
Defined.

Lemma isValidHttpUrl_needs_scheme_witness :
  In 58%N (js " HTTPS://Example.com/") /\
  exists raw rest,
    preprocess (js " HTTPS://Example.com/") = raw ++ 58%N :: rest /\
    (List.map to_lower raw = js "http" \/ List.map to_lower raw = js "https").
Proof.
  apply (isValidHttpUrl_needs_scheme (P := sample_platform)). vm_compute. reflexivity.
Defined.

(** C5, as the specification states it, fails: in the body [{"shortUrl":5}]
    none of the three keys holds a non-empty string, yet the submission
    does not fail; the number 5 becomes the short URL and is rendered in
    the result block. *)
Lemma short_url_number_counterexample :
  JSON_parse (json_text "{'shortUrl':5}") = Some (VObj [(js "shortUrl", VNum (of_int 5))]) /\
  ~ holds_nonempty_string (VObj [(js "shortUrl", VNum (of_int 5))]) "shortUrl" /\
  ~ holds_nonempty_string (VObj [(js "shortUrl", VNum (of_int 5))]) "short_url" /\
  ~ holds_nonempty_string (VObj [(js "shortUrl", VNum (of_int 5))]) "short" /\
  exists st' v,
    settled (handleSubmit (P := sample_platform) []
               (sample_world (responds true (json_text "{'shortUrl':5}")) 0 0)
               (sample_state "https://example.com/a" "")) = Some st' /\
    errorMessage st' = [] /\ shortUrl st' = VNum (of_int 5) /\
    App_rendered [] st' = Some v /\
    alert v = Falsy (VStr []) /\
    result v = Element {| short_link := VNum (of_int 5);
                          expires_line := Element (VNum (of_int 1800000)) |}.
Proof.
  split; [vm_compute; reflexivity|].
  repeat split; try (intros (s & H & _); vm_compute in H; discriminate).
  eexists. eexists. split; [vm_compute; reflexivity|].
  split; [reflexivity|]. split; [reflexivity|].
  split; [vm_compute; reflexivity|]. split; reflexivity.
Qed.

(** C5 on three bodies: the second key wins over the third when the
    first holds the empty string; an object as short URL makes the render
    throw; no truthy value under the three keys fails the submission. *)
Lemma submit_short_url_precedence_witness :
  settled (handleSubmit (P := sample_platform) []
             (sample_world
                (responds true (json_text "{'shortUrl':'','short_url':'https://s/b','short':'https://s/c'}"))
                1700000000000 1700000000001)
             (sample_state "https://example.com/a" "15"))
  = Some (succeeded (sample_state "https://example.com/a" "15")
            (VStr (js "https://s/b")) (of_int 1700000900000)
            (VArr [VObj [(js "longUrl", VStr (js "https://example.com/a"));
                         (js "shortUrl", VStr (js "https://s/b"));
                         (js "createdAt", VNum (of_int 1700000000001));
                         (js "expiresAt", VNum (of_int 1700000900000));
                         (js "validityMinutes", VNum (of_int 15))]])) /\
  (exists st',
     settled (handleSubmit (P := sample_platform) []
                (sample_world (responds true (json_text "{'shortUrl':{'href':'https://s/x'}}"))
                   1700000000000 1700000000001)
                (sample_state "https://example.com/a" "15")) = Some st' /\
     shortUrl st' = VObj [(js "href", VStr (js "https://s/x"))] /\
     App_rendered [] st' = None) /\
  settled (handleSubmit (P := sample_platform) []
             (sample_world (responds true (json_text "{'id':7,'short':''}")) 0 0)
             (sample_state "https://example.com/a" ""))
  = Some (failed (sample_state "https://example.com/a" "") false msg_unexpected).
Proof.
  split; [|split].
  - refine (eq_trans
      (proj1 (proj1 (submit_short_url_precedence (P := sample_platform) [] _ _ (of_int 15)
                (VObj [(js "shortUrl", VStr []); (js "short_url", VStr (js "https://s/b"));
                       (js "short", VStr (js "https://s/c"))]) _ _ _)
             (VStr (js "https://s/b")) (of_int 1700000900000) _ _)) _).
    + split; [|split]; vm_compute; reflexivity.
    + eexists _, _. repeat split; vm_compute; reflexivity.
    + discriminate.
    + reflexivity.
    + vm_compute. reflexivity.
    + vm_compute. reflexivity.
  - eexists. split; [vm_compute; reflexivity|].
    refine (let T := proj2 (proj1 (submit_short_url_precedence (P := sample_platform) []
                (sample_world (responds true (json_text "{'shortUrl':{'href':'https://s/x'}}"))
                   1700000000000 1700000000001)
                (sample_state "https://example.com/a" "15") (of_int 15)
                (VObj [(js "shortUrl", VObj [(js "href", VStr (js "https://s/x"))])]) _ _ _)
             (VObj [(js "href", VStr (js "https://s/x"))]) (of_int 1700000900000) _ _)
             [] _ eq_refl (Forall_nil _) eq_refl _
            in conj (proj1 T) (proj2 (proj2 T) eq_refl)).
    + split; [|split]; vm_compute; reflexivity.
    + eexists _, _. repeat split; vm_compute; reflexivity.
    + discriminate.
    + reflexivity.
    + vm_compute. reflexivity.
    + vm_compute. reflexivity.
  - refine (proj2 (proj2 (submit_short_url_precedence (P := sample_platform) [] _ _ (of_int 30)
                (VObj [(js "id", VNum (of_int 7)); (js "short", VStr [])]) _ _ _)) _).
    + split; [|split]; vm_compute; reflexivity.
    + eexists _, _. repeat split; vm_compute; reflexivity.
    + discriminate.
    + reflexivity.
Defined.

(** C8, as the specification states it, fails: the server answers
    [{"shortUrl":"https://s/x","expiresAt":"soon"}], the submission
    succeeds and is rendered, the recorded entry has [expiresAt] NaN, and
    after the reload it has [null] there. *)
Lemma nan_expiry_counterexample :
  (exists st',
     settled (handleSubmit (P := sample_platform) []
                (sample_world
                   (responds true (json_text "{'shortUrl':'https://s/x','expiresAt':'soon'}"))
                   0 1700000000000)
                (sample_state "https://example.com/a" "")) = Some st' /\
     errorMessage st' = [] /\
     App_rendered [] st' <> None /\
     history st'
     = VArr [VObj [(js "longUrl", VStr (js "https://example.com/a"));
                   (js "shortUrl", VStr (js "https://s/x"));
                   (js "createdAt", VNum (of_int 1700000000000));
                   (js "expiresAt", VNum NaN);
                   (js "validityMinutes", VNum (of_int 30))]]) /\
  load (persist (store (mount (fresh None None)))
          (VArr [VObj [(js "longUrl", VStr (js "https://example.com/a"));
                       (js "shortUrl", VStr (js "https://s/x"));
                       (js "createdAt", VNum (of_int 1700000000000));
                       (js "expiresAt", VNum NaN);
                       (js "validityMinutes", VNum (of_int 30))]]))
  = VArr [VObj [(js "longUrl", VStr (js "https://example.com/a"));
                (js "shortUrl", VStr (js "https://s/x"));
                (js "createdAt", VNum (of_int 1700000000000));
                (js "expiresAt", VNull);
                (js "validityMinutes", VNum (of_int 30))]] /\
  load (persist (store (mount (fresh None None)))
          (VArr [VObj [(js "longUrl", VStr (js "https://example.com/a"));
                       (js "shortUrl", VStr (js "https://s/x"));
                       (js "createdAt", VNum (of_int 1700000000000));
                       (js "expiresAt", VNum NaN);
                       (js "validityMinutes", VNum (of_int 30))]]))
  <> VArr [VObj [(js "longUrl", VStr (js "https://example.com/a"));
                 (js "shortUrl", VStr (js "https://s/x"));
                 (js "createdAt", VNum (of_int 1700000000000));
                 (js "expiresAt", VNum NaN);
                 (js "validityMinutes", VNum (of_int 30))]].
Proof.
  split.
  { eexists. split; [vm_compute; reflexivity|]. split; [reflexivity|].
    split; [vm_compute; discriminate|reflexivity]. }
  split; [vm_compute; reflexivity|].
  intros H. vm_compute in H. discriminate H.
Qed.

(** C8 on the first submission of a first visit. *)
Lemma record_then_load_witness :
  hist (mount (persist (store (mount (fresh None None)))
                 (VArr [make_entry (sample_world (Throw []) 0 1700000000000)
                          (js "https://example.com/a") (VStr (js "https://s/x"))
                          (of_int 1700001800000) (of_int 30)])))
  = VArr [make_entry (sample_world (Throw []) 0 1700000000000)
            (js "https://example.com/a") (VStr (js "https://s/x"))
            (of_int 1700001800000) (of_int 30)].
Proof.
  refine (proj2 (proj2 (record_then_load (P := sample_platform) (mount (fresh None None)) []
              (sample_world
                 (responds true (json_text "{'shortUrl':'https://s/x','expiresAt':1700001800000}"))
                 0 1700000000000)
              (sample_state "https://example.com/a" "")
              (succeeded (sample_state "https://example.com/a" "") (VStr (js "https://s/x"))
                 (of_int 1700001800000)
                 (VArr [make_entry (sample_world (Throw []) 0 1700000000000)
                          (js "https://example.com/a") (VStr (js "https://s/x"))
                          (of_int 1700001800000) (of_int 30)]))
              (reach_mount None None) eq_refl _ eq_refl _ eq_refl eq_refl)) _).
  - vm_compute. reflexivity.
  - vm_compute. discriminate.
  - reflexivity.
Defined.

(** X7 on the sample submission. *)
Lemma submit_alert_or_result_witness :
  exists v,
    App_rendered []
      (succeeded (sample_state "https://example.com/a" "") (VStr (js "https://s/x"))
         (of_int 1700001800000) (VArr [sample_entry])) = Some v /\
    ((exists m, m <> [] /\ alert v = Element m /\ result v = Falsy (VStr [])) \/
     (alert v = Falsy (VStr []) /\
      exists u e, truthy u = true /\ valid_child u = true /\
        result v = Element {| short_link := u;
                              expires_line := guarded (VNum e) (VNum e) |})) /\
    (requests (handleSubmit (P := sample_platform) [] sample_server
                 (sample_state "https://example.com/a" "")) <> [] ->
     submit_disabled v = false /\ submit_label v = label_idle).
Proof.
  eexists. split; [vm_compute; reflexivity|].
  apply (proj1 (submit_alert_or_result (P := sample_platform) [] sample_server
                  (sample_state "https://example.com/a" "") _ sample_submission)).
  vm_compute. reflexivity.
Defined.

(** X9 on a second submission of the sample session. *)
Lemma submit_settles_witness :
  exists st',
    settled (handleSubmit (P := sample_platform) [] sample_server
               (sample_form "https://example.com/b" "" "5" (VArr [sample_entry]))) = Some st' /\
    (errorMessage st' <> [] ->
     history st' = hist sample_session /\
     submits (P := sample_platform) sample_session sample_session) /\
    (errorMessage st' = [] ->
     (App_rendered [] st' <> None <->
      valid_child (shortUrl st') = true) /\
     (valid_child (shortUrl st') = true ->
      reachable (P := sample_platform)
        {| store := persist (store sample_session) (history st'); hist := history st' |})).
Proof.
  exact (submit_settles (P := sample_platform) sample_session [] sample_server
           (sample_form "https://example.com/b" "" "5" (VArr [sample_entry]))
           sample_session_reachable eq_refl).
Defined.

(** X14: a stored [null], and a stored item whose [createdAt] is an
    object with a [toString] property, make the render throw. *)
Lemma App_rendered_defined_witness :
  App_rendered []
    (initial_state {| url_history := Some (js "null");
                      read_fault := None; write_fault := None |}) = None /\
  App_rendered []
    (sample_form "" "" "" (VArr [VObj [(js "createdAt", VObj [(js "toString", VNum (of_int 1))])]]))
  = None.
Proof.
  split.
  - destruct (App_rendered []
                (initial_state {| url_history := Some (js "null");
                                  read_fault := None; write_fault := None |}))
      as [v|] eqn:E; [|reflexivity].
    exfalso.
    assert (D : App_rendered []
                  (initial_state {| url_history := Some (js "null");
                                    read_fault := None; write_fault := None |}) <> None)
      by (rewrite E; discriminate).
    apply (proj1 (proj1 (App_rendered_defined [] _))) in D.
    destruct D as [_ [(l & H & _)|[H|(props & k & H & _)]]]; vm_compute in H; discriminate H.
  - destruct (App_rendered []
                (sample_form "" "" ""
                   (VArr [VObj [(js "createdAt", VObj [(js "toString", VNum (of_int 1))])]])))
      as [v|] eqn:E; [|reflexivity].
    exfalso.
    assert (D : App_rendered []
                  (sample_form "" "" ""
                     (VArr [VObj [(js "createdAt", VObj [(js "toString", VNum (of_int 1))])]]))
                <> None)
      by (rewrite E; discriminate).
    apply (proj1 (proj1 (App_rendered_defined [] _))) in D.
    destruct D as [_ [(l & H & _ & Hr)|[H|(props & k & H & _)]]];
      [|vm_compute in H; discriminate H|vm_compute in H; discriminate H].
    cbn [history sample_form] in H. injection H as <-. vm_compute in Hr. discriminate Hr.
Defined.

(** X15 on the sample session. *)
Lemma session_view_witness :
  exists v l,
    App_rendered (js "https://api.test")
      (sample_form "https://example.com/b" "" "5" (VArr [sample_entry])) = Some v /\
    VArr [sample_entry] = VArr l /\ (List.length l <= 20)%nat /\
    clear_button v = match l with [] => false | _ => true end /\
    recent v = match l with
               | [] => NoneYet
               | _ => Listed (List.map (fun p => row_at (fst p) (snd p))
                                (combine (seq 0 (List.length l)) l))
               end /\
    Forall (fun e => exists u, field e "longUrl" = VStr u /\
                               isValidHttpUrl (P := sample_platform) u = true) l /\
    Forall (fun e => valid_child (field e "shortUrl") = true) l.
Proof.
  exact (session_view (P := sample_platform) sample_session (js "https://api.test")
           (sample_form "https://example.com/b" "" "5" (VArr [sample_entry]))
           sample_session_reachable eq_refl eq_refl).
Defined.

(** X17 on the sample session: a server without expiry, and a server
    whose expiry is an object with a [toString] property. *)
Lemma submit_shows_expiry_witness :
  (exists st' v,
     settled (handleSubmit (P := sample_platform) [] sample_server
                (sample_form "https://example.com/b" "" "5" (VArr [sample_entry]))) = Some st' /\
     App_rendered [] st' = Some v /\
     alert v = Falsy (VStr []) /\
     result v = Element {| short_link := VStr (js "https://s/x");
                           expires_line :=
                             Element (VNum (Fin (now_expiry sample_server + 5 * 60000) 0)) |}) /\
  (exists st' v,
     settled (handleSubmit (P := sample_platform) []
                (sample_world
                   (responds true
                      (json_text "{'shortUrl':'https://s/x','expiresAt':{'toString':1}}"))
                   1700000000000 1700000000000)
                (sample_form "https://example.com/b" "" "5" (VArr [sample_entry]))) = Some st' /\
     App_rendered [] st' = Some v /\
     alert v = Element (js "Cannot convert object to primitive value") /\
     result v = Falsy (VStr [])).
Proof.
  split.
  - refine (submit_shows_expiry (P := sample_platform) [] sample_server
              (sample_form "https://example.com/b" "" "5" (VArr [sample_entry]))
              (of_int 5) (VObj [(js "shortUrl", VStr (js "https://s/x"))])
              (VStr (js "https://s/x")) [sample_entry] _ _ _ _ _ _ _ _ 5 eq_refl _ _).
    + split; [|split]; vm_compute; reflexivity.
    + eexists. eexists. split; [reflexivity|]. split; [reflexivity|].
      split; [reflexivity|]. vm_compute. reflexivity.
    + discriminate.
    + reflexivity.
    + reflexivity.
    + reflexivity.
    + constructor; [split; discriminate|constructor].
    + reflexivity.
    + vm_compute. discriminate.
    + vm_compute. reflexivity.
  - refine (submit_shows_expiry (P := sample_platform) []
              (sample_world
                 (responds true
                    (json_text "{'shortUrl':'https://s/x','expiresAt':{'toString':1}}"))
                 1700000000000 1700000000000)
              (sample_form "https://example.com/b" "" "5" (VArr [sample_entry]))
              (of_int 5)
              (VObj [(js "shortUrl", VStr (js "https://s/x"));
                     (js "expiresAt", VObj [(js "toString", VNum (of_int 1))])])
              (VStr (js "https://s/x")) [sample_entry] _ _ _ _ _ _ _ _).
    + split; [|split]; vm_compute; reflexivity.
    + eexists. eexists. split; [reflexivity|]. split; [reflexivity|].
      split; [reflexivity|]. vm_compute. reflexivity.
    + discriminate.
    + reflexivity.
    + reflexivity.
    + reflexivity.
    + constructor; [split; discriminate|constructor].
    + reflexivity.
Defined.

End MoreExamples.
